(** * masscreate: batch creation of numbered WireGuard configurations

    A shallow embedding of [masscreate.py].  Python [str] values are Rocq
    strings (ASCII text), Python's unbounded non-negative integers are
    [nat], a [dict] with string keys is a [gmap string _], a [set] of
    strings is a [gset string].  Code that talks to the outside world
    (processes, files, the SQLite store, HTTP, the clock, the terminal)
    runs in a state-and-error monad over an explicit [World]; what the
    outside answers is taken from an [Env] of oracles. *)

From Stdlib Require Import Ascii String.
From stdpp Require Import base option list strings gmap.

(** ** Text *)

Module Text.

Definition is_digit (c : ascii) : bool :=
  let n := nat_of_ascii c in (48 <=? n) && (n <=? 57).

(** [str.isdigit()]: at least one character, all of them digits. *)
Fixpoint all_digits (s : string) : bool :=
  match s with
  | EmptyString => true
  | String c s' => is_digit c && all_digits s'
  end.

Definition isdigit (s : string) : bool :=
  match s with
  | EmptyString => false
  | _ => all_digits s
  end.

Definition digit_char (d : nat) : ascii := ascii_of_nat (48 + d).

Definition digit_val (c : ascii) : nat := nat_of_ascii c - 48.

(** [str(n)] for [n >= 0]: the decimal digits, most significant first. *)
Fixpoint str_aux (fuel n : nat) (acc : string) : string :=
  let acc' := String (digit_char (n mod 10)) acc in
  match fuel with
  | 0 => acc'
  | S f => if n / 10 =? 0 then acc' else str_aux f (n / 10) acc'
  end.

Definition str (n : nat) : string := str_aux n n "".

(** [str(z)] for an arbitrary integer. *)
Definition str_Z (z : Z) : string :=
  if (z <? 0)%Z then "-" +:+ str (Z.to_nat (- z)) else str (Z.to_nat z).

(** [int(s)] on a string of digits. *)
Fixpoint int_aux (acc : nat) (s : string) : nat :=
  match s with
  | EmptyString => acc
  | String c s' => int_aux (10 * acc + digit_val c) s'
  end.

Definition int (s : string) : nat := int_aux 0 s.

Fixpoint zeros (k : nat) : string :=
  match k with
  | 0 => ""
  | S k' => String "0"%char (zeros k')
  end.

Fixpoint startswith (p s : string) : bool :=
  match p, s with
  | EmptyString, _ => true
  | String a p', String b s' => if Ascii.eqb a b then startswith p' s' else false
  | String _ _, EmptyString => false
  end.

Definition endswith (suffix s : string) : bool :=
  let n := String.length s in
  let k := String.length suffix in
  (k <=? n) && String.eqb (String.substring (n - k) k s) suffix.

(** [str.strip()]: the characters Python's [str] counts as white space
    in the ASCII range. *)
Definition is_space (c : ascii) : bool :=
  let n := nat_of_ascii c in
  ((9 <=? n) && (n <=? 13)) || ((28 <=? n) && (n <=? 32)).

(** [bytes.strip()] strips the six ASCII white-space bytes only. *)
Definition is_space_bytes (c : ascii) : bool :=
  let n := nat_of_ascii c in
  ((9 <=? n) && (n <=? 13)) || (n =? 32).

Fixpoint lstrip_with (sp : ascii -> bool) (s : string) : string :=
  match s with
  | EmptyString => ""
  | String c s' => if sp c then lstrip_with sp s' else s
  end.

Fixpoint rstrip_with (sp : ascii -> bool) (s : string) : string :=
  match s with
  | EmptyString => ""
  | String c s' =>
      match rstrip_with sp s' with
      | EmptyString => if sp c then "" else String c ""
      | r => String c r
      end
  end.

Definition strip (s : string) : string := rstrip_with is_space (lstrip_with is_space s).

Definition strip_bytes (s : string) : string :=
  rstrip_with is_space_bytes (lstrip_with is_space_bytes s).

Definition lower_char (c : ascii) : ascii :=
  let n := nat_of_ascii c in
  if (65 <=? n) && (n <=? 90) then ascii_of_nat (n + 32) else c.

Fixpoint lower (s : string) : string :=
  match s with
  | EmptyString => ""
  | String c s' => String (lower_char c) (lower s')
  end.

(** [sep.join(parts)]. *)
Fixpoint join (sep : string) (parts : list string) : string :=
  match parts with
  | [] => ""
  | [p] => p
  | p :: rest => p +:+ sep +:+ join sep rest
  end.

(** [s.split(",")]: always at least one field. *)
Fixpoint split_on (sep : ascii) (s : string) : list string :=
  match s with
  | EmptyString => [""]
  | String c s' =>
      if Ascii.eqb c sep then "" :: split_on sep s'
      else match split_on sep s' with
           | [] => [String c ""]
           | f :: fs => String c f :: fs
           end
  end.

Definition nl : string := String (ascii_of_nat 10) "".

Definition has_newline (s : string) : bool :=
  existsb (Ascii.eqb (ascii_of_nat 10)) (list_ascii_of_string s).

End Text.

Export Text.

(** ** Names of the entities in scope *)

(** [format_number]: [f"{num:0{digits}d}"], zero padding on the left up to
    at least [digits] characters. *)
Definition format_number (num digits : nat) : string :=
  let s := str num in
  zeros (digits - String.length s) +:+ s.

(** [range(start, end + 1)]. *)
Definition py_range (start_num end_num : nat) : list nat :=
  seq start_num (S end_num - start_num).

(** [digits = max(len(start_num_str), len(end_num_str))]. *)
Definition scope_digits (start_num_str end_num_str : string) : nat :=
  String.length start_num_str `max` String.length end_num_str.

Definition config_name_of (prefix : string) (digits i : nat) : string :=
  prefix +:+ format_number i digits.

(** [names_to_delete], the list comprehension of the delete-only path. *)
Definition names_to_delete (prefix : string) (digits start_num end_num : nat) : list string :=
  map (config_name_of prefix digits) (py_range start_num end_num).

(** [names_in_scope], the set comprehension of [main]. *)
Definition names_in_scope (prefix : string) (digits start_num end_num : nat) : gset string :=
  list_to_set (names_to_delete prefix digits start_num end_num).


(** ** Outcomes, requests and events *)

Inductive exn :=
| CalledProcessError (cmd : list string) (returncode : nat)
| OSError (msg : string)
| AttributeError
| OperationalError.

(** How a piece of the program ends: with a value, by [sys.exit(code)],
    or by an exception nobody has caught yet. *)
Inductive result (A : Type) :=
| Ok (a : A)
| Exit (code : nat)
| Raise (e : exn).
Arguments Ok {A} a.
Arguments Exit {A} code.
Arguments Raise {A} e.

(** Values [json.loads] can return. *)
#[warnings="-register-all"]
Inductive pyval :=
| PyNone
| PyBool (b : bool)
| PyNum (z : Z)
| PyStr (s : string)
| PyList (l : list pyval)
| PyDict (d : list (string * pyval)).

(** A JSON field of the request body. *)
Inductive jfield :=
| JStr (s : string)
| JInt (z : Z).

Record request := {
  rq_method : string;
  rq_url : string;
  rq_headers : list (string * string);
  rq_data : option (list (string * jfield));
  rq_timeout : nat
}.

(** What [urlopen] does: raise [URLError], raise [HTTPError], or hand
    back a response with a status and a body. *)
Inductive http_outcome :=
| URLError
| HTTPError (code : nat)
| Response (status : nat) (body : string).

Record file := { f_content : string; f_mode : nat }.

Inductive event :=
| EvWhich (binary : string)
| EvCmd (cmd : list string) (input : option string)
| EvHttp (rq : request)
| EvInput (prompt : string) (secret : bool)
| EvPrint (text : string)
| EvSleep (ms : N)
| EvMkdir (dir : string)
| EvWrite (path : string) (text : string)
| EvChmod (path : string) (mode : nat)
| EvUnlink (path : string)
| EvSqlDelete (table : string)
| EvSqlCommit.

(** ** Pure parts of the program *)

(** A peer section of the ini file, as [load_config] keeps it. *)
Record PeerTemplate := {
  t_name : string;
  t_public_key : string;
  t_allowed_ips : string;
  t_endpoint : string;
  t_keepalive : string
}.

(** An entry of [peers_for_conf]. *)
Record Peer := {
  p_name : string;
  p_public_key : string;
  p_private_key : string;
  p_allowed_ips : string;
  p_endpoint : string;
  p_keepalive : string
}.

(** Truth value of a Python string. *)
Definition truthy (s : string) : bool :=
  match s with
  | EmptyString => false
  | _ => true
  end.

Definition peer_lines (peer : Peer) : list string :=
  ["[Peer]";
   "PublicKey = " +:+ p_public_key peer;
   "AllowedIPs = " +:+ p_allowed_ips peer]
  ++ (if truthy (p_endpoint peer) then ["Endpoint = " +:+ p_endpoint peer] else [])
  ++ (if truthy (p_keepalive peer)
      then ["PersistentKeepalive = " +:+ p_keepalive peer] else [])
  ++ [""].

Definition config_lines (address listen_port interface_privkey : string)
    (extra_peers : list Peer) : list string :=
  ["[Interface]";
   "Address = " +:+ address;
   "SaveConfig = true";
   "PreUp =";
   "PostUp =";
   "PreDown =";
   "PostDown =";
   "ListenPort = " +:+ listen_port;
   "PrivateKey = " +:+ interface_privkey;
   ""]
  ++ concat (map peer_lines extra_peers).

Definition create_config_text (address listen_port interface_privkey : string)
    (extra_peers : list Peer) : string :=
  join nl (config_lines address listen_port interface_privkey extra_peers).

(** SQLite's [LIKE]: [%] stands for any run of characters, [_] for any
    one character, and ASCII letters match without regard to case. *)
Fixpoint sql_like (pattern : string) : string -> bool :=
  match pattern with
  | EmptyString => fun s => match s with EmptyString => true | _ => false end
  | String c p' =>
      if Ascii.eqb c "%" then
        fix any (s : string) : bool :=
          sql_like p' s || match s with
                           | EmptyString => false
                           | String _ s' => any s'
                           end
      else if Ascii.eqb c "_" then
        fun s => match s with
                 | EmptyString => false
                 | String _ s' => sql_like p' s'
                 end
      else
        fun s => match s with
                 | EmptyString => false
                 | String d s' => Ascii.eqb (lower_char c) (lower_char d) && sql_like p' s'
                 end
  end.

(** [DELETE FROM "table"] for every table the predicate selects, in the
    order in which the catalogue lists them. *)
Definition clear_tables (sel : string -> bool) (tables : list (string * list string))
    : list (string * list string) :=
  map (fun t => if sel t.1 then (t.1, []) else t) tables.

Definition select_tables (sel : string -> bool) (tables : list (string * list string))
    : list string :=
  filter (fun n => sel n = true) (map fst tables).

(** [dict.get(key)] on a decoded JSON object. *)
Fixpoint dict_get (key : string) (d : list (string * pyval)) : option pyval :=
  match d with
  | [] => None
  | (k, v) :: d' => if String.eqb k key then Some v else dict_get key d'
  end.

(** The body of the [updatePeerSettings] request, before [json.dumps]. *)
Definition peer_payload (peer_pubkey peer_privkey peer_name peer_dns peer_allowed_ips
    endpoint_allowed_ips : string) (peer_mtu peer_keepalive : Z) (server_endpoint : string)
    : list (string * jfield) :=
  [("id", JStr peer_pubkey);
   ("name", JStr peer_name);
   ("private_key", JStr peer_privkey);
   ("DNS", JStr peer_dns);
   ("allowed_ip", JStr peer_allowed_ips);
   ("endpoint_allowed_ip", JStr endpoint_allowed_ips);
   ("preshared_key", JStr "");
   ("mtu", JInt peer_mtu);
   ("keepalive", JInt peer_keepalive);
   ("remote_endpoint", JStr server_endpoint)].

(** The part of [load_config] that reads the [peer.<name>] sections; a
    section is its name and its options.  [None] stands for the fatal
    start-up error of a section without [allowed_ips]. *)
Definition section_get (sec : gmap string string) (key : string) : string :=
  strip (default "" (sec !! key)).

Definition after_first_dot (s : string) : string :=
  match split_on "." s with
  | _ :: f :: fs => join "." (f :: fs)
  | _ => s
  end.

Fixpoint load_extra_peers (sections : list (string * gmap string string))
    : option (list PeerTemplate) :=
  match sections with
  | [] => Some []
  | (sec_name, sec) :: rest =>
      if startswith "peer." (lower sec_name) then
        let allowed_ips := section_get sec "allowed_ips" in
        if truthy allowed_ips then
          tl ← load_extra_peers rest;
          Some ({| t_name := after_first_dot sec_name;
                   t_public_key := section_get sec "public_key";
                   t_allowed_ips := allowed_ips;
                   t_endpoint := section_get sec "endpoint";
                   t_keepalive := section_get sec "keepalive" |} :: tl)
        else None
      else load_extra_peers rest
  end.

(** The namespace [parse_args] returns, together with the peer sections
    [load_config] found. *)
Record Args := {
  a_prefix : option string;
  a_start : option Z;
  a_end : option Z;
  a_api_key : option string;
  target_dir : string;
  address : string;
  listen_port : string;
  peer_allowed_ips : string;
  peer_name : string;
  server_endpoint : string;
  delete_existing : bool;
  dry_run : bool;
  dashboard_url : string;
  dashboard_db : string;
  dashboard_service : string;
  peer_dns : string;
  peer_mtu : Z;
  peer_keepalive : Z;
  endpoint_allowed_ips : string;
  delete_only : bool;
  extra_peers : list PeerTemplate
}.

(** The counters of [main] and its [summary] list. *)
Record Counters := {
  total : nat;
  created : nat;
  skipped : nat;
  errors : nat;
  summary : list (string * string * list Peer)
}.

Definition counters0 : Counters :=
  {| total := 0; created := 0; skipped := 0; errors := 0; summary := [] |}.

Definition count_total (c : Counters) : Counters :=
  {| total := S (total c); created := created c; skipped := skipped c;
     errors := errors c; summary := summary c |}.

Definition count_created (c : Counters) : Counters :=
  {| total := total c; created := S (created c); skipped := skipped c;
     errors := errors c; summary := summary c |}.

Definition count_skipped (c : Counters) : Counters :=
  {| total := total c; created := created c; skipped := S (skipped c);
     errors := errors c; summary := summary c |}.

Definition count_error (c : Counters) : Counters :=
  {| total := total c; created := created c; skipped := skipped c;
     errors := S (errors c); summary := summary c |}.

Definition summary_append (e : string * string * list Peer) (c : Counters) : Counters :=
  {| total := total c; created := created c; skipped := skipped c;
     errors := errors c; summary := summary c ++ [e] |}.

(** [str(exc)] of a [CalledProcessError]. *)
Definition repr_list (l : list string) : string :=
  "[" +:+ join ", " (map (fun x => "'" +:+ x +:+ "'") l) +:+ "]".

Definition called_process_text (cmd : list string) (rc : nat) : string :=
  "Command '" +:+ repr_list cmd +:+ "' returned non-zero exit status " +:+ str rc +:+ ".".

Definition peer_of_template (peer : PeerTemplate) (priv pub : string) : Peer :=
  {| p_name := t_name peer;
     p_public_key := pub;
     p_private_key := priv;
     p_allowed_ips := t_allowed_ips peer;
     p_endpoint := t_endpoint peer;
     p_keepalive := t_keepalive peer |}.

(** ** Environment and state *)

(** The answers of the environment.  Every consultation is numbered by
    the [tick] at which it happens, so that the same question may get a
    different answer later in the run. *)
Record Env := {
  which : string -> bool;
  proc : nat -> list string -> option string -> nat * string;
  proc_ms : nat -> N;
  http : nat -> request -> http_outcome;
  json_loads : string -> option pyval;
  stdin_line : nat -> string;
  os_error : nat -> option string;
  access_w : nat -> bool;
  umask_mode : nat
}.

(** The state the program can observe and change: the files of the
    target directory (by file name), the tables of the dashboard store
    ([None] when the store file does not exist) with their rows, the
    clock in milliseconds, the number of consultations of the
    environment so far, and the log of everything done. *)
Record World := {
  fs : gmap string file;
  dir_exists : bool;
  db : option (list (string * list string));
  now : N;
  tick : nat;
  trace : list event
}.

Definition M (A : Type) : Type := World -> result A * World.

Definition ret {A} (a : A) : M A := fun w => (Ok a, w).

Definition bind {A B} (m : M A) (f : A -> M B) : M B :=
  fun w =>
    match m w with
    | (Ok a, w') => f a w'
    | (Exit c, w') => (Exit c, w')
    | (Raise e, w') => (Raise e, w')
    end.

Declare Scope prog_scope.
Delimit Scope prog_scope with prog.
Bind Scope prog_scope with M.

Notation "x ← y ; z" := (bind y (fun x => z))
  (at level 20, y at level 100, z at level 200, only parsing) : prog_scope.
Notation "' x ← y ; z" := (bind y (fun x => z))
  (at level 20, x pattern, y at level 100, z at level 200, only parsing) : prog_scope.
Notation "x ;; z" := (bind x (fun _ => z))
  (at level 100, z at level 200, only parsing, right associativity) : prog_scope.

Local Open Scope prog_scope.

Definition sys_exit {A} (code : nat) : M A := fun w => (Exit code, w).

Definition raise {A} (e : exn) : M A := fun w => (Raise e, w).

Definition when (b : bool) (m : M unit) : M unit := if b then m else ret tt.

(** [try: m except subprocess.CalledProcessError as exc: h exc]. *)
Definition try_called {A} (m : M A) (h : list string -> nat -> M A) : M A :=
  fun w =>
    match m w with
    | (Raise (CalledProcessError cmd rc), w') => h cmd rc w'
    | r => r
    end.

(** [try: m except OSError as exc: h exc]. *)
Definition try_oserror {A} (m : M A) (h : string -> M A) : M A :=
  fun w =>
    match m w with
    | (Raise (OSError msg), w') => h msg w'
    | r => r
    end.

Definition log (e : event) (w : World) : World :=
  {| fs := fs w; dir_exists := dir_exists w; db := db w; now := now w;
     tick := tick w; trace := trace w ++ [e] |}.

Definition step (ms : N) (w : World) : World :=
  {| fs := fs w; dir_exists := dir_exists w; db := db w; now := (now w + ms)%N;
     tick := S (tick w); trace := trace w |}.

Definition set_fs (m : gmap string file) (w : World) : World :=
  {| fs := m; dir_exists := dir_exists w; db := db w; now := now w;
     tick := tick w; trace := trace w |}.

Definition set_dir (b : bool) (w : World) : World :=
  {| fs := fs w; dir_exists := b; db := db w; now := now w;
     tick := tick w; trace := trace w |}.

Definition set_db (d : option (list (string * list string))) (w : World) : World :=
  {| fs := fs w; dir_exists := dir_exists w; db := d; now := now w;
     tick := tick w; trace := trace w |}.

(** Colour codes. *)
Definition esc : string := String (ascii_of_nat 27) "".
Definition RED : string := esc +:+ "[0;31m".
Definition GREEN : string := esc +:+ "[0;32m".
Definition YELLOW : string := esc +:+ "[1;33m".
Definition CYAN : string := esc +:+ "[0;36m".
Definition NC : string := esc +:+ "[0m".

Section Program.

Context (env : Env).

(** *** Primitives *)

(** [print(text)]; [print_end] is [print(text, end=e, flush=True)]. *)
Definition print_end (text e : string) : M unit :=
  fun w => (Ok tt, log (EvPrint (text +:+ e)) w).

Definition print (text : string) : M unit := print_end text nl.

Definition input (prompt : string) : M string :=
  fun w => (Ok (stdin_line env (tick w)), step 0 (log (EvInput prompt false) w)).

Definition getpass (prompt : string) : M string :=
  fun w => (Ok (stdin_line env (tick w)), step 0 (log (EvInput prompt true) w)).

Definition time_time : M N := fun w => (Ok (now w), w).

Definition sleep (ms : N) : M unit :=
  fun w => (Ok tt, step ms (log (EvSleep ms) w)).

Definition shutil_which (binary : string) : M bool :=
  fun w => (Ok (which env binary), log (EvWhich binary) w).

(** [run_cmd]: the completed process as (return code, standard output);
    with [check] a non-zero return code raises [CalledProcessError]. *)
Definition run_cmd (cmd : list string) (capture check : bool)
    (input_data : option string) : M (nat * string) :=
  fun w =>
    let r := proc env (tick w) cmd input_data in
    let w' := step (proc_ms env (tick w)) (log (EvCmd cmd input_data) w) in
    if check && negb (r.1 =? 0) then (Raise (CalledProcessError cmd r.1), w')
    else (Ok r, w').

Definition urlopen (rq : request) : M http_outcome :=
  fun w => (Ok (http env (tick w) rq), step 0 (log (EvHttp rq) w)).

(** [Path.exists()] on a file of the target directory. *)
Definition path_exists (name : string) : M bool :=
  fun w => (Ok (bool_decide (is_Some (fs w !! name))), w).

(** [target_dir.glob("*.conf")]. *)
Definition glob_conf : M (list string) :=
  fun w => (Ok (filter (fun n => endswith ".conf" n = true) (elements (dom (fs w)))), w).

Definition os_call (e : event) (change : World -> World) : M unit :=
  fun w =>
    match os_error env (tick w) with
    | Some msg => (Raise (OSError msg), step 0 (log e w))
    | None => (Ok tt, step 0 (change (log e w)))
    end.

Definition mkdir (dir : string) : M unit :=
  os_call (EvMkdir dir) (set_dir true).

Definition os_access_w (dir : string) : M bool :=
  fun w => (Ok (dir_exists w && access_w env (tick w)), step 0 w).

(** [Path.unlink()]: the file must be there. *)
Definition unlink (dir name : string) : M unit :=
  fun w =>
    match fs w !! name with
    | None => (Raise (OSError "No such file or directory"), w)
    | Some _ => os_call (EvUnlink (dir +:+ "/" +:+ name)) (fun w => set_fs (delete name (fs w)) w) w
    end.

(** [Path.write_text(text)]: creates the file with the mode the umask
    leaves, or replaces the content of an existing one. *)
Definition write_text (dir name text : string) : M unit :=
  os_call (EvWrite (dir +:+ "/" +:+ name) text)
    (fun w =>
       let mode := match fs w !! name with
                   | Some f => f_mode f
                   | None => umask_mode env
                   end in
       set_fs (<[name := {| f_content := text; f_mode := mode |}]> (fs w)) w).

Definition chmod (dir name : string) (mode : nat) : M unit :=
  fun w =>
    match fs w !! name with
    | None => (Raise (OSError "No such file or directory"), w)
    | Some f =>
        os_call (EvChmod (dir +:+ "/" +:+ name) mode)
          (fun w => set_fs (<[name := {| f_content := f_content f; f_mode := mode |}]> (fs w)) w) w
    end.

(** [Path(db_path).exists()]. *)
Definition db_path_exists : M bool := fun w => (Ok (bool_decide (is_Some (db w))), w).

(** A [for] loop threading the variables it updates. *)
Fixpoint for_each {A B} (f : B -> A -> M B) (b : B) (l : list A) : M B :=
  match l with
  | [] => ret b
  | a :: l' => b' ← f b a; for_each f b' l'
  end.

(** One transaction of the store: clear every table the predicate
    selects, then commit. *)
Definition sql_purge (sel : string -> bool) : M (list string) :=
  fun w =>
    match db w with
    | None => (Ok [], w)
    | Some tables =>
        let cleared := select_tables sel tables in
        (Ok cleared,
         set_db (Some (clear_tables sel tables))
           (log EvSqlCommit (foldl (fun w t => log (EvSqlDelete t) w) w cleared)))
    end.

(** *** The functions of the program *)

Fixpoint find_missing (binaries : list string) : M (list string) :=
  match binaries with
  | [] => ret []
  | binary :: rest =>
      found ← shutil_which binary;
      missing ← find_missing rest;
      ret (if found then missing else binary :: missing)
  end.

Definition check_dependencies : M unit :=
  missing ← find_missing ["wg"; "wg-quick"; "ip"; "systemctl"];
  match missing with
  | [] => ret tt
  | _ =>
      print (RED +:+ "Fehler: Fehlende Abhängigkeiten: " +:+ join ", " missing +:+ NC);;
      sys_exit 1
  end.

Definition prompt_if_empty (value : option string) (prompt_text : string) (secret : bool)
    : M string :=
  match value with
  | Some v => if truthy v then ret v
              else if secret then getpass prompt_text else input prompt_text
  | None => if secret then getpass prompt_text else input prompt_text
  end.

Definition api_handshake (url api_key : string) (timeout : nat) : M bool :=
  out ← urlopen {| rq_method := "GET"; rq_url := url +:+ "/api/handshake";
                   rq_headers := [("wg-dashboard-apikey", api_key)];
                   rq_data := None; rq_timeout := timeout |};
  match out with
  | Response status _ => ret (status =? 200)
  | URLError | HTTPError _ => ret false
  end.

Definition update_wgdashboard_peer (url api_key config_name peer_pubkey peer_privkey
    peer_name peer_dns peer_allowed_ips endpoint_allowed_ips : string)
    (peer_mtu peer_keepalive : Z) (server_endpoint : string) : M bool :=
  let payload := peer_payload peer_pubkey peer_privkey peer_name peer_dns peer_allowed_ips
                   endpoint_allowed_ips peer_mtu peer_keepalive server_endpoint in
  out ← urlopen {| rq_method := "POST";
                   rq_url := url +:+ "/api/updatePeerSettings/" +:+ config_name;
                   rq_headers := [("wg-dashboard-apikey", api_key);
                                  ("Content-Type", "application/json")];
                   rq_data := Some payload; rq_timeout := 10 |};
  match out with
  | Response status text =>
      if negb (status =? 200) then ret false
      else match json_loads env (if truthy text then text else "{}") with
           | None => ret false
           | Some (PyDict body) =>
               ret (match dict_get "status" body with
                     | Some (PyBool true) => true
                     | _ => false
                     end)
           | Some _ => raise AttributeError
           end
  | URLError | HTTPError _ => ret false
  end.

Definition interface_running (name : string) : M bool :=
  r ← run_cmd ["ip"; "link"; "show"; name] true false None;
  ret (r.1 =? 0).

Definition start_interface (name : string) : M bool :=
  running ← interface_running name;
  if running then ret true
  else r ← run_cmd ["wg-quick"; "up"; name] true false None; ret (r.1 =? 0).

Definition stop_interface (name : string) : M unit :=
  running ← interface_running name;
  if negb running then ret tt
  else
    r ← run_cmd ["wg-quick"; "down"; name] true false None;
    if negb (r.1 =? 0)
    then run_cmd ["ip"; "link"; "delete"; name] true false None;; ret tt
    else ret tt.

Definition delete_interface_and_routes (name peer_allowed_ips : string) : M unit :=
  stop_interface name;;
  run_cmd ["ip"; "link"; "delete"; name] true false None;;
  for_each (fun _ raw_ip =>
              let ip_cidr := strip raw_ip in
              if negb (truthy ip_cidr) then ret tt
              else run_cmd ["ip"; "-4"; "route"; "delete"; ip_cidr; "dev"; name]
                     true false None;; ret tt)
    tt (split_on "," peer_allowed_ips).

Definition generate_keypair : M (string * string) :=
  r ← run_cmd ["wg"; "genkey"] true true None;
  let priv := strip r.2 in
  r' ← run_cmd ["wg"; "pubkey"] true true (Some (priv +:+ nl));
  let pub := strip_bytes r'.2 in
  ret (priv, pub).

Definition purge_wgdashboard_tables (db_path pattern : string) : M (list string) :=
  present ← db_path_exists;
  if negb present then
    print (YELLOW +:+ "Warnung: DB " +:+ db_path
           +:+ " nicht gefunden, überspringe Bereinigung." +:+ NC);;
    ret []
  else sql_purge (sql_like pattern).

Definition purge_wgdashboard_tables_for (db_path : string) (names : list string)
    : M (list string) :=
  present ← db_path_exists;
  if negb present then
    print (YELLOW +:+ "Warnung: DB " +:+ db_path
           +:+ " nicht gefunden, überspringe DB-Cleanup." +:+ NC);;
    ret []
  else
    let patterns := map (fun n => n +:+ "%") names in
    match patterns with
    | [] => raise OperationalError
    | _ => sql_purge (fun table => existsb (fun pat => sql_like pat table) patterns)
    end.

Definition restart_service (name action : string) : M bool :=
  r ← run_cmd ["systemctl"; action; name] false false None;
  ret (r.1 =? 0).

(** The polling loop of [ensure_service_active]; [fuel] bounds the number
    of rounds, and [S (timeout / interval)] rounds always reach the
    deadline (see [poll_active_fuel]). *)
Fixpoint poll_active (fuel : nat) (name : string) (end_time interval : N) : M bool :=
  match fuel with
  | 0 => ret false
  | S fuel' =>
      t ← time_time;
      if (t <? end_time)%N then
        r ← run_cmd ["systemctl"; "is-active"; "--quiet"; name] false false None;
        if r.1 =? 0 then ret true
        else sleep interval;; poll_active fuel' name end_time interval
      else ret false
  end.

Definition ensure_service_active (name : string) (timeout interval : N) : M bool :=
  t ← time_time;
  poll_active (S (N.to_nat (timeout / interval))) name (t + timeout)%N interval.

Definition run_pre_creation_cleanup (db_path service : string) : M unit :=
  print ("  " +:+ CYAN +:+ "Bereinige WGDashboard-DB..." +:+ NC);;
  restarted ← restart_service service "stop";
  cleared ← purge_wgdashboard_tables db_path "APW%";
  print (match cleared with
         | [] => "    Keine passenden Tabellen gefunden."
         | _ => "    Tabellen geleert!"
         end);;
  if restarted then
    restart_service service "start";;
    active ← ensure_service_active service 10000%N 1000%N;
    if negb active then
      print (RED +:+ "Fehler: " +:+ service +:+ " läuft nach Start nicht." +:+ NC);;
      sys_exit 1
    else ret tt
  else ret tt.

(** [Path.stem] of a file name that matches [*.conf]. *)
Definition stem (name : string) : string :=
  if String.eqb name ".conf" then name
  else String.substring 0 (String.length name - 5) name.

Definition delete_existing_configs (target_dir : string)
    (allowed_names : option (gset string)) : M unit :=
  print (YELLOW +:+ "Lösche bestehende Konfigurationen..." +:+ NC);;
  conf_files ← glob_conf;
  count ← for_each
    (fun count name =>
       let conf_file := target_dir +:+ "/" +:+ name in
       if startswith "_" name then
         print ("  " +:+ CYAN +:+ "Überspringe: " +:+ conf_file
                +:+ " (beginnt mit _) " +:+ NC);;
         ret count
       else
         let conf_name := stem name in
         let outside := match allowed_names with
                        | Some allowed => bool_decide (conf_name ∉ allowed)
                        | None => false
                        end in
         if outside then ret count
         else
           try_oserror
             (unlink target_dir name;;
              print ("  " +:+ GREEN +:+ "Gelöscht:" +:+ NC +:+ " " +:+ conf_file);;
              ret (S count))
             (fun exc =>
                print ("  " +:+ RED +:+ "Fehler beim Löschen " +:+ conf_file +:+ ": "
                       +:+ exc +:+ NC);;
                ret count))
    0 conf_files;
  print ("  " +:+ str count +:+ " Konfiguration(en) verarbeitet." +:+ nl).

(** *** [main] *)

Section Main.

Context (args : Args).

(** The key pairs of the peers of one entity: one fresh pair for every
    peer section. *)
Fixpoint generate_peers (templates : list PeerTemplate) : M (list Peer) :=
  match templates with
  | [] => ret []
  | peer :: rest =>
      '(priv, pub) ← generate_keypair;
      peers ← generate_peers rest;
      ret (peer_of_template peer priv pub :: peers)
  end.

(** The body of the creation loop, for the number [i]. *)
Definition create_entity (prefix : string) (digits : nat) (c : Counters) (i : nat)
    : M Counters :=
  let c := count_total c in
  let num := format_number i digits in
  let config_name := prefix +:+ num in
  let filename := config_name +:+ ".conf" in
  let filepath := target_dir args +:+ "/" +:+ filename in
  print (CYAN +:+ "[" +:+ config_name +:+ "]" +:+ NC);;
  present ← path_exists filename;
  if present && negb (delete_existing args) then
    print ("  " +:+ YELLOW +:+ "Existiert bereits, überspringe" +:+ NC +:+ nl);;
    ret (count_skipped c)
  else
    keys ← try_called (kp ← generate_keypair; ret (Some kp))
              (fun cmd rc =>
                 print ("  " +:+ RED +:+ "Fehler bei Schlüsselerzeugung: "
                        +:+ called_process_text cmd rc +:+ NC);;
                 ret None);
    match keys with
    | None => ret (count_error c)
    | Some (interface_privkey, interface_pubkey) =>
        print ("  Interface-PrivKey: " +:+ String.substring 0 15 interface_privkey +:+ "...");;
        print ("  Interface-PubKey:  " +:+ String.substring 0 15 interface_pubkey +:+ "...");;
        peers ← try_called (ps ← generate_peers (extra_peers args); ret (Some ps))
                  (fun cmd rc =>
                     print ("  " +:+ RED +:+ "Fehler bei Peer-Schlüsselerzeugung: "
                            +:+ called_process_text cmd rc +:+ NC);;
                     ret None);
        match peers with
        | None => ret (count_error c)
        | Some peers_for_conf =>
            let c := summary_append (config_name, interface_pubkey, peers_for_conf) c in
            if dry_run args then
              print ("  " +:+ YELLOW +:+ "[DRY-RUN] Würde erstellen: " +:+ filepath
                     +:+ NC +:+ nl);;
              ret (count_created c)
            else
              let config_text := create_config_text (address args) (listen_port args)
                                   interface_privkey peers_for_conf in
              write_text (target_dir args) filename config_text;;
              chmod (target_dir args) filename 384;;
              print ("  " +:+ GREEN +:+ "Konfig erstellt: " +:+ filepath +:+ NC +:+ nl);;
              ret (count_created c)
        end
    end.

Definition create_loop (prefix : string) (digits start_num end_num : nat) (c : Counters)
    : M Counters :=
  for_each (create_entity prefix digits) c (py_range start_num end_num).

(** Pushing the peers of one entity; the pair counts the successes and
    the failures. *)
Definition push_peer (api_key config_name : string) (counts : nat * nat) (peer : Peer)
    : M (nat * nat) :=
  let peer_name := if truthy (p_name peer) then p_name peer else peer_name args in
  ok ← update_wgdashboard_peer (dashboard_url args) api_key config_name
         (p_public_key peer) (p_private_key peer) peer_name (peer_dns args)
         (p_allowed_ips peer) (endpoint_allowed_ips args) (peer_mtu args)
         (peer_keepalive args) (server_endpoint args);
  if ok then
    print_end (GREEN +:+ "[" +:+ peer_name +:+ "] OK" +:+ NC +:+ " ") "";;
    ret (S counts.1, counts.2)
  else
    print_end (YELLOW +:+ "[" +:+ peer_name +:+ "] FAIL" +:+ NC +:+ " ") "";;
    ret (counts.1, S counts.2).

Definition register_entity (api_key : string) (counts : nat * nat)
    (entry : string * string * list Peer) : M (nat * nat) :=
  let '(config_name, _, peers_for_conf) := entry in
  match peers_for_conf with
  | [] => ret counts
  | _ =>
      print_end ("  " +:+ config_name +:+ ": ") "";;
      sleep 3000;;
      started ← start_interface config_name;
      if negb started then
        print (RED +:+ "Interface-Start fehlgeschlagen" +:+ NC);;
        ret (counts.1, counts.2 + length peers_for_conf)
      else
        sleep 1000;;
        counts' ← for_each (push_peer api_key config_name) counts peers_for_conf;
        stop_interface config_name;;
        print "";;
        ret counts'
  end.

(** The registration phase after the creation loop. *)
Definition register_phase (api_key : string) (c : Counters) : M unit :=
  if negb (dry_run args) && (0 <? created c) then
    print ("----------------------------------------" +:+ nl);;
    print (CYAN +:+ "Aktualisiere WGDashboard Peers..." +:+ NC +:+ nl);;
    print (YELLOW +:+ "HINWEIS: WGDashboard muss zuerst neu gestartet werden," +:+ NC);;
    print (YELLOW +:+ "damit es die neuen Konfigs erkennt!" +:+ NC +:+ nl);;
    answer ← input "WGDashboard jetzt neustarten? (j/N): ";
    let restart_choice := strip answer in
    (if startswith "j" (lower restart_choice) then
       print "Starte WGDashboard neu...";;
       restart_service (dashboard_service args) "restart";;
       print "Prüfe Dienst-Status...";;
       active ← ensure_service_active (dashboard_service args) 15000%N 1000%N;
       if negb active then
         print (RED +:+ "Fehler: " +:+ dashboard_service args
                +:+ " läuft nach Restart nicht." +:+ NC);;
         sys_exit 1
       else
         print (GREEN +:+ "Dienst aktiv." +:+ NC);;
         sleep 2000
     else ret tt);;
    print (nl +:+ "Aktualisiere Peer-Einstellungen (alle Peers je Config)..." +:+ nl);;
    counts ← for_each (register_entity api_key) (0, 0) (summary c);
    print (nl +:+ "API-Updates: " +:+ str counts.1 +:+ " erfolgreich, "
           +:+ str counts.2 +:+ " fehlgeschlagen")
  else ret tt.

Definition print_peer_keys (peer : Peer) : M unit :=
  print ("#   Peer (" +:+ p_name peer +:+ "):");;
  print ("#     PublicKey:  " +:+ p_public_key peer);;
  print ("#     PrivateKey: " +:+ p_private_key peer);;
  print ("#     AllowedIPs: " +:+ p_allowed_ips peer);;
  when (truthy (p_endpoint peer)) (print ("#     Endpoint:   " +:+ p_endpoint peer));;
  when (truthy (p_keepalive peer)) (print ("#     Keepalive:  " +:+ p_keepalive peer)).

Definition print_summary (c : Counters) : M unit :=
  print (nl +:+ "========================================");;
  print " Zusammenfassung";;
  print ("========================================" +:+ nl);;
  print ("  Gesamt:        " +:+ str (total c));;
  print ("  Erstellt:      " +:+ GREEN +:+ str (created c) +:+ NC);;
  print ("  Übersprungen:  " +:+ YELLOW +:+ str (skipped c) +:+ NC);;
  print ("  Fehler:        " +:+ RED +:+ str (errors c) +:+ NC +:+ nl);;
  match summary c with
  | [] => ret tt
  | _ =>
      print "========================================";;
      print " Generierte Schlüssel";;
      print ("========================================" +:+ nl);;
      for_each (fun _ '(config_name, interface_pub, peers_for_conf) =>
                  print ("# " +:+ config_name);;
                  print ("#   Interface-PubKey: " +:+ interface_pub);;
                  for_each (fun _ peer => print_peer_keys peer) tt peers_for_conf;;
                  print "")
        tt (summary c)
  end;;
  if dry_run args
  then print (YELLOW +:+ "DRY-RUN abgeschlossen. Keine Dateien wurden erstellt." +:+ NC)
  else print (GREEN +:+ "Fertig!" +:+ NC).

(** The delete-only mode: the range only, then [main] returns. *)
Definition delete_only_path (prefix : string) (digits start_num end_num : nat)
    : M unit :=
  when (dry_run args)
    (print (YELLOW +:+ "[DRY-RUN] Lösche Bereich " +:+ str start_num +:+ "-" +:+ str end_num
            +:+ " mit Präfix " +:+ prefix +:+ NC));;
  let names := names_to_delete prefix digits start_num end_num in
  when (negb (dry_run args))
    (cleared ← purge_wgdashboard_tables_for (dashboard_db args) names;
     match cleared with
     | [] => ret tt
     | _ => print (CYAN +:+ "DB-Tabellen geleert: " +:+ join ", " cleared +:+ NC)
     end);;
  for_each
    (fun _ name =>
       let filename := name +:+ ".conf" in
       let filepath := target_dir args +:+ "/" +:+ filename in
       if dry_run args then
         print (YELLOW +:+ "[DRY-RUN]" +:+ NC +:+ " Würde löschen: " +:+ filepath)
       else
         delete_interface_and_routes name (peer_allowed_ips args);;
         present ← path_exists filename;
         when present
           (unlink (target_dir args) filename;;
            print (GREEN +:+ "Gelöscht:" +:+ NC +:+ " " +:+ filepath)))
    tt names;;
  print (GREEN +:+ "Löschlauf abgeschlossen." +:+ NC).

(** The creation mode: clean-up of the store, the loop, the registration
    phase and the summary.  The value is the counters the summary
    prints. *)
Definition creation_path (prefix api_key : string) (digits start_num end_num : nat)
    : M Counters :=
  when (negb (dry_run args))
    (run_pre_creation_cleanup (dashboard_db args) (dashboard_service args));;
  c ← create_loop prefix digits start_num end_num counters0;
  register_phase api_key c;;
  print_summary c;;
  ret c.

Definition print_settings (prefix : string) (start_num end_num : nat) : M unit :=
  print (nl +:+ "========================================");;
  print " WireGuard Konfigurations-Generator";;
  print ("========================================" +:+ nl);;
  print "Einstellungen:";;
  print ("  Präfix:        " +:+ prefix);;
  print ("  Bereich:       " +:+ str start_num +:+ " - " +:+ str end_num);;
  print ("  Ziel:          " +:+ target_dir args);;
  print ("  Address:       " +:+ address args);;
  print ("  ListenPort:    " +:+ listen_port args);;
  print ("  Peer-Name:     " +:+ peer_name args);;
  print ("  AllowedIPs:    " +:+ peer_allowed_ips args);;
  print ("  Endpoint:      " +:+ server_endpoint args);;
  print ("  Dashboard:     " +:+ dashboard_url args);;
  when (delete_existing args)
    (print ("  " +:+ YELLOW +:+ "Lösche bestehende Konfigs!" +:+ NC));;
  when (dry_run args) (print ("  " +:+ YELLOW +:+ "Modus: DRY-RUN" +:+ NC));;
  print "".

(** What [main] does once the scope is known and the API has answered:
    the target directory, the sweep of [--delete-existing], then one of
    the two modes.  [None] is the return of the delete-only mode. *)
Definition run_batch (prefix start_num_str end_num_str api_key : string)
    : M (option Counters) :=
  let start_num := int start_num_str in
  let end_num := int end_num_str in
  let digits := scope_digits start_num_str end_num_str in
  let names := names_in_scope prefix digits start_num end_num in
  when (delete_existing args && negb (dry_run args))
    (delete_existing_configs (target_dir args) (Some names));;
  if delete_only args then
    delete_only_path prefix digits start_num end_num;;
    ret None
  else
    c ← creation_path prefix api_key digits start_num end_num;
    ret (Some c).

(** [main] after the interactive inputs. *)
Definition main_body (prefix start_num_str end_num_str api_key : string)
    : M (option Counters) :=
  when (negb (truthy prefix) || negb (isdigit start_num_str) || negb (isdigit end_num_str))
    (print (RED +:+ "Fehler: Präfix, Start- und Endnummer müssen angegeben und numerisch sein!"
            +:+ NC);;
     sys_exit 1);;
  let start_num := int start_num_str in
  let end_num := int end_num_str in
  when (end_num <? start_num)
    (print (RED +:+ "Fehler: Startnummer muss kleiner oder gleich Endnummer sein!" +:+ NC);;
     sys_exit 1);;
  when (negb (truthy api_key))
    (print (RED +:+ "Fehler: API-Key erforderlich!" +:+ NC);;
     sys_exit 1);;
  print_settings prefix start_num end_num;;
  print_end "Teste API-Verbindung..." " ";;
  reachable ← api_handshake (dashboard_url args) api_key 5;
  when (negb reachable)
    (print (RED +:+ "Fehlgeschlagen" +:+ NC);;
     sys_exit 1);;
  print (GREEN +:+ "OK" +:+ NC);;
  when (negb (dry_run args))
    (mkdir (target_dir args);;
     writable ← os_access_w (target_dir args);
     when (negb writable)
       (print (RED +:+ "Fehler: Keine Schreibrechte für " +:+ target_dir args +:+ NC);;
        sys_exit 1));;
  run_batch prefix start_num_str end_num_str api_key.

Definition main : M (option Counters) :=
  prefix ← prompt_if_empty (a_prefix args) "Präfix eingeben: " false;
  start_num_str ← prompt_if_empty (str_Z <$> a_start args)
                    "Startnummer eingeben (z.B. 1): " false;
  end_num_str ← prompt_if_empty (str_Z <$> a_end args)
                  "Endnummer eingeben (z.B. 10): " false;
  api_key ← prompt_if_empty (a_api_key args) "WGDashboard API-Key eingeben: " true;
  main_body prefix start_num_str end_num_str api_key.

(** The script: [check_dependencies()] and then [main()]. *)
Definition script : M (option Counters) :=
  check_dependencies;;
  main.

End Main.

End Program.

(** ** Vocabulary of the specification *)

(** Events that leave the state outside the program as it was: look-ups,
    prompts, output, waiting, key generation (a computation of [wg]
    that touches nothing), the two status queries and HTTP [GET]. *)
Definition read_only (e : event) : bool :=
  match e with
  | EvWhich _ | EvInput _ _ | EvPrint _ | EvSleep _ => true
  | EvCmd cmd _ =>
      match cmd with
      | ["wg"; "genkey"] | ["wg"; "pubkey"] => true
      | ["ip"; "link"; "show"; _] => true
      | ["systemctl"; "is-active"; "--quiet"; _] => true
      | _ => false
      end
  | EvHttp rq => String.eqb (rq_method rq) "GET"
  | EvMkdir _ | EvWrite _ _ | EvChmod _ _ | EvUnlink _ | EvSqlDelete _ | EvSqlCommit => false
  end.

(** [w'] comes after [w] with the events [evs] in between. *)
Definition trace_from (w w' : World) (evs : list event) : Prop :=
  trace w' = trace w ++ evs.

(** Nothing outside was changed between [w] and [w']. *)
Definition quiet (w w' : World) : Prop :=
  fs w' = fs w /\ db w' = db w /\ dir_exists w' = dir_exists w /\
  exists evs, trace_from w w' evs /\ Forall (fun e => read_only e = true) evs.

(** The line a dry run prints for an entity it would create, and the
    one for a record the delete-only mode would delete. *)
Definition would_create_line (args : Args) (config_name : string) : string :=
  ("  " +:+ YELLOW +:+ "[DRY-RUN] Würde erstellen: "
   +:+ (target_dir args +:+ "/" +:+ (config_name +:+ ".conf")) +:+ NC +:+ nl) +:+ nl.

Definition would_delete_line (args : Args) (config_name : string) : string :=
  (YELLOW +:+ "[DRY-RUN]" +:+ NC +:+ " Würde löschen: "
   +:+ (target_dir args +:+ "/" +:+ (config_name +:+ ".conf"))) +:+ nl.

(** The lines of the key listing at the end of a run, for one peer. *)
Definition public_key_line (peer : Peer) : string :=
  ("#     PublicKey:  " +:+ p_public_key peer) +:+ nl.

Definition private_key_line (peer : Peer) : string :=
  ("#     PrivateKey: " +:+ p_private_key peer) +:+ nl.

Definition key_line_of (peer : Peer) (e : event) : Prop :=
  e = EvPrint (public_key_line peer) \/ e = EvPrint (private_key_line peer).

(** The event [e] was logged between [w] and [w']. *)
Definition emits (w w' : World) (e : event) : Prop :=
  exists evs, trace_from w w' evs /\ e ∈ evs.

(** The request of the handshake. *)
Definition handshake_request (url api_key : string) : request :=
  {| rq_method := "GET"; rq_url := url +:+ "/api/handshake";
     rq_headers := [("wg-dashboard-apikey", api_key)];
     rq_data := None; rq_timeout := 5 |}.

(** A relation between the target directory before and after. *)
Definition on_fs (Rf : relation (gmap string file)) : relation World :=
  fun w w' => Rf (fs w) (fs w').

(** The log only grows. *)
Definition extends (w w' : World) : Prop := exists evs, trace_from w w' evs.

(** A relation between states that holds across every step that leaves
    the files alone: logging, the passing of time, the store, the
    creation of the target directory. *)
Class Stable (R : relation World) : Prop := {
  stable_preorder :: PreOrder R;
  stable_log e w : R w (log e w);
  stable_step ms w : R w (step ms w);
  stable_db d w : R w (set_db d w);
  stable_dir b w : R w (set_dir b w)
}.

(** The files whose names satisfy [keep] are still there afterwards. *)
Definition keeps (keep : string -> Prop) : relation (gmap string file) :=
  fun m m' => forall name, keep name -> is_Some (m !! name) -> is_Some (m' !! name).

(** [m] relates every state to its successor by [R], however it ends. *)
Definition preserves {A} (R : relation World) (m : M A) : Prop :=
  forall w r w', m w = (r, w') -> R w w'.

(** [m] never ends by [sys.exit]. *)
Definition no_exit {A} (m : M A) : Prop :=
  forall w c w', m w <> (Exit c, w').

(** A file name of the exclusion namespace. *)
Definition underscore (name : string) : Prop := startswith "_" name = true.

(** The file name of the record of number [i]. *)
Definition record_of (prefix : string) (digits i : nat) : string :=
  (prefix +:+ format_number i digits) +:+ ".conf".

(** All public keys, and all private keys, of the peers in a summary. *)
Definition summary_peers (l : list (string * string * list Peer)) : list Peer :=
  concat (map snd l).

(** What the key primitive answers at consultation [t]: the private key
    of [wg genkey], and the public key [wg pubkey] derives at the next
    consultation. *)
Definition genkey_out (env : Env) (t : nat) : string :=
  strip (proc env t ["wg"; "genkey"] None).2.

Definition pubkey_out (env : Env) (t : nat) (priv : string) : string :=
  strip_bytes (proc env t ["wg"; "pubkey"] (Some (priv +:+ nl))).2.

Definition keypair_at (env : Env) (t : nat) : string * string :=
  (genkey_out env t, pubkey_out env (S t) (genkey_out env t)).

(** The state after a successful [generate_keypair]. *)
Definition after_keygen (env : Env) (w : World) : World :=
  let w1 := step (proc_ms env (tick w)) (log (EvCmd ["wg"; "genkey"] None) w) in
  step (proc_ms env (tick w1))
    (log (EvCmd ["wg"; "pubkey"] (Some (genkey_out env (tick w) +:+ nl))) w1).

(** The peers of one entity when every key generation succeeds, the
    first of them at consultation [t]. *)
Fixpoint peers_from (env : Env) (templates : list PeerTemplate) (t : nat) : list Peer :=
  match templates with
  | [] => []
  | peer :: rest =>
      peer_of_template peer (keypair_at env t).1 (keypair_at env t).2
        :: peers_from env rest (S (S t))
  end.

Definition is_called_process_error (e : exn) : Prop :=
  match e with
  | CalledProcessError _ _ => True
  | _ => False
  end.

(** Does the key generation that starts at consultation [t] succeed, and
    do the [n] key generations in a row that start there? *)
Definition keygen_ok (env : Env) (t : nat) : bool :=
  ((proc env t ["wg"; "genkey"] None).1 =? 0)
  && ((proc env (S t) ["wg"; "pubkey"] (Some (genkey_out env t +:+ nl))).1 =? 0).

Fixpoint keys_ok (env : Env) (n t : nat) : bool :=
  match n with
  | 0 => true
  | S n' => keygen_ok env t && keys_ok env n' (S (S t))
  end.

(** The request [update_wgdashboard_peer] sends. *)
Definition update_request (url api_key config_name peer_pubkey peer_privkey peer_name
    peer_dns peer_allowed_ips endpoint_allowed_ips : string) (peer_mtu peer_keepalive : Z)
    (server_endpoint : string) : request :=
  {| rq_method := "POST";
     rq_url := url +:+ "/api/updatePeerSettings/" +:+ config_name;
     rq_headers := [("wg-dashboard-apikey", api_key); ("Content-Type", "application/json")];
     rq_data := Some (peer_payload peer_pubkey peer_privkey peer_name peer_dns
                        peer_allowed_ips endpoint_allowed_ips peer_mtu peer_keepalive
                        server_endpoint);
     rq_timeout := 10 |}.

(** The text [json.loads] is given: [resp.read().decode() or "{}"]. *)
Definition body_text (text : string) : string := if truthy text then text else "{}".

(** The run ended in [w'] right after a readiness poll of [service],
    started after [systemctl start] or [systemctl restart], gave up. *)
Definition service_never_active (env : Env) (service : string) (w' : World) : Prop :=
  exists timeout action wa wb text,
    action ∈ ["start"; "restart"] /\
    EvCmd ["systemctl"; action; service] None ∈ trace wa /\
    ensure_service_active env service timeout 1000%N wa = (Ok false, wb) /\
    w' = log (EvPrint text) wb.

(** The status query of the readiness poll. *)
Definition is_active_cmd (name : string) : list string :=
  ["systemctl"; "is-active"; "--quiet"; name].

(** The route deletion of [delete_interface_and_routes]. *)
Definition route_delete_event (name ip_cidr : string) : event :=
  EvCmd ["ip"; "-4"; "route"; "delete"; ip_cidr; "dev"; name] None.

(** The inputs [main] accepts: a prefix, two strings of digits in
    order, and an API key. *)
Definition valid_inputs (prefix start_num_str end_num_str api_key : string) : bool :=
  truthy prefix && isdigit start_num_str && isdigit end_num_str
  && (int start_num_str <=? int end_num_str) && truthy api_key.

(** A section of the configuration file that describes a peer. *)
Definition is_peer_section (sec : string * gmap string string) : bool :=
  startswith "peer." (lower sec.1).

(** What [load_config] makes of one peer section. *)
Definition template_of (sec : string * gmap string string) : PeerTemplate :=
  {| t_name := String.substring 5 (String.length sec.1 - 5) sec.1;
     t_public_key := section_get sec.2 "public_key";
     t_allowed_ips := section_get sec.2 "allowed_ips";
     t_endpoint := section_get sec.2 "endpoint";
     t_keepalive := section_get sec.2 "keepalive" |}.

(** A record written by the creation loop: mode [0o600] and a content
    produced by [create_config_text] from the settings of the run. *)
Definition rendered_record (args : Args) (f : file) : Prop :=
  f_mode f = 384 /\
  exists interface_privkey peers,
    length peers = length (extra_peers args) /\
    f_content f = create_config_text (address args) (listen_port args)
                    interface_privkey peers.

(** Every file of [m'] was already in [m], as it is, or satisfies [P]. *)
Definition adds_only (P : string -> file -> Prop) : relation (gmap string file) :=
  fun m m' => forall name f, m' !! name = Some f -> m !! name = Some f \/ P name f.

(** The records of the numbers [start_num] to [end_num], as the
    creation loop writes them. *)
Definition scope_record (args : Args) (prefix : string) (digits start_num end_num : nat)
    (name : string) (f : file) : Prop :=
  exists i, start_num <= i <= end_num /\ name = record_of prefix digits i /\
            rendered_record args f.

(** *** Key material of the peers *)

(** The key primitive never repeats itself: key pairs generated at
    different consultations differ in both halves. *)
Definition distinct_keys (env : Env) : Prop :=
  forall t1 t2, t1 <> t2 ->
    (keypair_at env t1).1 <> (keypair_at env t2).1 /\
    (keypair_at env t1).2 <> (keypair_at env t2).2.

(** A template without its configured [public_key], and the arguments
    with all templates so reduced. *)
Definition forget_key (peer : PeerTemplate) : PeerTemplate :=
  {| t_name := t_name peer; t_public_key := "";
     t_allowed_ips := t_allowed_ips peer; t_endpoint := t_endpoint peer;
     t_keepalive := t_keepalive peer |}.

Definition forget_keys (a : Args) : Args :=
  {| a_prefix := a_prefix a; a_start := a_start a; a_end := a_end a;
     a_api_key := a_api_key a;
     target_dir := target_dir a; address := address a; listen_port := listen_port a;
     peer_allowed_ips := peer_allowed_ips a; peer_name := peer_name a;
     server_endpoint := server_endpoint a;
     delete_existing := delete_existing a; dry_run := dry_run a;
     dashboard_url := dashboard_url a; dashboard_db := dashboard_db a;
     dashboard_service := dashboard_service a; peer_dns := peer_dns a;
     peer_mtu := peer_mtu a; peer_keepalive := peer_keepalive a;
     endpoint_allowed_ips := endpoint_allowed_ips a; delete_only := delete_only a;
     extra_peers := map forget_key (extra_peers a) |}.

(** *** Reading a rendered record back *)

(** Modelled from the spec: the round trip of a config record speaks of
    re-parsing the interface address, listen port and private key; the
    program only writes records.  The reader below takes the text line
    by line: the interface section runs from the line [[Interface]] to
    the next line that opens a section, and a field is the first line
    of the section of the form [Key = value], taken literally. *)
Fixpoint drop_to_section (header : string) (lines : list string) : list string :=
  match lines with
  | [] => []
  | l :: rest => if String.eqb l header then rest else drop_to_section header rest
  end.

Fixpoint section_body (lines : list string) : list string :=
  match lines with
  | [] => []
  | l :: rest => if startswith "[" l then [] else l :: section_body rest
  end.

Fixpoint strip_prefix (p s : string) : option string :=
  match p, s with
  | EmptyString, _ => Some s
  | String a p', String b s' => if Ascii.eqb a b then strip_prefix p' s' else None
  | String _ _, EmptyString => None
  end.

Fixpoint field (key : string) (lines : list string) : option string :=
  match lines with
  | [] => None
  | l :: rest =>
      match strip_prefix (key +:+ " = ") l with
      | Some v => Some v
      | None => field key rest
      end
  end.

Definition parse_interface (text : string) : option (string * string * string) :=
  let body := section_body (drop_to_section "[Interface]"
                              (split_on (ascii_of_nat 10) text)) in
  match field "Address" body, field "ListenPort" body, field "PrivateKey" body with
  | Some a, Some p, Some k => Some (a, p, k)
  | _, _, _ => None
  end.

(** ** Sample runs *)

Module Sample.

(** A key primitive that never repeats itself: the answer at
    consultation [t] is [k] followed by [t] zeros. *)
Definition key_text (t : nat) : string := String "k" (zeros t).

Definition ok_body : string := "ok".
Definition refused_body : string := "refused".

(** Decoding of the bodies the sample dashboard sends. *)
Definition loads (text : string) : option pyval :=
  if String.eqb text "{}" then Some (PyDict [])
  else if String.eqb text ok_body then Some (PyDict [("status", PyBool true)])
  else if String.eqb text refused_body then Some (PyDict [("status", PyBool false)])
  else if String.eqb text "[]" then Some (PyList [])
  else None.

(** Everything works: commands succeed, the service is active at the
    first poll, the dashboard accepts, the operator answers [j]. *)
Definition env_fine : Env :=
  {| which := fun _ => true;
     proc := fun t _ _ => (0, key_text t);
     proc_ms := fun _ => 20%N;
     http := fun _ _ => Response 200 ok_body;
     json_loads := loads;
     stdin_line := fun _ => "j";
     os_error := fun _ => None;
     access_w := fun _ => true;
     umask_mode := 420 |}.

(** The service never reports active. *)
Definition env_service_down : Env :=
  {| which := fun _ => true;
     proc := fun t cmd _ =>
       match cmd with
       | "systemctl" :: "is-active" :: _ => (3, "")
       | _ => (0, key_text t)
       end;
     proc_ms := fun _ => 20%N;
     http := fun _ _ => Response 200 ok_body;
     json_loads := loads;
     stdin_line := fun _ => "j";
     os_error := fun _ => None;
     access_w := fun _ => true;
     umask_mode := 420 |}.

(** [wg genkey] fails whenever it is consulted at a tick below [bad]. *)
Definition env_keygen_fails (bad : nat) : Env :=
  {| which := fun _ => true;
     proc := fun t cmd _ =>
       match cmd with
       | ["wg"; "genkey"] => if t <? bad then (1, "") else (0, key_text t)
       | _ => (0, key_text t)
       end;
     proc_ms := fun _ => 20%N;
     http := fun _ _ => Response 200 ok_body;
     json_loads := loads;
     stdin_line := fun _ => "N";
     os_error := fun _ => None;
     access_w := fun _ => true;
     umask_mode := 420 |}.

(** The dashboard answers 200 with a body that says no. *)
Definition env_refusing : Env :=
  {| which := fun _ => true;
     proc := fun t _ _ => (0, key_text t);
     proc_ms := fun _ => 20%N;
     http := fun _ rq =>
       if String.eqb (rq_method rq) "GET" then Response 200 "" else Response 200 refused_body;
     json_loads := loads;
     stdin_line := fun _ => "N";
     os_error := fun _ => None;
     access_w := fun _ => true;
     umask_mode := 420 |}.

(** One of the programs the script needs is not installed. *)
Definition env_without (binary : string) : Env :=
  {| which := fun b => negb (String.eqb b binary);
     proc := fun t _ _ => (0, key_text t);
     proc_ms := fun _ => 20%N;
     http := fun _ _ => Response 200 ok_body;
     json_loads := loads;
     stdin_line := fun _ => "j";
     os_error := fun _ => None;
     access_w := fun _ => true;
     umask_mode := 420 |}.

(** The dashboard cannot be reached. *)
Definition env_unreachable : Env :=
  {| which := fun _ => true;
     proc := fun t _ _ => (0, key_text t);
     proc_ms := fun _ => 20%N;
     http := fun _ _ => URLError;
     json_loads := loads;
     stdin_line := fun _ => "j";
     os_error := fun _ => None;
     access_w := fun _ => true;
     umask_mode := 420 |}.

(** No interface is up and none can be brought up. *)
Definition env_no_interface : Env :=
  {| which := fun _ => true;
     proc := fun t cmd _ =>
       match cmd with
       | "ip" :: _ | "wg-quick" :: _ => (1, "")
       | _ => (0, key_text t)
       end;
     proc_ms := fun _ => 20%N;
     http := fun _ _ => Response 200 ok_body;
     json_loads := loads;
     stdin_line := fun _ => "N";
     os_error := fun _ => None;
     access_w := fun _ => true;
     umask_mode := 420 |}.

Definition template : PeerTemplate :=
  {| t_name := "laptop"; t_public_key := "configured-key";
     t_allowed_ips := "10.0.0.2/32"; t_endpoint := ""; t_keepalive := "25" |}.

Definition args_create : Args :=
  {| a_prefix := Some "APW"; a_start := Some 1%Z; a_end := Some 3%Z;
     a_api_key := Some "secret";
     target_dir := "/etc/wireguard"; address := "10.0.0.1/24"; listen_port := "51820";
     peer_allowed_ips := "10.0.0.2/32"; peer_name := "peer"; server_endpoint := "vpn:51820";
     delete_existing := false; dry_run := false;
     dashboard_url := "http://localhost:10086"; dashboard_db := "/opt/wgd/db.sqlite";
     dashboard_service := "wg-dashboard"; peer_dns := "1.1.1.1"; peer_mtu := 1420;
     peer_keepalive := 21; endpoint_allowed_ips := "0.0.0.0/0"; delete_only := false;
     extra_peers := [template] |}.

Definition with_flags (dry del_existing del_only : bool) (a : Args) : Args :=
  {| a_prefix := a_prefix a; a_start := a_start a; a_end := a_end a;
     a_api_key := a_api_key a;
     target_dir := target_dir a; address := address a; listen_port := listen_port a;
     peer_allowed_ips := peer_allowed_ips a; peer_name := peer_name a;
     server_endpoint := server_endpoint a;
     delete_existing := del_existing; dry_run := dry;
     dashboard_url := dashboard_url a; dashboard_db := dashboard_db a;
     dashboard_service := dashboard_service a; peer_dns := peer_dns a;
     peer_mtu := peer_mtu a; peer_keepalive := peer_keepalive a;
     endpoint_allowed_ips := endpoint_allowed_ips a; delete_only := del_only;
     extra_peers := extra_peers a |}.

Definition with_range (prefix : string) (s e : Z) (a : Args) : Args :=
  {| a_prefix := Some prefix; a_start := Some s; a_end := Some e;
     a_api_key := a_api_key a;
     target_dir := target_dir a; address := address a; listen_port := listen_port a;
     peer_allowed_ips := peer_allowed_ips a; peer_name := peer_name a;
     server_endpoint := server_endpoint a;
     delete_existing := delete_existing a; dry_run := dry_run a;
     dashboard_url := dashboard_url a; dashboard_db := dashboard_db a;
     dashboard_service := dashboard_service a; peer_dns := peer_dns a;
     peer_mtu := peer_mtu a; peer_keepalive := peer_keepalive a;
     endpoint_allowed_ips := endpoint_allowed_ips a; delete_only := delete_only a;
     extra_peers := extra_peers a |}.

Definition empty_world : World :=
  {| fs := ∅; dir_exists := false; db := None; now := 0; tick := 0; trace := [] |}.

(** A store with four tables and a directory with three records. *)
Definition busy_world : World :=
  {| fs := {[ "APW2.conf" := {| f_content := "old"; f_mode := 384 |};
              "_keep.conf" := {| f_content := "mine"; f_mode := 384 |};
              "_1.conf" := {| f_content := "mine too"; f_mode := 384 |} ]};
     dir_exists := true;
     db := Some [("APW1", ["a"]); ("APW2", ["b"]); ("APW20", ["c"; "d"]); ("APW3", ["e"])];
     now := 0; tick := 0; trace := [] |}.

(** The counters a completed creation run returned. *)
Definition counters_of (r : result (option Counters)) : Counters :=
  match r with
  | Ok (Some c) => c
  | _ => counters0
  end.

(** The sample creation run on an empty directory, and the same again. *)
Definition first_run : result (option Counters) * World :=
  main_body env_fine args_create "APW" "1" "3" "secret" empty_world.

Definition second_run : result (option Counters) * World :=
  main_body env_fine args_create "APW" "1" "3" "secret" first_run.2.

Definition path_counters (r : result Counters) : Counters :=
  match r with
  | Ok c => c
  | _ => counters0
  end.

(** The sample run as a dry run. *)
Definition args_dry : Args := with_flags true false false args_create.

Definition dry_run_result : result (option Counters) * World :=
  script env_fine args_dry empty_world.

Definition dry_creation : result Counters * World :=
  creation_path env_fine args_dry "APW" "secret" 1 1 3 empty_world.

(** The creation loop over 1 to 3 in an empty directory. *)
Definition first_loop : Counters * World :=
  match create_loop env_fine args_create "APW" 1 1 3 counters0 empty_world with
  | (Ok c, w) => (c, w)
  | (_, w) => (counters0, w)
  end.

End Sample.

(** * Properties *)

Set Warnings "-clear-no-such-hyp".

(** ** Sanity checks of the text functions *)

Example str_0 : str 0 = "0". Proof. reflexivity. Qed.
Example str_907 : str 907 = "907". Proof. reflexivity. Qed.
Example str_Z_neg : str_Z (-5) = "-5". Proof. reflexivity. Qed.
Example int_007 : int "007" = 7. Proof. reflexivity. Qed.
Example format_7_3 : format_number 7 3 = "007". Proof. reflexivity. Qed.
Example format_1234_2 : format_number 1234 2 = "1234". Proof. reflexivity. Qed.
Example strip_ex : strip ("  a b" +:+ nl +:+ " ") = "a b". Proof. reflexivity. Qed.
Example split_ex : split_on "," "a,,b" = ["a"; ""; "b"]. Proof. reflexivity. Qed.
Example join_ex : join "," ["a"; "b"; "c"] = "a,b,c". Proof. reflexivity. Qed.
Example names_ex : names_to_delete "APW" 2 9 11 = ["APW09"; "APW10"; "APW11"].
Proof. reflexivity. Qed.
Example endswith_ex : endswith ".conf" "x.conf" = true /\ endswith ".conf" "conf" = false.
Proof. split; reflexivity. Qed.
Example stem_ex : stem "APW1.conf" = "APW1" /\ stem "a.b.conf" = "a.b".
Proof. split; reflexivity. Qed.
Example like_ex :
  sql_like "APW2%" "APW2" = true /\ sql_like "APW2%" "apw20_x" = true /\
  sql_like "APW2%" "APW1" = false /\ sql_like "A_W%" "ABW" = true.
Proof. repeat split; reflexivity. Qed.

(** ** Decimal numerals *)

Section Decimal.

Local Open Scope nat_scope.
Local Arguments Nat.div : simpl never.
Local Arguments Nat.modulo : simpl never.
Local Arguments Nat.pow : simpl never.

Local Ltac pw := rewrite ?Nat.pow_succ_r', ?Nat.pow_0_r in *.

Lemma pow10_pos k : 0 < 10 ^ k.
Proof. apply Nat.neq_0_lt_0, Nat.pow_nonzero. lia. Qed.

Lemma string_length_app (s1 s2 : string) :
  String.length (s1 +:+ s2) = String.length s1 + String.length s2.
Proof. induction s1 as [|c s1 IH]; simpl; [done | by rewrite IH]. Qed.

Lemma append_assoc (s1 s2 s3 : string) : (s1 +:+ s2) +:+ s3 = s1 +:+ (s2 +:+ s3).
Proof. induction s1 as [|c s1 IH]; [done | exact (f_equal (String c) IH)]. Qed.

Lemma length_zeros k : String.length (zeros k) = k.
Proof. induction k as [|k IH]; simpl; [done | by rewrite IH]. Qed.

Lemma digit_val_char d : d < 10 -> digit_val (digit_char d) = d.
Proof.
  intros Hd. unfold digit_val, digit_char.
  rewrite nat_ascii_embedding by lia. lia.
Qed.

Lemma is_digit_val c : is_digit c = true -> digit_val c < 10.
Proof.
  unfold is_digit, digit_val. intros H.
  apply andb_true_iff in H as [H1 H2].
  apply Nat.leb_le in H1, H2. lia.
Qed.

Lemma str_aux_length_ge fuel n acc :
  S (String.length acc) <= String.length (str_aux fuel n acc).
Proof.
  revert n acc. induction fuel as [|fuel IH]; intros n acc; simpl; [lia|].
  destruct (n / 10 =? 0); simpl; [lia|].
  etrans; [|apply IH]. simpl. lia.
Qed.

Lemma str_aux_length_le fuel n acc k :
  n < 10 ^ S k ->
  String.length (str_aux fuel n acc) <= S k + String.length acc.
Proof.
  revert n acc k. induction fuel as [|fuel IH]; intros n acc k Hn; simpl; [lia|].
  destruct (Nat.eqb_spec (n / 10) 0) as [Hz|Hz]; simpl; [lia|].
  destruct k as [|k].
  { exfalso. apply Hz. apply Nat.div_small. pw. lia. }
  etrans; [apply (IH _ _ k)|simpl; lia].
  apply Nat.Div0.div_lt_upper_bound. rewrite (Nat.pow_succ_r' _ (S k)) in Hn. lia.
Qed.

Lemma str_aux_length_lower fuel n acc k :
  n <= fuel -> 10 ^ k <= n ->
  S k + String.length acc <= String.length (str_aux fuel n acc).
Proof.
  revert n acc k. induction fuel as [|fuel IH]; intros n acc k Hf Hn.
  { pose proof (pow10_pos k). lia. }
  destruct k as [|k].
  { apply str_aux_length_ge. }
  simpl str_aux.
  pose proof (pow10_pos k) as Hpos.
  assert (10 ^ k <= n / 10) as Hk.
  { apply Nat.div_le_lower_bound; [lia|]. by rewrite <-Nat.pow_succ_r'. }
  assert (n / 10 < n) as Hlt.
  { apply Nat.div_lt; [|lia]. rewrite Nat.pow_succ_r' in Hn. lia. }
  destruct (Nat.eqb_spec (n / 10) 0) as [Hz|Hz]; [lia|].
  etrans; [|apply (IH _ _ k); [lia|done]].
  simpl. lia.
Qed.

Lemma str_length_pos n : 1 <= String.length (str n).
Proof. apply (str_aux_length_ge n n ""). Qed.

Lemma str_length_le n k : n < 10 ^ S k -> String.length (str n) <= S k.
Proof. intros H. etrans; [by apply str_aux_length_le|]. simpl. lia. Qed.

Lemma str_lt_pow n : n < 10 ^ String.length (str n).
Proof.
  destruct (Nat.lt_ge_cases n (10 ^ String.length (str n))) as [?|Hge]; [done|].
  pose proof (str_aux_length_lower n n "" _ (Nat.le_refl n) Hge) as H.
  unfold str in *. simpl in H. lia.
Qed.

(** The numeral of a smaller number is not longer. *)
Lemma str_length_mono i e : i <= e -> String.length (str i) <= String.length (str e).
Proof.
  intros Hie. pose proof (str_lt_pow e) as He. pose proof (str_length_pos e) as Hp.
  destruct (String.length (str e)) as [|k]; [lia|].
  apply str_length_le. lia.
Qed.

Lemma int_aux_spec acc s : int_aux acc s = acc * 10 ^ String.length s + int s.
Proof.
  unfold int. revert acc. induction s as [|c s IH]; intros acc; simpl.
  - pw. lia.
  - rewrite (IH (_ + _)), (IH (digit_val c)). pw. lia.
Qed.

Lemma int_cons c s : int (String c s) = digit_val c * 10 ^ String.length s + int s.
Proof. unfold int at 1. simpl. by rewrite int_aux_spec. Qed.

Lemma int_str_aux fuel n acc :
  n <= fuel -> int (str_aux fuel n acc) = n * 10 ^ String.length acc + int acc.
Proof.
  revert n acc. induction fuel as [|fuel IH]; intros n acc Hf.
  - assert (n = 0) as -> by lia. simpl.
    rewrite int_cons. change (0 mod 10) with 0. rewrite digit_val_char by lia. lia.
  - simpl. pose proof (Nat.div_mod_eq n 10) as Hdm.
    assert (n mod 10 < 10) as Hm by (apply Nat.mod_upper_bound; lia).
    destruct (Nat.eqb_spec (n / 10) 0) as [Hz|Hz].
    + rewrite int_cons, digit_val_char by done.
      replace (n mod 10) with n by lia. done.
    + rewrite IH.
      2:{ assert (n / 10 < n) by (apply Nat.div_lt; lia). lia. }
      rewrite int_cons, digit_val_char by done. simpl String.length.
      pw. rewrite Hdm at 3. lia.
Qed.

Lemma int_str n : int (str n) = n.
Proof. unfold str. rewrite int_str_aux by done. simpl. unfold int. simpl. pw. lia. Qed.

Lemma int_zeros k s : int (zeros k +:+ s) = int s.
Proof. induction k as [|k IH]; [done|]. cbn. unfold int in *. cbn. done. Qed.

Lemma int_format_number i digits : int (format_number i digits) = i.
Proof. unfold format_number. by rewrite int_zeros, int_str. Qed.

Lemma length_format_number i digits :
  String.length (format_number i digits) = digits `max` String.length (str i).
Proof. unfold format_number. rewrite string_length_app, length_zeros. lia. Qed.

Lemma int_lt_pow s : all_digits s = true -> int s < 10 ^ String.length s.
Proof.
  unfold int. assert (forall acc, all_digits s = true ->
    int_aux acc s < (acc + 1) * 10 ^ String.length s) as H.
  2:{ intros Hd. specialize (H 0 Hd). lia. }
  induction s as [|c s IH]; intros acc Hd; simpl in *; [pw; lia|].
  apply andb_true_iff in Hd as [Hc Hd]. apply is_digit_val in Hc.
  specialize (IH (10 * acc + digit_val c) Hd).
  eapply Nat.lt_le_trans; [apply IH|].
  pose proof (pow10_pos (String.length s)). pw. nia.
Qed.

(** The numeral of the number a digit string denotes is not longer than
    the string: leading zeros are all it can lose. *)
Lemma str_int_length s : isdigit s = true -> String.length (str (int s)) <= String.length s.
Proof.
  intros Hd. destruct s as [|c s]; [done|].
  apply str_length_le. change (S (String.length s)) with (String.length (String c s)).
  by apply int_lt_pow.
Qed.

End Decimal.

(** ** The scope of a run *)

Section Scope.

Local Open Scope nat_scope.

Lemma elem_of_py_range i start_num end_num :
  i ∈ py_range start_num end_num <-> start_num <= i <= end_num.
Proof. unfold py_range. rewrite elem_of_seq. lia. Qed.

Lemma length_py_range start_num end_num :
  start_num <= end_num -> length (py_range start_num end_num) = end_num - start_num + 1.
Proof. intros H. unfold py_range. rewrite length_seq. lia. Qed.

#[local] Instance config_name_of_inj prefix digits : Inj (=) (=) (config_name_of prefix digits).
Proof.
  intros i j Hij. unfold config_name_of in Hij.
  apply (inj (String.app prefix)) in Hij.
  by rewrite <-(int_format_number i digits), <-(int_format_number j digits), Hij.
Qed.

Lemma names_to_delete_NoDup prefix digits start_num end_num :
  NoDup (names_to_delete prefix digits start_num end_num).
Proof. unfold names_to_delete. apply (NoDup_fmap_2 _), NoDup_seq. Qed.

Lemma elem_of_names_in_scope name prefix digits start_num end_num :
  name ∈ names_in_scope prefix digits start_num end_num <->
  exists i, start_num <= i <= end_num /\ name = prefix +:+ format_number i digits.
Proof.
  unfold names_in_scope, names_to_delete. rewrite elem_of_list_to_set.
  change (map ?f ?l) with (f <$> l). rewrite list_elem_of_fmap.
  split; intros (i & H1 & H2); exists i.
  - by apply elem_of_py_range in H2.
  - by apply elem_of_py_range in H1.
Qed.

Lemma in_scope_width start_num_str end_num_str i :
  isdigit end_num_str = true -> i <= int end_num_str ->
  String.length (format_number i (scope_digits start_num_str end_num_str))
  = scope_digits start_num_str end_num_str.
Proof.
  intros He Hi. rewrite length_format_number.
  pose proof (str_length_mono _ _ Hi). pose proof (str_int_length _ He).
  unfold scope_digits. lia.
Qed.

(** C2 (as amended): for digit strings [start_num_str], [end_num_str]
    that [main] accepts, with [int start_num_str <= int end_num_str], the
    name set has exactly [end - start + 1] members, each member is the
    prefix followed by a number of the range padded to one and the same
    width, and that width is the larger of the lengths of the two
    strings as they were entered; it is
    [max(len(str(start)), len(str(end)))] when the strings are the
    numerals of the numbers, as they are for [--start] and [--end]. *)
Theorem scope_names_count_and_width (prefix start_num_str end_num_str : string) :
  isdigit start_num_str = true ->
  isdigit end_num_str = true ->
  int start_num_str <= int end_num_str ->
  let start_num := int start_num_str in
  let end_num := int end_num_str in
  let digits := scope_digits start_num_str end_num_str in
  size (names_in_scope prefix digits start_num end_num) = end_num - start_num + 1 /\
  (forall name, name ∈ names_in_scope prefix digits start_num end_num <->
     exists i, start_num <= i <= end_num /\ name = prefix +:+ format_number i digits) /\
  (forall i, start_num <= i <= end_num -> String.length (format_number i digits) = digits) /\
  digits = String.length start_num_str `max` String.length end_num_str /\
  (start_num_str = str start_num -> end_num_str = str end_num ->
   digits = String.length (str start_num) `max` String.length (str end_num)).
Proof.
  intros Hs He Hle start_num end_num digits. repeat split.
  - unfold names_in_scope. rewrite size_list_to_set by apply names_to_delete_NoDup.
    unfold names_to_delete. rewrite length_map. by apply length_py_range.
  - by apply elem_of_names_in_scope.
  - by apply elem_of_names_in_scope.
  - intros i [_ Hi]. by apply in_scope_width.
  - intros H1 H2. unfold digits, scope_digits. by rewrite <-H1, <-H2.
Qed.

Lemma scope_names_count_and_width_witness :
  size (names_in_scope "APW" (scope_digits "8" "12") 8 12) = 5.
Proof.
  destruct (scope_names_count_and_width "APW" "8" "12") as [H _];
    [reflexivity | reflexivity | vm_compute; lia | exact H].
Defined.

(** C2, as stated, fails when the numbers are typed at the prompt with
    leading zeros: [01] and [05] are accepted, denote 1 and 5, and give
    names of width 2, not of width [max(len(str(1)), len(str(5))) = 1]. *)
Lemma scope_width_leading_zeros_counterexample :
  isdigit "01" = true /\ isdigit "05" = true /\ int "01" <= int "05" /\
  names_to_delete "APW" (scope_digits "01" "05") (int "01") (int "05")
    = ["APW01"; "APW02"; "APW03"; "APW04"; "APW05"] /\
  scope_digits "01" "05"
    <> String.length (str (int "01")) `max` String.length (str (int "05")).
Proof. repeat split; try reflexivity; vm_compute; lia. Qed.

End Scope.

(** ** Reasoning about programs *)

Section Monad.

Context {A B : Type}.

Lemma bind_Ok (m : M A) (f : A -> M B) w a w1 :
  m w = (Ok a, w1) -> bind m f w = f a w1.
Proof. intros H. unfold bind. by rewrite H. Qed.

Lemma bind_inv (m : M A) (f : A -> M B) w r w' :
  bind m f w = (r, w') ->
  (exists a w1, m w = (Ok a, w1) /\ f a w1 = (r, w')) \/
  (exists c, m w = (Exit c, w') /\ r = Exit c) \/
  (exists e, m w = (Raise e, w') /\ r = Raise e).
Proof.
  unfold bind. destruct (m w) as [[a|c|e] w1]; intros H.
  - left. eauto.
  - right. left. exists c. by simplify_eq.
  - right. right. exists e. by simplify_eq.
Qed.

Lemma bind_Ok_inv (m : M A) (f : A -> M B) w b w' :
  bind m f w = (Ok b, w') ->
  exists a w1, m w = (Ok a, w1) /\ f a w1 = (Ok b, w').
Proof.
  intros H. apply bind_inv in H as [H|[(c & _ & ?)|(e & _ & ?)]]; [done|done..].
Qed.

Lemma preserves_ret (R : relation World) `{!Reflexive R} (a : A) : preserves R (ret a).
Proof. intros w r w' H. unfold ret in H. by simplify_eq. Qed.

Lemma preserves_bind (R : relation World) `{!Transitive R} (m : M A) (f : A -> M B) :
  preserves R m -> (forall a, preserves R (f a)) -> preserves R (bind m f).
Proof.
  intros Hm Hf w r w' H.
  apply bind_inv in H as [(a & w1 & H1 & H2)|[(c & H1 & _)|(e & H1 & _)]].
  - etrans; [by eapply Hm|by eapply Hf].
  - by eapply Hm.
  - by eapply Hm.
Qed.

Lemma preserves_weaken (R R' : relation World) (m : M A) :
  (forall w w', R w w' -> R' w w') -> preserves R m -> preserves R' m.
Proof. intros HR Hm w r w' H. eauto. Qed.

Lemma no_exit_ret (a : A) : no_exit (ret a).
Proof. by intros w c w'. Qed.

Lemma no_exit_raise (e : exn) : no_exit (raise (A:=A) e).
Proof. by intros w c w'. Qed.

Lemma no_exit_bind (m : M A) (f : A -> M B) :
  no_exit m -> (forall a, no_exit (f a)) -> no_exit (bind m f).
Proof.
  intros Hm Hf w c w' H.
  apply bind_inv in H as [(a & w1 & H1 & H2)|[(c' & H1 & _)|(e & _ & ?)]];
    [by eapply Hf|by eapply Hm|done].
Qed.

Lemma preserves_try_called (R : relation World) `{!Transitive R} (m : M A) h :
  preserves R m -> (forall cmd rc, preserves R (h cmd rc)) -> preserves R (try_called m h).
Proof.
  intros Hm Hh w r w' H. unfold try_called in H.
  destruct (m w) as [[a|c|[cmd rc|msg| |]] w1] eqn:Hw; simplify_eq; eauto.
  etrans; [by eapply Hm|by eapply Hh].
Qed.

Lemma preserves_try_oserror (R : relation World) `{!Transitive R} (m : M A) h :
  preserves R m -> (forall msg, preserves R (h msg)) -> preserves R (try_oserror m h).
Proof.
  intros Hm Hh w r w' H. unfold try_oserror in H.
  destruct (m w) as [[a|c|[cmd rc|msg| |]] w1] eqn:Hw; simplify_eq; eauto.
  etrans; [by eapply Hm|by eapply Hh].
Qed.

Lemma no_exit_try_called (m : M A) h :
  no_exit m -> (forall cmd rc, no_exit (h cmd rc)) -> no_exit (try_called m h).
Proof.
  intros Hm Hh w c w' H. unfold try_called in H.
  destruct (m w) as [[a|c'|[cmd rc|msg| |]] w1] eqn:Hw; simplify_eq.
  - by eapply Hm.
  - by eapply Hh.
Qed.

Lemma no_exit_try_oserror (m : M A) h :
  no_exit m -> (forall msg, no_exit (h msg)) -> no_exit (try_oserror m h).
Proof.
  intros Hm Hh w c w' H. unfold try_oserror in H.
  destruct (m w) as [[a|c'|[cmd rc|msg| |]] w1] eqn:Hw; simplify_eq.
  - by eapply Hm.
  - by eapply Hh.
Qed.

End Monad.

Lemma preserves_for_each {A B} (R : relation World) `{!PreOrder R}
    (f : B -> A -> M B) b l :
  (forall b a, preserves R (f b a)) -> preserves R (for_each f b l).
Proof.
  intros Hf. revert b. induction l as [|a l IH]; intros b; simpl.
  - by apply preserves_ret, _.
  - apply preserves_bind; [apply _|apply Hf|apply IH].
Qed.

Lemma no_exit_for_each {A B} (f : B -> A -> M B) b l :
  (forall b a, no_exit (f b a)) -> no_exit (for_each f b l).
Proof.
  intros Hf. revert b. induction l as [|a l IH]; intros b; simpl.
  - intros w c w'. done.
  - apply no_exit_bind; [apply Hf|apply IH].
Qed.


#[global] Instance quiet_preorder : PreOrder quiet.
Proof.
  split.
  - intros w. repeat split; try done. exists []. split; [|done].
    unfold trace_from. by rewrite app_nil_r.
  - intros w1 w2 w3 (Hf & Hd & Hx & evs & Ht & He) (Hf' & Hd' & Hx' & evs' & Ht' & He').
    repeat split; try congruence. exists (evs ++ evs'). split.
    + unfold trace_from in *. by rewrite Ht', Ht, app_assoc.
    + by apply Forall_app.
Qed.

#[global] Instance on_fs_preorder Rf `{!PreOrder Rf} : PreOrder (on_fs Rf).
Proof.
  split; [intros w; unfold on_fs; reflexivity|].
  intros w1 w2 w3 ??. unfold on_fs in *. by etrans.
Qed.

#[global] Instance keeps_preorder keep : PreOrder (keeps keep).
Proof.
  split; [intros m name ? H; exact H|].
  intros m1 m2 m3 H1 H2 name ??. eauto.
Qed.

#[global] Instance extends_preorder : PreOrder extends.
Proof.
  split.
  - intros w. exists []. unfold trace_from. by rewrite app_nil_r.
  - intros w1 w2 w3 [evs H] [evs' H']. exists (evs ++ evs').
    unfold trace_from in *. by rewrite H', H, app_assoc.
Qed.

#[global] Instance on_fs_stable Rf `{!PreOrder Rf} : Stable (on_fs Rf).
Proof. split; [apply _|..]; intros; unfold on_fs; simpl; reflexivity. Qed.

#[global] Instance extends_stable : Stable extends.
Proof.
  split; [apply _|..]; intros; unfold extends, trace_from; simpl;
    first [by eexists [_] | exists []; by rewrite app_nil_r].
Qed.

Section Stable.

Context (R : relation World) `{!Stable R}.

Lemma stable_log_r e w w1 : R w w1 -> R w (log e w1).
Proof. intros H. etrans; [done|apply stable_log]. Qed.

Lemma stable_step_r ms w w1 : R w w1 -> R w (step ms w1).
Proof. intros H. etrans; [done|apply stable_step]. Qed.

Lemma stable_db_r d w w1 : R w w1 -> R w (set_db d w1).
Proof. intros H. etrans; [done|apply stable_db]. Qed.

Lemma stable_dir_r b w w1 : R w w1 -> R w (set_dir b w1).
Proof. intros H. etrans; [done|apply stable_dir]. Qed.

Lemma stable_sql_deletes (tables : list string) w w1 :
  R w w1 -> R w (foldl (fun w t => log (EvSqlDelete t) w) w1 tables).
Proof.
  revert w1. induction tables as [|t tables IH]; intros w1 H; simpl; [done|].
  by apply IH, stable_log_r.
Qed.

End Stable.

(** Closes [R w w'] when [w'] is [w] after steps every stable relation
    allows. *)
Ltac stable :=
  repeat lazymatch goal with
         | |- ?R ?w (log ?e ?w1) => apply (stable_log_r R e w w1)
         | |- ?R ?w (step ?ms ?w1) => apply (stable_step_r R ms w w1)
         | |- ?R ?w (set_db ?d ?w1) => apply (stable_db_r R d w w1)
         | |- ?R ?w (set_dir ?b ?w1) => apply (stable_dir_r R b w w1)
         | |- ?R ?w (foldl _ ?w1 ?l) => apply (stable_sql_deletes R l w w1)
         end;
  reflexivity.

(** ** The primitives *)

Create HintDb pres discriminated.
Create HintDb noexit discriminated.

Lemma quiet_log e w : read_only e = true -> quiet w (log e w).
Proof.
  intros He. repeat split; try done. exists [e]. split; [done|]. by constructor.
Qed.

Lemma quiet_step ms w : quiet w (step ms w).
Proof. repeat split; try done. exists []. split; [|done]. unfold trace_from. simpl. by rewrite app_nil_r. Qed.

Lemma quiet_log_step e ms w : read_only e = true -> quiet w (step ms (log e w)).
Proof. intros He. etrans; [by apply quiet_log|apply quiet_step]. Qed.

Lemma sql_deletes_fields (tables : list string) w :
  let w' := foldl (fun w t => log (EvSqlDelete t) w) w tables in
  fs w' = fs w /\ db w' = db w /\ dir_exists w' = dir_exists w /\ now w' = now w /\
  tick w' = tick w /\ trace w' = trace w ++ map EvSqlDelete tables.
Proof.
  revert w. induction tables as [|t tables IH]; intros w; simpl.
  - by rewrite app_nil_r.
  - destruct (IH (log (EvSqlDelete t) w)) as (-> & -> & -> & -> & -> & ->).
    simpl. by rewrite <-app_assoc.
Qed.

(** Unfolds a primitive applied to a state and splits on its outcome. *)
Ltac prim_inv H :=
  cbv beta zeta delta [print print_end input getpass time_time sleep shutil_which run_cmd
                  urlopen path_exists glob_conf os_call mkdir os_access_w unlink
                  write_text chmod db_path_exists sql_purge sys_exit raise ret] in H;
  repeat match type of H with
         | context [match ?x with _ => _ end] => destruct x eqn:?
         | context [if ?x then _ else _] => destruct x eqn:?
         end;
  simplify_eq.

Section Primitives.

Context (env : Env).

(** *** Read-only primitives change nothing outside *)

Lemma quiet_print_end t e : preserves quiet (print_end t e).
Proof. intros w r w' H. prim_inv H. by apply quiet_log. Qed.

Lemma quiet_print t : preserves quiet (print t).
Proof. apply quiet_print_end. Qed.

Lemma quiet_input p : preserves quiet (input env p).
Proof. intros w r w' H. prim_inv H. by apply quiet_log_step. Qed.

Lemma quiet_getpass p : preserves quiet (getpass env p).
Proof. intros w r w' H. prim_inv H. by apply quiet_log_step. Qed.

Lemma quiet_time_time : preserves quiet time_time.
Proof. intros w r w' H. prim_inv H. reflexivity. Qed.

Lemma quiet_sleep ms : preserves quiet (sleep ms).
Proof. intros w r w' H. prim_inv H. by apply quiet_log_step. Qed.

Lemma quiet_shutil_which b : preserves quiet (shutil_which env b).
Proof. intros w r w' H. prim_inv H. by apply quiet_log. Qed.

Lemma quiet_run_cmd cmd capture check inp :
  read_only (EvCmd cmd inp) = true -> preserves quiet (run_cmd env cmd capture check inp).
Proof. intros Hro w r w' H. prim_inv H; by apply quiet_log_step. Qed.

Lemma quiet_urlopen rq :
  rq_method rq = "GET" -> preserves quiet (urlopen env rq).
Proof.
  intros Hm w r w' H. prim_inv H. apply quiet_log_step. simpl. by rewrite Hm.
Qed.

Lemma quiet_path_exists name : preserves quiet (path_exists name).
Proof. intros w r w' H. prim_inv H. reflexivity. Qed.

Lemma quiet_glob_conf : preserves quiet glob_conf.
Proof. intros w r w' H. prim_inv H. reflexivity. Qed.

Lemma quiet_db_path_exists : preserves quiet db_path_exists.
Proof. intros w r w' H. prim_inv H. reflexivity. Qed.

Lemma quiet_sys_exit {A} c : preserves quiet (sys_exit (A:=A) c).
Proof. intros w r w' H. prim_inv H. reflexivity. Qed.

Lemma quiet_raise {A} e : preserves quiet (raise (A:=A) e).
Proof. intros w r w' H. prim_inv H. reflexivity. Qed.

(** *** What every primitive keeps *)

Section OnFs.

Context (R : relation World) `{!Stable R}.

Local Ltac fs_same := intros w r w' H; prim_inv H; stable.

Lemma fs_print_end t e : preserves R (print_end t e).
Proof. fs_same. Qed.
Lemma fs_print t : preserves R (print t).
Proof. fs_same. Qed.
Lemma fs_input p : preserves R (input env p).
Proof. fs_same. Qed.
Lemma fs_getpass p : preserves R (getpass env p).
Proof. fs_same. Qed.
Lemma fs_time_time : preserves R time_time.
Proof. fs_same. Qed.
Lemma fs_sleep ms : preserves R (sleep ms).
Proof. fs_same. Qed.
Lemma fs_shutil_which b : preserves R (shutil_which env b).
Proof. fs_same. Qed.
Lemma fs_run_cmd cmd capture check inp : preserves R (run_cmd env cmd capture check inp).
Proof. fs_same. Qed.
Lemma fs_urlopen rq : preserves R (urlopen env rq).
Proof. fs_same. Qed.
Lemma fs_path_exists name : preserves R (path_exists name).
Proof. fs_same. Qed.
Lemma fs_glob_conf : preserves R glob_conf.
Proof. fs_same. Qed.
Lemma fs_mkdir d : preserves R (mkdir env d).
Proof. fs_same. Qed.
Lemma fs_os_access_w d : preserves R (os_access_w env d).
Proof. fs_same. Qed.
Lemma fs_db_path_exists : preserves R db_path_exists.
Proof. fs_same. Qed.
Lemma fs_sql_purge sel : preserves R (sql_purge sel).
Proof. fs_same. Qed.
Lemma fs_sys_exit {A} c : preserves R (sys_exit (A:=A) c).
Proof. fs_same. Qed.
Lemma fs_raise {A} e : preserves R (raise (A:=A) e).
Proof. fs_same. Qed.

(** Writing and deleting, for a relation that admits the change. *)
Lemma fs_write_text d name text :
  (forall w f, R w (set_fs (<[name := f]> (fs w)) w)) ->
  preserves R (write_text env d name text).
Proof.
  intros Hw w r w' H. prim_inv H; try stable.
  all: apply (stable_step_r R); etrans; [|apply Hw]; stable.
Qed.

Lemma fs_chmod d name mode :
  (forall w f, R w (set_fs (<[name := f]> (fs w)) w)) ->
  preserves R (chmod env d name mode).
Proof.
  intros Hw w r w' H. prim_inv H; try stable.
  all: apply (stable_step_r R); etrans; [|apply Hw]; stable.
Qed.

Lemma fs_unlink d name :
  (forall w, R w (set_fs (delete name (fs w)) w)) ->
  preserves R (unlink env d name).
Proof.
  intros Hw w r w' H. prim_inv H; try stable.
  all: apply (stable_step_r R); etrans; [|apply Hw]; stable.
Qed.

End OnFs.

(** *** No primitive but [sys_exit] leaves by [sys.exit] *)

Local Ltac never := intros w c w' H; prim_inv H.

Lemma ne_print_end t e : no_exit (print_end t e).
Proof. never. Qed.
Lemma ne_print t : no_exit (print t).
Proof. never. Qed.
Lemma ne_input p : no_exit (input env p).
Proof. never. Qed.
Lemma ne_time_time : no_exit time_time.
Proof. never. Qed.
Lemma ne_sleep ms : no_exit (sleep ms).
Proof. never. Qed.
Lemma ne_shutil_which b : no_exit (shutil_which env b).
Proof. never. Qed.
Lemma ne_run_cmd cmd capture check inp : no_exit (run_cmd env cmd capture check inp).
Proof. never. Qed.
Lemma ne_urlopen rq : no_exit (urlopen env rq).
Proof. never. Qed.
Lemma ne_path_exists name : no_exit (path_exists name).
Proof. never. Qed.
Lemma ne_glob_conf : no_exit glob_conf.
Proof. never. Qed.
Lemma ne_db_path_exists : no_exit db_path_exists.
Proof. never. Qed.
Lemma ne_sql_purge sel : no_exit (sql_purge sel).
Proof. never. Qed.
Lemma ne_write_text d name text : no_exit (write_text env d name text).
Proof. never. Qed.
Lemma ne_chmod d name mode : no_exit (chmod env d name mode).
Proof. never. Qed.
Lemma ne_unlink d name : no_exit (unlink env d name).
Proof. never. Qed.

End Primitives.

#[global] Hint Resolve quiet_print_end quiet_print quiet_input quiet_getpass quiet_time_time
  quiet_sleep quiet_shutil_which quiet_path_exists quiet_glob_conf quiet_db_path_exists
  quiet_sys_exit quiet_raise : pres.

#[global] Hint Resolve fs_print_end fs_print fs_input fs_getpass fs_time_time fs_sleep
  fs_shutil_which fs_run_cmd fs_urlopen fs_path_exists fs_glob_conf fs_mkdir fs_os_access_w
  fs_db_path_exists fs_sql_purge fs_sys_exit fs_raise : pres.

#[global] Hint Resolve ne_print_end ne_print ne_input ne_time_time ne_sleep ne_shutil_which
  ne_run_cmd ne_urlopen ne_path_exists ne_glob_conf ne_db_path_exists ne_sql_purge
  ne_write_text ne_chmod ne_unlink no_exit_ret no_exit_raise : noexit.

#[global] Hint Extern 1 (PreOrder _) => typeclasses eauto : pres.
#[global] Hint Extern 1 (Stable _) => typeclasses eauto : pres.

(** One step through the structure of a program, for goals [preserves]
    and [no_exit]. *)
Ltac prog_step :=
  lazymatch goal with
  | |- preserves _ (bind _ _) => apply preserves_bind; [apply _| |intros ?]
  | |- preserves _ (ret _) => apply preserves_ret; apply _
  | |- preserves _ (when _ _) => unfold when
  | |- preserves _ (for_each _ _ _) => apply preserves_for_each; [apply _|intros ? ?]
  | |- preserves _ (try_called _ _) => apply preserves_try_called; [apply _| |intros ? ?]
  | |- preserves _ (try_oserror _ _) => apply preserves_try_oserror; [apply _| |intros ?]
  | |- preserves _ (if ?b then _ else _) => destruct b eqn:?
  | |- preserves _ (match ?x with _ => _ end) => destruct x eqn:?
  | |- no_exit (bind _ _) => apply no_exit_bind; [|intros ?]
  | |- no_exit (when _ _) => unfold when
  | |- no_exit (for_each _ _ _) => apply no_exit_for_each; intros ? ?
  | |- no_exit (try_called _ _) => apply no_exit_try_called; [|intros ? ?]
  | |- no_exit (try_oserror _ _) => apply no_exit_try_oserror; [|intros ?]
  | |- no_exit (if ?b then _ else _) => destruct b eqn:?
  | |- no_exit (match ?x with _ => _ end) => destruct x eqn:?
  end.

Ltac prog := repeat (first [solve [eauto with pres noexit] | prog_step]).

(** ** The functions that never touch the target directory *)

Section Untouched.

Context (env : Env) (R : relation World) `{!Stable R}.

Lemma fs_find_missing bins : preserves R (find_missing env bins).
Proof. induction bins; simpl; prog. Qed.
Hint Resolve fs_find_missing : pres.

Lemma fs_check_dependencies : preserves R (check_dependencies env).
Proof. unfold check_dependencies. prog. Qed.

Lemma fs_prompt_if_empty v p s : preserves R (prompt_if_empty env v p s).
Proof. unfold prompt_if_empty. prog. Qed.

Lemma fs_api_handshake u k t : preserves R (api_handshake env u k t).
Proof. unfold api_handshake. prog. Qed.

Lemma fs_update_wgdashboard_peer u k c pub priv n dns ips eips mtu ka ep :
  preserves R (update_wgdashboard_peer env u k c pub priv n dns ips eips mtu ka ep).
Proof. unfold update_wgdashboard_peer. prog. Qed.

Lemma fs_interface_running n : preserves R (interface_running env n).
Proof. unfold interface_running. prog. Qed.
Hint Resolve fs_interface_running : pres.

Lemma fs_start_interface n : preserves R (start_interface env n).
Proof. unfold start_interface. prog. Qed.

Lemma fs_stop_interface n : preserves R (stop_interface env n).
Proof. unfold stop_interface. prog. Qed.
Hint Resolve fs_stop_interface : pres.

Lemma fs_delete_interface_and_routes n ips :
  preserves R (delete_interface_and_routes env n ips).
Proof. unfold delete_interface_and_routes. prog. Qed.

Lemma fs_generate_keypair : preserves R (generate_keypair env).
Proof. unfold generate_keypair. prog. Qed.
Hint Resolve fs_generate_keypair : pres.

Lemma fs_generate_peers tpl : preserves R (generate_peers env tpl).
Proof. induction tpl; simpl; prog. Qed.

Lemma fs_purge_wgdashboard_tables d p : preserves R (purge_wgdashboard_tables d p).
Proof. unfold purge_wgdashboard_tables. prog. Qed.

Lemma fs_purge_wgdashboard_tables_for d ns :
  preserves R (purge_wgdashboard_tables_for d ns).
Proof. unfold purge_wgdashboard_tables_for. prog. Qed.

Lemma fs_restart_service n a : preserves R (restart_service env n a).
Proof. unfold restart_service. prog. Qed.

Lemma fs_poll_active fuel n e i : preserves R (poll_active env fuel n e i).
Proof. induction fuel; simpl; prog. Qed.
Hint Resolve fs_poll_active : pres.

Lemma fs_ensure_service_active n t i : preserves R (ensure_service_active env n t i).
Proof. unfold ensure_service_active. prog. Qed.
Hint Resolve fs_purge_wgdashboard_tables fs_restart_service fs_ensure_service_active : pres.

Lemma fs_run_pre_creation_cleanup d s : preserves R (run_pre_creation_cleanup env d s).
Proof. unfold run_pre_creation_cleanup. prog. Qed.

Context (args : Args).

Hint Resolve fs_update_wgdashboard_peer fs_start_interface : pres.

Lemma fs_push_peer k c counts p : preserves R (push_peer env args k c counts p).
Proof. unfold push_peer. prog. Qed.
Hint Resolve fs_push_peer : pres.

Lemma fs_register_entity k counts e : preserves R (register_entity env args k counts e).
Proof. unfold register_entity. destruct e as [[? ?] ?]. prog. Qed.
Hint Resolve fs_register_entity : pres.

Lemma fs_register_phase k c : preserves R (register_phase env args k c).
Proof. unfold register_phase. prog. Qed.

Lemma fs_print_peer_keys p : preserves R (print_peer_keys p).
Proof. unfold print_peer_keys. prog. Qed.
Hint Resolve fs_print_peer_keys : pres.

Lemma fs_print_summary c : preserves R (print_summary args c).
Proof. unfold print_summary. prog. Qed.

Lemma fs_print_settings p s e : preserves R (print_settings args p s e).
Proof. unfold print_settings. prog. Qed.

End Untouched.

#[global] Hint Resolve fs_find_missing fs_check_dependencies fs_prompt_if_empty
  fs_api_handshake fs_update_wgdashboard_peer fs_interface_running fs_start_interface
  fs_stop_interface fs_delete_interface_and_routes fs_generate_keypair fs_generate_peers
  fs_purge_wgdashboard_tables fs_purge_wgdashboard_tables_for fs_restart_service
  fs_poll_active fs_ensure_service_active fs_run_pre_creation_cleanup fs_push_peer
  fs_register_entity fs_register_phase fs_print_peer_keys fs_print_summary
  fs_print_settings : pres.

(** ** The functions that never call [sys.exit] *)

Section NoExit.

Context (env : Env).

Lemma ne_api_handshake u k t : no_exit (api_handshake env u k t).
Proof. unfold api_handshake. prog. Qed.

Lemma ne_update_wgdashboard_peer u k c pub priv n dns ips eips mtu ka ep :
  no_exit (update_wgdashboard_peer env u k c pub priv n dns ips eips mtu ka ep).
Proof. unfold update_wgdashboard_peer. prog. Qed.

Lemma ne_interface_running n : no_exit (interface_running env n).
Proof. unfold interface_running. prog. Qed.
Hint Resolve ne_interface_running : noexit.

Lemma ne_start_interface n : no_exit (start_interface env n).
Proof. unfold start_interface. prog. Qed.

Lemma ne_stop_interface n : no_exit (stop_interface env n).
Proof. unfold stop_interface. prog. Qed.
Hint Resolve ne_stop_interface ne_start_interface : noexit.

Lemma ne_delete_interface_and_routes n ips : no_exit (delete_interface_and_routes env n ips).
Proof. unfold delete_interface_and_routes. prog. Qed.

Lemma ne_generate_keypair : no_exit (generate_keypair env).
Proof. unfold generate_keypair. prog. Qed.
Hint Resolve ne_generate_keypair : noexit.

Lemma ne_generate_peers tpl : no_exit (generate_peers env tpl).
Proof. induction tpl; simpl; prog. Qed.

Lemma ne_purge_wgdashboard_tables d p : no_exit (purge_wgdashboard_tables d p).
Proof. unfold purge_wgdashboard_tables. prog. Qed.

Lemma ne_purge_wgdashboard_tables_for d ns : no_exit (purge_wgdashboard_tables_for d ns).
Proof. unfold purge_wgdashboard_tables_for. prog. Qed.

Lemma ne_restart_service n a : no_exit (restart_service env n a).
Proof. unfold restart_service. prog. Qed.

Lemma ne_poll_active fuel n e i : no_exit (poll_active env fuel n e i).
Proof. induction fuel; simpl; prog. Qed.
Hint Resolve ne_poll_active : noexit.

Lemma ne_ensure_service_active n t i : no_exit (ensure_service_active env n t i).
Proof. unfold ensure_service_active. prog. Qed.

Lemma ne_delete_existing_configs d allowed : no_exit (delete_existing_configs env d allowed).
Proof. unfold delete_existing_configs. prog. Qed.

Context (args : Args).

Hint Resolve ne_generate_peers ne_update_wgdashboard_peer ne_delete_interface_and_routes
  ne_purge_wgdashboard_tables_for : noexit.

Lemma ne_create_entity p d c i : no_exit (create_entity env args p d c i).
Proof. unfold create_entity. prog. Qed.
Hint Resolve ne_create_entity : noexit.

Lemma ne_create_loop p d s e c : no_exit (create_loop env args p d s e c).
Proof. unfold create_loop. prog. Qed.

Lemma ne_push_peer k c counts p : no_exit (push_peer env args k c counts p).
Proof. unfold push_peer. prog. Qed.
Hint Resolve ne_push_peer : noexit.

Lemma ne_register_entity k counts e : no_exit (register_entity env args k counts e).
Proof. unfold register_entity. destruct e as [[? ?] ?]. prog. Qed.

Lemma ne_print_peer_keys p : no_exit (print_peer_keys p).
Proof. unfold print_peer_keys. prog. Qed.
Hint Resolve ne_print_peer_keys : noexit.

Lemma ne_print_summary c : no_exit (print_summary args c).
Proof. unfold print_summary. prog. Qed.

Lemma ne_delete_only_path p d s e : no_exit (delete_only_path env args p d s e).
Proof. unfold delete_only_path. prog. Qed.

End NoExit.

#[global] Hint Resolve ne_api_handshake ne_update_wgdashboard_peer ne_interface_running
  ne_start_interface ne_stop_interface ne_delete_interface_and_routes ne_generate_keypair
  ne_generate_peers ne_purge_wgdashboard_tables ne_purge_wgdashboard_tables_for
  ne_restart_service ne_poll_active ne_ensure_service_active ne_delete_existing_configs
  ne_create_entity ne_create_loop ne_push_peer ne_register_entity ne_print_peer_keys
  ne_print_summary ne_delete_only_path : noexit.

(** ** Running a program backwards from its outcome *)

Lemma try_called_inv {A} (m : M A) h w r w' :
  try_called m h w = (r, w') ->
  (exists cmd rc w1, m w = (Raise (CalledProcessError cmd rc), w1) /\ h cmd rc w1 = (r, w')) \/
  (m w = (r, w') /\ forall cmd rc, r <> Raise (CalledProcessError cmd rc)).
Proof.
  unfold try_called. destruct (m w) as [[a|c|[cmd rc|msg| |]] w1]; intros H;
    first [left; by eauto | right; by simplify_eq].
Qed.

Lemma try_oserror_inv {A} (m : M A) h w r w' :
  try_oserror m h w = (r, w') ->
  (exists msg w1, m w = (Raise (OSError msg), w1) /\ h msg w1 = (r, w')) \/
  (m w = (r, w') /\ forall msg, r <> Raise (OSError msg)).
Proof.
  unfold try_oserror. destruct (m w) as [[a|c|[cmd rc|msg| |]] w1]; intros H;
    first [left; by eauto | right; by simplify_eq].
Qed.

(** [run H] splits the hypothesis [H : program w = (r, w')] along the
    structure of the program, executing the primitives on the way. *)
Ltac run_head H :=
  lazymatch type of H with
  | bind _ _ _ = _ =>
      let a := fresh "a" in
      let w1 := fresh "w" in
      let H1 := fresh "Hrun" in
      let Hr := fresh "Hres" in
      apply bind_inv in H as [(a & w1 & H1 & H)|[(? & H1 & Hr)|(? & H1 & Hr)]];
      [cbv beta in H; run H1 | simplify_eq; run H1 | simplify_eq; run H1]
  | try_called _ _ _ = _ =>
      let H1 := fresh "Hrun" in
      let Hn := fresh "Hnot" in
      apply try_called_inv in H as [(? & ? & ? & H1 & H)|[H Hn]];
      [cbv beta in H; run H1 | ]
  | try_oserror _ _ _ = _ =>
      let H1 := fresh "Hrun" in
      let Hn := fresh "Hnot" in
      apply try_oserror_inv in H as [(? & ? & H1 & H)|[H Hn]];
      [cbv beta in H; run H1 | ]
  | when ?b _ _ = _ => unfold when in H; destruct b eqn:?
  | (if ?b then _ else _) _ = _ => destruct b eqn:?
  | (match ?x with _ => _ end) _ = _ => destruct x eqn:?
  | ret _ _ = _ => prim_inv H
  | sys_exit _ _ = _ => prim_inv H
  | raise _ _ = _ => prim_inv H
  | print _ _ = _ => prim_inv H
  | print_end _ _ _ = _ => prim_inv H
  | path_exists _ _ = _ => prim_inv H
  | glob_conf _ = _ => prim_inv H
  | time_time _ = _ => prim_inv H
  | sleep _ _ = _ => prim_inv H
  | db_path_exists _ = _ => prim_inv H
  | input _ _ _ = _ => prim_inv H
  | getpass _ _ _ = _ => prim_inv H
  | shutil_which _ _ _ = _ => prim_inv H
  | urlopen _ _ _ = _ => prim_inv H
  | run_cmd _ _ _ _ _ _ = _ => prim_inv H
  | os_access_w _ _ _ = _ => prim_inv H
  | sql_purge _ _ = _ => prim_inv H
  | write_text _ _ _ _ _ = _ => prim_inv H
  | chmod _ _ _ _ _ = _ => prim_inv H
  | unlink _ _ _ _ = _ => prim_inv H
  | mkdir _ _ _ = _ => prim_inv H
  end
with run H := repeat run_head H.

Section Keys.

Context (env : Env).

Lemma after_keygen_fields w :
  fs (after_keygen env w) = fs w /\ db (after_keygen env w) = db w /\
  dir_exists (after_keygen env w) = dir_exists w /\
  tick (after_keygen env w) = S (S (tick w)) /\
  trace (after_keygen env w)
    = trace w ++ [EvCmd ["wg"; "genkey"] None;
                  EvCmd ["wg"; "pubkey"] (Some (genkey_out env (tick w) +:+ nl))].
Proof. repeat split; simpl. by rewrite <-app_assoc. Qed.

(** [generate_keypair] either returns the key pair of this consultation
    or raises [CalledProcessError]; nothing else. *)
Lemma generate_keypair_spec w r w' :
  generate_keypair env w = (r, w') ->
  (keygen_ok env (tick w) = true /\ r = Ok (keypair_at env (tick w)) /\
   w' = after_keygen env w) \/
  (keygen_ok env (tick w) = false /\
   (exists cmd rc, r = Raise (CalledProcessError cmd rc)) /\
   fs w' = fs w /\ db w' = db w /\ dir_exists w' = dir_exists w /\ tick w <= tick w').
Proof.
  intros H. unfold generate_keypair in H. run H; simpl in *.
  - left. unfold keygen_ok, genkey_out.
    apply negb_false_iff in Heqb, Heqb0. by rewrite Heqb, Heqb0.
  - right. unfold keygen_ok, genkey_out. apply negb_false_iff in Heqb.
    apply negb_true_iff in Heqb0. rewrite Heqb, Heqb0.
    repeat split; eauto; simpl; lia.
  - right. unfold keygen_ok. apply negb_true_iff in Heqb. rewrite Heqb.
    repeat split; eauto; simpl; lia.
Qed.

Lemma generate_peers_spec templates w r w' :
  generate_peers env templates w = (r, w') ->
  fs w' = fs w /\ db w' = db w /\ dir_exists w' = dir_exists w /\
  ((keys_ok env (length templates) (tick w) = true /\
    r = Ok (peers_from env templates (tick w)) /\
    tick w' = tick w + 2 * length templates) \/
   (keys_ok env (length templates) (tick w) = false /\
    (exists cmd rc, r = Raise (CalledProcessError cmd rc)) /\ tick w <= tick w')).
Proof.
  revert w r w'. induction templates as [|peer rest IH]; intros w r w' H; simpl in H.
  { run H. repeat split; try done. left. repeat split; simpl; lia. }
  destruct (after_keygen_fields w) as (Ef & Ed & Ex & Et & _).
  run H.
  all: apply generate_keypair_spec in Hrun
         as [(Hk & ? & ->)|(Hk & (? & ? & ?) & ? & ? & ? & ?)]; simplify_eq.
  all: try (apply IH in Hrun0 as (Hf & Hd & Hx & Hcase);
            rewrite Ef, Ed, Ex, Et in *;
            destruct Hcase as [(Hks & ? & Ht)|(Hks & (? & ? & ?) & Ht)]; simplify_eq).
  - repeat split; try done. left. simpl. rewrite Hk, Hks.
    repeat split; try done; lia.
  - repeat split; try done. right. simpl. rewrite Hk, Hks.
    repeat split; try by eauto. lia.
  - repeat split; try done. right. simpl. rewrite Hk.
    repeat split; try by eauto.
Qed.

End Keys.

(** ** One round of the creation loop *)

Section Entity.

Context (env : Env) (args : Args).

Lemma skip_test_true (m : gmap string file) filename de :
  bool_decide (is_Some (m !! filename)) && negb de = true ->
  is_Some (m !! filename) /\ de = false.
Proof.
  intros Hb. apply andb_true_iff in Hb as [Hb1 Hb2]. apply bool_decide_eq_true in Hb1.
  by apply negb_true_iff in Hb2.
Qed.

Lemma skip_test_false (m : gmap string file) filename de :
  bool_decide (is_Some (m !! filename)) && negb de = false ->
  m !! filename = None \/ de = true.
Proof.
  intros Hb. apply andb_false_iff in Hb as [Hb|Hb].
  - left. apply bool_decide_eq_false in Hb. by apply eq_None_not_Some.
  - right. by apply negb_false_iff in Hb.
Qed.

(** Everything [create_entity] can do, by cases: the skip, a failed key
    generation, the dry run, the written file, a failed write. *)
Lemma create_entity_spec prefix digits c i w r w' :
  create_entity env args prefix digits c i w = (r, w') ->
  let name := prefix +:+ format_number i digits in
  let filename := name +:+ ".conf" in
  let t := tick w in
  let n := length (extra_peers args) in
  let entry := (name, (keypair_at env t).2, peers_from env (extra_peers args) (S (S t))) in
  let c' := count_created (summary_append entry (count_total c)) in
  db w' = db w /\ dir_exists w' = dir_exists w /\
  ((is_Some (fs w !! filename) /\ delete_existing args = false /\
    r = Ok (count_skipped (count_total c)) /\ fs w' = fs w /\ tick w' = t) \/
   ((fs w !! filename = None \/ delete_existing args = true) /\
    ((keys_ok env (S n) t = false /\
      r = Ok (count_error (count_total c)) /\ fs w' = fs w /\ t <= tick w') \/
     (keys_ok env (S n) t = true /\
      ((dry_run args = true /\ r = Ok c' /\ fs w' = fs w /\ tick w' = t + 2 + 2 * n) \/
       (dry_run args = false /\ r = Ok c' /\
        fs w' = <[filename := {| f_content := create_config_text (address args)
                                   (listen_port args) (keypair_at env t).1
                                   (peers_from env (extra_peers args) (S (S t)));
                                 f_mode := 384 |}]> (fs w) /\
        tick w' = t + 2 + 2 * n + 2) \/
       (dry_run args = false /\ (exists msg, r = Raise (OSError msg)) /\
        dom (fs w) ⊆ dom (fs w') /\ t <= tick w')))))).
Proof.
  intros H. unfold create_entity in H. cbv zeta in H.
  run H.
  all: repeat match goal with
         | Hb : _ && negb (delete_existing args) = true |- _ =>
             apply skip_test_true in Hb as [? ?]
         | Hb : _ && negb (delete_existing args) = false |- _ =>
             apply skip_test_false in Hb
         | Hk : generate_keypair env _ = _ |- _ =>
             apply generate_keypair_spec in Hk
               as [(Hk & ? & ->)|(Hk & (? & ? & ?) & ? & ? & ? & ?)]; simplify_eq
         | Hp : generate_peers env _ _ = _ |- _ =>
             apply generate_peers_spec in Hp
               as (? & ? & ? & [(Hp & ? & ?)|(Hp & (? & ? & ?) & ?)]); simplify_eq
         | Hl : <[_ := _]> _ !! _ = _ |- _ => rewrite lookup_insert_eq in Hl; simplify_eq
         end.
  all: unfold after_keygen in *; simpl in *.
  all: repeat match goal with
         | Hl : <[_ := _]> _ !! _ = _ |- _ => rewrite lookup_insert_eq in Hl; simplify_eq
         end.
  all: try match goal with
           | Hn : forall cmd rc, Raise (CalledProcessError ?x ?y) <> _ |- _ =>
               by destruct (Hn x y)
           end.
  all: try (exfalso; congruence).
  all: repeat match goal with
         | Hx : keygen_ok _ _ = _ |- _ => rewrite Hx
         | Hx : keys_ok _ _ _ = _ |- _ => rewrite Hx
         end; simpl.
  all: rewrite ?insert_insert_eq.
  all: try ((split; [congruence|]); (split; [congruence|])).
  all: try by (left; repeat split; simpl; try done; try congruence; lia).
  all: right; (split; [done|]).
  all: try by (left; repeat split; simpl; try done; try congruence; lia).
  all: right; (split; [done|]).
  all: try by (left; repeat split; simpl; try done; try congruence; lia).
  all: right.
  all: try by (left; repeat split; simpl; try done; try congruence; lia).
  all: right.
  all: try by (repeat split; simpl; eauto; try congruence; try lia).
  all: repeat split; eauto; try lia.
  all: rewrite dom_insert_L; match goal with Hf : fs _ = fs _ |- _ => rewrite Hf end;
    apply union_subseteq_r.
Qed.

End Entity.

(** ** Registration of a peer *)

Section Update.

Context (env : Env).

Lemma update_wgdashboard_peer_spec url api_key config_name pub priv name dns ips eips mtu ka ep w :
  let rq := update_request url api_key config_name pub priv name dns ips eips mtu ka ep in
  let r := (update_wgdashboard_peer env url api_key config_name pub priv name dns ips eips
              mtu ka ep w).1 in
  match http env (tick w) rq with
  | Response status text =>
      if status =? 200 then
        match json_loads env (body_text text) with
        | None => r = Ok false
        | Some (PyDict body) =>
            r = Ok (match dict_get "status" body with
                    | Some (PyBool true) => true
                    | _ => false
                    end)
        | Some _ => r = Raise AttributeError
        end
      else r = Ok false
  | URLError | HTTPError _ => r = Ok false
  end.
Proof.
  intros rq r. subst r. unfold update_wgdashboard_peer, bind, urlopen. simpl.
  fold (update_request url api_key config_name pub priv name dns ips eips mtu ka ep).
  fold rq. destruct (http env (tick w) rq) as [|code|status text]; [done..|].
  destruct (status =? 200); [|done]. simpl. fold (body_text text).
  destruct (json_loads env (body_text text)) as [[]|]; done.
Qed.


(** A body that is JSON but not an object makes [body.get] raise. *)
Lemma update_peer_non_object url api_key config_name pub priv name dns ips eips mtu ka ep w text v :
  http env (tick w)
    (update_request url api_key config_name pub priv name dns ips eips mtu ka ep)
    = Response 200 text ->
  json_loads env (body_text text) = Some v ->
  (forall body, v <> PyDict body) ->
  (update_wgdashboard_peer env url api_key config_name pub priv name dns ips eips
     mtu ka ep w).1 = Raise AttributeError.
Proof.
  intros Hh Hj Hv.
  pose proof (update_wgdashboard_peer_spec url api_key config_name pub priv name dns ips
                eips mtu ka ep w) as Hspec.
  cbv zeta in Hspec. rewrite Hh, Hj in Hspec. simpl in Hspec.
  destruct v; try done. by destruct (Hv d).
Qed.

End Update.

(** ** Failures and the batch *)

(** Closes a goal with a hypothesis that a part which never exits has
    exited. *)
Ltac absurd_exit :=
  match goal with
  | H : ?m ?w = (Exit ?c, ?w') |- _ =>
      exfalso;
      let Hne := fresh in
      assert (no_exit m) as Hne by prog;
      exact (Hne _ _ _ H)
  end.

Section Failures.

Context (env : Env) (args : Args).

Lemma create_loop_outcome prefix digits l c w r w' :
  for_each (create_entity env args prefix digits) c l w = (r, w') ->
  (exists c', r = Ok c' /\ total c' = total c + length l /\
     created c' + skipped c' + errors c'
     = created c + skipped c + errors c + length l) \/
  (exists msg, r = Raise (OSError msg)).
Proof.
  revert c w. induction l as [|i l IH]; intros c w H; simpl in H.
  { run H. left. eexists. repeat split; simpl; lia. }
  run H.
  - apply create_entity_spec in Hrun. cbv zeta in Hrun.
    apply IH in H as [(c' & -> & Ht & Hc)|?]; [|by right].
    left. exists c'. split; [done|].
    destruct Hrun as (_ & _ & [(_ & _ & ? & _)|(_ & [(_ & ? & _)|(_ & [(_ & ? & _)|
      [(_ & ? & _)|(_ & (? & ?) & _)]])])]); simplify_eq; simpl in *; lia.
  - absurd_exit.
  - apply create_entity_spec in Hrun. cbv zeta in Hrun.
    destruct Hrun as (_ & _ & [(_ & _ & ? & _)|(_ & [(_ & ? & _)|(_ & [(_ & ? & _)|
      [(_ & ? & _)|(_ & (? & ?) & _)]])])]); simplify_eq. right. eauto.
Qed.

Lemma update_raises_only url api_key config_name pub priv name dns ips eips mtu ka ep w e w' :
  update_wgdashboard_peer env url api_key config_name pub priv name dns ips eips mtu ka ep w
    = (Raise e, w') ->
  e = AttributeError.
Proof.
  intros H.
  pose proof (update_wgdashboard_peer_spec env url api_key config_name pub priv name dns
                ips eips mtu ka ep w) as Hspec.
  cbv zeta in Hspec. rewrite H in Hspec. simpl in Hspec.
  repeat case_match; by simplify_eq.
Qed.

Lemma push_peer_outcome api_key config_name counts peer w r w' :
  push_peer env args api_key config_name counts peer w = (r, w') ->
  (exists s f, r = Ok (s, f) /\ s + f = S (counts.1 + counts.2)) \/
  r = Raise AttributeError.
Proof.
  intros H. unfold push_peer in H. cbv zeta in H. run H.
  all: try by (left; eexists _, _; split; [done|]; simpl; lia).
  all: try absurd_exit.
  all: apply update_raises_only in Hrun as ->; by right.
Qed.

Lemma push_peers_outcome api_key config_name peers counts w r w' :
  for_each (push_peer env args api_key config_name) counts peers w = (r, w') ->
  (exists s f, r = Ok (s, f) /\ s + f = counts.1 + counts.2 + length peers) \/
  r = Raise AttributeError.
Proof.
  revert counts w. induction peers as [|peer peers IH]; intros counts w H; simpl in H.
  { run H. left. exists counts.1, counts.2. split; [by destruct counts|simpl; lia]. }
  run H.
  - apply push_peer_outcome in Hrun as [(s & f & ? & Hsf)|?]; [|done].
    simplify_eq. apply IH in H as [(s' & f' & -> & Hsf')|?]; [|by right].
    left. exists s', f'. split; [done|]. simpl in *. lia.
  - absurd_exit.
  - apply push_peer_outcome in Hrun as [(s & f & ? & Hsf)|?]; [done|]. by right.
Qed.

Lemma restart_service_trace service action w r w' :
  restart_service env service action w = (r, w') ->
  EvCmd ["systemctl"; action; service] None ∈ trace w'.
Proof.
  intros H. unfold restart_service in H. run H; simpl; set_solver.
Qed.

Lemma run_pre_creation_cleanup_exit db_path service w code w' :
  run_pre_creation_cleanup env db_path service w = (Exit code, w') ->
  code = 1 /\ service_never_active env service w'.
Proof.
  intros H. unfold run_pre_creation_cleanup in H.
  apply bind_inv in H as [(? & w1 & _ & H)|[(? & H & _)|(? & _ & ?)]];
    [|absurd_exit|done].
  apply bind_inv in H as [(restarted & w2 & _ & H)|[(? & H & _)|(? & _ & ?)]];
    [|absurd_exit|done].
  apply bind_inv in H as [(cleared & w3 & _ & H)|[(? & H & _)|(? & _ & ?)]];
    [|absurd_exit|done].
  apply bind_inv in H as [(? & w4 & _ & H)|[(? & H & _)|(? & _ & ?)]];
    [|absurd_exit|done].
  destruct restarted; [|by run H].
  apply bind_inv in H as [(? & w5 & Hstart & H)|[(? & H & _)|(? & _ & ?)]];
    [|absurd_exit|done].
  apply bind_inv in H as [(active & w6 & Hpoll & H)|[(? & H & _)|(? & _ & ?)]];
    [|absurd_exit|done].
  destruct active; run H.
  split; [done|]. eexists _, "start", w5, w6, _. repeat split; [set_solver| |done].
  by eapply restart_service_trace.
Qed.

Lemma register_phase_exit api_key c w code w' :
  register_phase env args api_key c w = (Exit code, w') ->
  code = 1 /\ service_never_active env (dashboard_service args) w'.
Proof.
  intros H. unfold register_phase in H.
  destruct (negb (dry_run args) && (0 <? created c)); [|by run H].
  do 4 (apply bind_inv in H as [(? & ? & _ & H)|[(? & H & _)|(? & _ & ?)]];
        [|absurd_exit|done]).
  apply bind_inv in H as [(answer & w5 & _ & H)|[(? & H & _)|(? & _ & ?)]];
    [|absurd_exit|done].
  cbv zeta in H.
  apply bind_inv in H as [(? & w6 & _ & H)|[(? & H & [= <-])|(? & _ & ?)]]; [absurd_exit| |done].
  destruct (startswith "j" (lower (strip answer))); [|by run H].
  apply bind_inv in H as [(? & w7 & _ & H)|[(? & H & _)|(? & _ & ?)]];
    [|absurd_exit|done].
  apply bind_inv in H as [(? & w8 & Hrestart & H)|[(? & H & _)|(? & _ & ?)]];
    [|absurd_exit|done].
  apply bind_inv in H as [(? & w9 & Hprint & H)|[(? & H & _)|(? & _ & ?)]];
    [|absurd_exit|done].
  apply bind_inv in H as [(active & w10 & Hpoll & H)|[(? & H & _)|(? & _ & ?)]];
    [|absurd_exit|done].
  destruct active; run H.
  split; [done|]. eexists _, "restart", w9, w10, _. repeat split; [set_solver| |done].
  apply restart_service_trace in Hrestart. run Hprint. simpl. set_solver.
Qed.

Lemma creation_path_exit prefix api_key digits start_num end_num w code w' :
  creation_path env args prefix api_key digits start_num end_num w = (Exit code, w') ->
  code = 1 /\ service_never_active env (dashboard_service args) w'.
Proof.
  intros H. unfold creation_path in H.
  apply bind_inv in H as [(? & w1 & _ & H)|[(? & H & [= <-])|(? & _ & ?)]]; [| |done].
  2:{ unfold when in H. destruct (negb (dry_run args)); [|by run H].
      by apply run_pre_creation_cleanup_exit in H. }
  apply bind_inv in H as [(c & w2 & _ & H)|[(? & H & _)|(? & _ & ?)]];
    [|absurd_exit|done].
  apply bind_inv in H as [(? & w3 & _ & H)|[(? & H & [= <-])|(? & _ & ?)]]; [| |done].
  2:{ by apply register_phase_exit in H. }
  apply bind_inv in H as [(? & w4 & _ & H)|[(? & H & _)|(? & _ & ?)]];
    [by run H|absurd_exit|done].
Qed.

Lemma run_batch_exit prefix start_num_str end_num_str api_key w code w' :
  run_batch env args prefix start_num_str end_num_str api_key w = (Exit code, w') ->
  code = 1 /\ service_never_active env (dashboard_service args) w'.
Proof.
  intros H. unfold run_batch in H. cbv zeta in H.
  apply bind_inv in H as [(? & w1 & _ & H)|[(? & H & [= <-])|(? & _ & ?)]]; [| |done].
  2:{ unfold when in H. destruct (_ && _); [absurd_exit|by run H]. }
  destruct (delete_only args).
  - apply bind_inv in H as [(? & w2 & _ & H)|[(? & H & _)|(? & _ & ?)]];
      [by run H|absurd_exit|done].
  - apply bind_inv in H as [(? & w2 & _ & H)|[(? & H & [= <-])|(? & _ & ?)]];
      [by run H| |done].
    by apply creation_path_exit in H.
Qed.

End Failures.




(** A key generation that fails for the first entity leaves the other
    two to be created, and a dashboard that refuses every peer leaves
    the run to finish. *)
Example keygen_failure_isolated :
  match (run_batch (Sample.env_keygen_fails 4) Sample.args_create
           "APW" "1" "3" "secret" Sample.empty_world).1 with
  | Ok (Some c) => (total c, created c, skipped c, errors c) = (3, 2, 0, 1)
  | _ => False
  end.
Proof. by vm_compute. Qed.

Example refusal_isolated :
  match (run_batch Sample.env_refusing Sample.args_create
           "APW" "1" "3" "secret" Sample.empty_world) with
  | (Ok (Some c), w) =>
      (total c, created c, skipped c, errors c) = (3, 3, 0, 0) /\
      EvPrint (nl +:+ "API-Updates: 0 erfolgreich, 3 fehlgeschlagen" +:+ nl) ∈ trace w
  | _ => False
  end.
Proof. vm_compute. split; [done|]. set_solver. Qed.

(** ** Running the creation twice *)


(** From [H : m w = (r, w')], for a part [m] that leaves the target
    directory alone, that the directory is the same afterwards. *)
Ltac frame_fs H :=
  lazymatch type of H with
  | ?m ?w = (?r, ?w') =>
      let Hp := fresh in
      let Hfs := fresh "Hfs" in
      assert (preserves (on_fs eq) m) as Hp by prog;
      pose proof (Hp _ _ _ H) as Hfs;
      unfold on_fs in Hfs; clear Hp
  end.

Section Twice.

Context (args : Args).

(** A loop without errors leaves a record for every number it went
    through, and never removes one. *)
Lemma create_loop_records env prefix digits l c w c' w' :
  dry_run args = false ->
  for_each (create_entity env args prefix digits) c l w = (Ok c', w') ->
  errors c <= errors c' /\ dom (fs w) ⊆ dom (fs w') /\
  (errors c' = errors c -> forall i, i ∈ l -> record_of prefix digits i ∈ dom (fs w')).
Proof.
  intros Hdry. revert c w. induction l as [|i l IH]; intros c w H; simpl in H.
  { run H. repeat split; [lia|done|]. intros _ i Hi. by apply elem_of_nil in Hi. }
  apply bind_Ok_inv in H as (c1 & w1 & Hone & H).
  apply IH in H as (Hle & Hdom & Hall).
  apply create_entity_spec in Hone. cbv zeta in Hone.
  destruct Hone as (_ & _ & [(Hex & _ & ? & Hfs & _)|(_ & [(_ & ? & Hfs & _)|(_ &
    [(Hd & _)|[(_ & ? & Hfs & _)|(_ & (? & ?) & _)]])])]); simplify_eq; simpl in *.
  - rewrite Hfs in Hdom. repeat split; [done..|].
    intros He j [->|Hj]%elem_of_cons; [|by apply Hall].
    apply Hdom. by apply elem_of_dom.
  - repeat split; [lia|by rewrite <-Hfs|]. intros He. lia.
  - congruence.
  - rewrite Hfs, dom_insert_L in Hdom. repeat split; [done|set_solver|].
    intros He j [->|Hj]%elem_of_cons; [|by apply Hall].
    apply Hdom. unfold record_of. set_solver.
Qed.

(** A loop over numbers that all have their record skips them all. *)
Lemma create_loop_all_skipped env prefix digits l c w r w' :
  delete_existing args = false ->
  (forall i, i ∈ l -> record_of prefix digits i ∈ dom (fs w)) ->
  for_each (create_entity env args prefix digits) c l w = (r, w') ->
  fs w' = fs w /\
  exists c', r = Ok c' /\ created c' = created c /\ errors c' = errors c /\
    skipped c' = skipped c + length l /\ total c' = total c + length l /\
    summary c' = summary c.
Proof.
  intros Hde. revert c w. induction l as [|i l IH]; intros c w Hall H; simpl in H.
  { run H. split; [done|]. eexists. repeat split; simpl; lia. }
  assert (is_Some (fs w !! record_of prefix digits i)) as Hi.
  { apply elem_of_dom, Hall. set_solver. }
  apply bind_inv in H as [(c1 & w1 & Hone & H)|[(? & Hone & ->)|(? & Hone & ->)]];
    apply create_entity_spec in Hone; cbv zeta in Hone;
    (destruct Hone as (_ & _ & [(_ & _ & ? & Hfs & _)|([Hno|?] & _)]);
      [|by unfold record_of in Hi; rewrite Hno in Hi; destruct Hi|congruence]); simplify_eq.
  apply IH in H as (Hfs' & c' & -> & ? & ? & ? & ? & ?).
  - split; [congruence|]. exists c'. repeat split; simpl in *; try done; lia.
  - intros j Hj. rewrite Hfs. apply Hall. set_solver.
Qed.

Lemma creation_path_Ok_inv env prefix api_key digits start_num end_num w c w' :
  creation_path env args prefix api_key digits start_num end_num w = (Ok c, w') ->
  exists wa wb, fs wa = fs w /\
    create_loop env args prefix digits start_num end_num counters0 wa = (Ok c, wb) /\
    fs w' = fs wb.
Proof.
  intros H. unfold creation_path in H.
  apply bind_Ok_inv in H as (? & wa & Hpre & H).
  apply bind_Ok_inv in H as (c1 & wb & Hloop & H).
  apply bind_Ok_inv in H as (? & w3 & Hreg & H).
  apply bind_Ok_inv in H as (? & w4 & Hsum & H).
  run H. frame_fs Hpre. frame_fs Hreg. frame_fs Hsum.
  exists wa, wb. repeat split; [done..|congruence].
Qed.

Lemma run_batch_Ok_inv env prefix start_num_str end_num_str api_key w oc w' :
  delete_only args = false ->
  delete_existing args && negb (dry_run args) = false ->
  run_batch env args prefix start_num_str end_num_str api_key w = (Ok oc, w') ->
  exists c, oc = Some c /\
    creation_path env args prefix api_key (scope_digits start_num_str end_num_str)
      (int start_num_str) (int end_num_str) w = (Ok c, w').
Proof.
  intros Hdo Hde H. unfold run_batch in H. cbv zeta in H. rewrite Hdo, Hde in H.
  apply bind_Ok_inv in H as (? & w1 & Hpre & H). run Hpre.
  apply bind_Ok_inv in H as (c & w2 & Hc & H). run H. eauto.
Qed.

(** A run of [main] that comes back passed every check, and started the
    batch on the directory as it found it. *)
Lemma main_body_Ok_inv env prefix start_num_str end_num_str api_key w oc w' :
  main_body env args prefix start_num_str end_num_str api_key w = (Ok oc, w') ->
  truthy prefix = true /\ isdigit start_num_str = true /\ isdigit end_num_str = true /\
  int start_num_str <= int end_num_str /\
  exists wa, fs wa = fs w /\
    run_batch env args prefix start_num_str end_num_str api_key wa = (Ok oc, w').
Proof.
  intros H. unfold main_body in H. cbv zeta in H.
  apply bind_Ok_inv in H as (? & w1 & Hv1 & H).
  apply bind_Ok_inv in H as (? & w2 & Hv2 & H).
  apply bind_Ok_inv in H as (? & w3 & Hv3 & H).
  apply bind_Ok_inv in H as (? & w4 & Hset & H).
  apply bind_Ok_inv in H as (? & w5 & Hp & H).
  apply bind_Ok_inv in H as (? & w6 & Hh & H).
  apply bind_Ok_inv in H as (? & w7 & Hr & H).
  apply bind_Ok_inv in H as (? & w8 & Hok & H).
  apply bind_Ok_inv in H as (? & w9 & Hdir & H).
  frame_fs Hset. frame_fs Hh. frame_fs Hdir.
  run Hv1. run Hv2. run Hv3. run Hp. run Hr. run Hok. simpl in *.
  apply orb_false_iff in Heqb as [[Hpre Hs]%orb_false_iff He].
  apply negb_false_iff in Hpre, Hs, He. apply Nat.ltb_ge in Heqb0.
  repeat split; [done..|]. exists w9. split; [congruence|done].
Qed.

End Twice.

(** C3: two runs of the creation path over the same range and target
    directory, without [--delete-existing] and not as a dry run.  If the
    first run came back without an error (it persisted a record for
    every name) and nobody touched the directory in between, a second
    run that comes back has created nothing and skipped every name of
    the range; it has left the directory as it was. *)
Theorem creation_idempotent env1 env2 args prefix start_num_str end_num_str api_key
    w0 c1 w1 w1' c2 w2 :
  delete_existing args = false ->
  dry_run args = false ->
  delete_only args = false ->
  main_body env1 args prefix start_num_str end_num_str api_key w0 = (Ok (Some c1), w1) ->
  errors c1 = 0 ->
  fs w1' = fs w1 ->
  main_body env2 args prefix start_num_str end_num_str api_key w1' = (Ok (Some c2), w2) ->
  created c2 = 0 /\ errors c2 = 0 /\ summary c2 = [] /\
  skipped c2 = int end_num_str - int start_num_str + 1 /\
  total c2 = skipped c2 /\
  fs w2 = fs w1'.
Proof.
  intros Hde Hdry Hdo Hrun1 Herr Hsame Hrun2.
  assert (delete_existing args && negb (dry_run args) = false) as Hsweep
    by (by rewrite Hde).
  apply main_body_Ok_inv in Hrun1 as (_ & _ & _ & Hle & wa & Hwa & Hrun1).
  apply run_batch_Ok_inv in Hrun1 as (? & [= <-] & Hrun1); [|done..].
  apply creation_path_Ok_inv in Hrun1 as (wb & wc & Hwb & Hloop1 & Hwc).
  apply main_body_Ok_inv in Hrun2 as (_ & _ & _ & _ & wa' & Hwa' & Hrun2).
  apply run_batch_Ok_inv in Hrun2 as (? & [= <-] & Hrun2); [|done..].
  apply creation_path_Ok_inv in Hrun2 as (wb' & wc' & Hwb' & Hloop2 & Hwc').
  unfold create_loop in *.
  apply create_loop_records in Hloop1 as (_ & _ & Hall); [|done].
  apply create_loop_all_skipped in Hloop2
    as (Hfs & c' & [= <-] & Hc & He & Hs & Ht & Hsum); [|done|].
  - rewrite length_py_range in Hs, Ht by done. simpl in *.
    repeat split; try done; try lia. congruence.
  - intros i Hi. rewrite Hwb', Hwa', Hsame, Hwc. apply Hall; [|done].
    simpl. lia.
Qed.

Lemma creation_idempotent_witness :
  created (Sample.counters_of Sample.second_run.1) = 0 /\
  skipped (Sample.counters_of Sample.second_run.1) = int "3" - int "1" + 1.
Proof.
  assert (main_body Sample.env_fine Sample.args_create "APW" "1" "3" "secret"
            Sample.empty_world
          = (Ok (Some (Sample.counters_of Sample.first_run.1)), Sample.first_run.2)) as H1
    by (vm_compute; reflexivity).
  assert (main_body Sample.env_fine Sample.args_create "APW" "1" "3" "secret"
            Sample.first_run.2
          = (Ok (Some (Sample.counters_of Sample.second_run.1)), Sample.second_run.2)) as H2
    by (vm_compute; reflexivity).
  assert (errors (Sample.counters_of Sample.first_run.1) = 0) as He
    by (vm_compute; reflexivity).
  destruct (creation_idempotent Sample.env_fine Sample.env_fine Sample.args_create
              "APW" "1" "3" "secret" Sample.empty_world _ _ Sample.first_run.2 _ _
              eq_refl eq_refl eq_refl H1 He eq_refl H2) as (Hc & _ & _ & Hs & _).
  exact (conj Hc Hs).
Defined.

(** ** Records that bulk deletion leaves alone *)

Lemma keeps_insert keep (m : gmap string file) name f : keeps keep m (<[name := f]> m).
Proof.
  intros n _ Hn. destruct (decide (name = n)) as [->|Hne].
  - rewrite lookup_insert_eq. eauto.
  - by rewrite lookup_insert_ne.
Qed.

Lemma keeps_delete (keep : string -> Prop) (m : gmap string file) name :
  ~ keep name -> keeps keep m (delete name m).
Proof.
  intros Hk n Hn Hs. rewrite lookup_delete_ne; [done|]. by intros ->.
Qed.

Lemma underscore_prefix prefix rest :
  truthy prefix = true -> startswith "_" prefix = false ->
  startswith "_" (prefix +:+ rest) = false.
Proof.
  destruct prefix as [|c p]; [done|]. intros _. simpl.
  by destruct (Ascii.eqb "_" c).
Qed.

Section Kept.

Context (env : Env) (args : Args).

(** The creation loop only writes. *)
Lemma keeps_create_entity keep prefix digits c i :
  preserves (on_fs (keeps keep)) (create_entity env args prefix digits c i).
Proof.
  unfold create_entity. prog.
  - apply fs_write_text; [apply _|]. intros. apply keeps_insert.
  - apply fs_chmod; [apply _|]. intros. apply keeps_insert.
Qed.

Lemma keeps_creation_path keep prefix api_key digits start_num end_num :
  preserves (on_fs (keeps keep))
    (creation_path env args prefix api_key digits start_num end_num).
Proof.
  unfold creation_path, create_loop. prog. apply keeps_create_entity.
Qed.

(** The sweep of [--delete-existing] passes over every file whose name
    starts with an underscore. *)
Lemma keeps_delete_existing_configs dir allowed :
  preserves (on_fs (keeps underscore)) (delete_existing_configs env dir allowed).
Proof.
  unfold delete_existing_configs. prog.
  apply fs_unlink; [apply _|]. intros m. apply keeps_delete.
  unfold underscore. congruence.
Qed.

(** The delete-only mode removes the records it names and no other. *)
Lemma keeps_delete_only_path keep prefix digits start_num end_num :
  (forall i, ~ keep (record_of prefix digits i)) ->
  preserves (on_fs (keeps keep)) (delete_only_path env args prefix digits start_num end_num).
Proof.
  intros Hk. unfold delete_only_path, names_to_delete.
  prog_step. { prog. } prog_step. { prog. }
  prog_step; [|prog].
  generalize (py_range start_num end_num). intros l. generalize tt.
  induction l as [|i l IH]; intros []; simpl; [prog|].
  prog_step; [|destruct a; apply IH].
  prog. apply fs_unlink; [apply _|]. intros m. apply keeps_delete, Hk.
Qed.

Lemma keeps_delete_only_path_dry keep prefix digits start_num end_num :
  dry_run args = true ->
  preserves (on_fs (keeps keep)) (delete_only_path env args prefix digits start_num end_num).
Proof.
  intros Hdry. unfold delete_only_path. rewrite Hdry. simpl. prog.
Qed.

Lemma keeps_run_batch prefix start_num_str end_num_str api_key :
  delete_only args = false \/ dry_run args = true \/
    (truthy prefix = true /\ startswith "_" prefix = false) ->
  preserves (on_fs (keeps underscore))
    (run_batch env args prefix start_num_str end_num_str api_key).
Proof.
  intros Hcond. unfold run_batch. cbv zeta.
  prog_step; [prog; apply keeps_delete_existing_configs|].
  destruct (delete_only args) eqn:Hdo.
  - prog_step; [|prog].
    destruct Hcond as [?|[Hdry|[Ht Hp]]]; [done| |].
    + by apply keeps_delete_only_path_dry.
    + apply keeps_delete_only_path. intros i. unfold underscore, record_of.
      rewrite append_assoc, underscore_prefix; done.
  - prog. apply keeps_creation_path.
Qed.

End Kept.

Section KeptMain.

Context (env : Env) (args : Args).

Lemma keeps_main_body prefix start_num_str end_num_str api_key :
  truthy prefix = true ->
  delete_only args = false \/ dry_run args = true \/ startswith "_" prefix = false ->
  preserves (on_fs (keeps underscore))
    (main_body env args prefix start_num_str end_num_str api_key).
Proof.
  intros Ht Hcond. unfold main_body. cbv zeta. prog.
  apply keeps_run_batch. naive_solver.
Qed.

Lemma main_body_no_prefix start_num_str end_num_str api_key w r w' :
  main_body env args "" start_num_str end_num_str api_key w = (r, w') ->
  fs w' = fs w.
Proof.
  intros H. unfold main_body in H. cbv zeta in H. simpl in H.
  apply bind_inv in H as [(? & ? & Hv & _)|[(? & Hv & _)|(? & Hv & _)]]; by run Hv.
Qed.


End KeptMain.



(** ** The dry run *)

Section Quiet.

Context (env : Env).

Lemma quiet_find_missing bins : preserves quiet (find_missing env bins).
Proof. induction bins; simpl; prog. Qed.
Hint Resolve quiet_find_missing : pres.

Lemma quiet_check_dependencies : preserves quiet (check_dependencies env).
Proof. unfold check_dependencies. prog. Qed.

Lemma quiet_prompt_if_empty v p s : preserves quiet (prompt_if_empty env v p s).
Proof. unfold prompt_if_empty. prog. Qed.

Lemma quiet_api_handshake u k t : preserves quiet (api_handshake env u k t).
Proof. unfold api_handshake. prog. by apply quiet_urlopen. Qed.

Lemma quiet_generate_keypair : preserves quiet (generate_keypair env).
Proof. unfold generate_keypair. prog; by apply quiet_run_cmd. Qed.
Hint Resolve quiet_generate_keypair : pres.

Lemma quiet_generate_peers tpl : preserves quiet (generate_peers env tpl).
Proof. induction tpl; simpl; prog. Qed.
Hint Resolve quiet_generate_peers quiet_api_handshake quiet_prompt_if_empty
  quiet_check_dependencies : pres.

Context (args : Args) (Hdry : dry_run args = true).

Lemma quiet_create_entity prefix digits c i :
  preserves quiet (create_entity env args prefix digits c i).
Proof using Hdry. unfold create_entity. rewrite Hdry. prog. Qed.
Hint Resolve quiet_create_entity : pres.

Lemma quiet_print_peer_keys p : preserves quiet (print_peer_keys p).
Proof. unfold print_peer_keys. prog. Qed.
Hint Resolve quiet_print_peer_keys : pres.

Lemma quiet_print_summary c : preserves quiet (print_summary args c).
Proof. unfold print_summary. prog. Qed.

Lemma quiet_print_settings p s e : preserves quiet (print_settings args p s e).
Proof. unfold print_settings. prog. Qed.

Lemma quiet_register_phase k c : preserves quiet (register_phase env args k c).
Proof using Hdry. unfold register_phase. rewrite Hdry. simpl. prog. Qed.

Lemma quiet_delete_only_path p d s e : preserves quiet (delete_only_path env args p d s e).
Proof using Hdry. unfold delete_only_path. rewrite Hdry. simpl. prog. Qed.

Hint Resolve quiet_print_summary quiet_print_settings quiet_register_phase
  quiet_delete_only_path : pres.

Lemma quiet_creation_path p k d s e : preserves quiet (creation_path env args p k d s e).
Proof using Hdry. unfold creation_path, create_loop. rewrite Hdry. simpl. prog. Qed.
Hint Resolve quiet_creation_path : pres.

Lemma quiet_run_batch p s e k : preserves quiet (run_batch env args p s e k).
Proof using Hdry.
  unfold run_batch. cbv zeta. rewrite Hdry, andb_false_r. simpl. prog.
Qed.
Hint Resolve quiet_run_batch : pres.

Lemma quiet_main_body p s e k : preserves quiet (main_body env args p s e k).
Proof using Hdry. unfold main_body. cbv zeta. rewrite Hdry. simpl. prog. Qed.
Hint Resolve quiet_main_body : pres.

Lemma quiet_main : preserves quiet (main env args).
Proof using Hdry. unfold main. prog. Qed.

Lemma quiet_script : preserves quiet (script env args).
Proof using Hdry. unfold script. prog. apply quiet_main. Qed.

End Quiet.

#[global] Hint Resolve quiet_find_missing quiet_check_dependencies quiet_prompt_if_empty
  quiet_api_handshake quiet_generate_keypair quiet_generate_peers quiet_create_entity
  quiet_print_peer_keys quiet_print_summary quiet_print_settings quiet_register_phase
  quiet_delete_only_path quiet_creation_path quiet_run_batch quiet_main_body quiet_main
  quiet_script : pres.

(** *** The log only grows *)

Section Extends.

Context (env : Env) (args : Args).

Lemma extends_set_fs m w : extends w (set_fs m w).
Proof. exists []. unfold trace_from. simpl. by rewrite app_nil_r. Qed.

Lemma ext_write_text d name text : preserves extends (write_text env d name text).
Proof. apply fs_write_text; [apply _|]. intros. apply extends_set_fs. Qed.

Lemma ext_chmod d name mode : preserves extends (chmod env d name mode).
Proof. apply fs_chmod; [apply _|]. intros. apply extends_set_fs. Qed.

Lemma ext_unlink d name : preserves extends (unlink env d name).
Proof. apply fs_unlink; [apply _|]. intros. apply extends_set_fs. Qed.
Hint Resolve ext_write_text ext_chmod ext_unlink : pres.

Lemma ext_create_entity prefix digits c i :
  preserves extends (create_entity env args prefix digits c i).
Proof. unfold create_entity. prog. Qed.
Hint Resolve ext_create_entity : pres.

Lemma ext_delete_existing_configs dir allowed :
  preserves extends (delete_existing_configs env dir allowed).
Proof. unfold delete_existing_configs. prog. Qed.

Lemma ext_delete_only_path p d s e : preserves extends (delete_only_path env args p d s e).
Proof. unfold delete_only_path. prog. Qed.

Lemma ext_creation_path p k d s e : preserves extends (creation_path env args p k d s e).
Proof. unfold creation_path, create_loop. prog. Qed.
Hint Resolve ext_delete_existing_configs ext_delete_only_path ext_creation_path : pres.

Lemma ext_run_batch p s e k : preserves extends (run_batch env args p s e k).
Proof. unfold run_batch. cbv zeta. prog. Qed.
Hint Resolve ext_run_batch : pres.

Lemma ext_main_body p s e k : preserves extends (main_body env args p s e k).
Proof. unfold main_body. cbv zeta. prog. Qed.

Hint Resolve ext_main_body : pres.

Lemma ext_main : preserves extends (main env args).
Proof. unfold main. prog. Qed.

End Extends.

#[global] Hint Resolve ext_write_text ext_chmod ext_unlink ext_create_entity
  ext_delete_existing_configs ext_delete_only_path ext_creation_path ext_run_batch
  ext_main_body ext_main : pres.

(** From [H : m w = (r, w')], the events between [w] and [w']. *)
Ltac events_of H :=
  lazymatch type of H with
  | ?m ?w = (?r, ?w') =>
      let Hp := fresh in
      let evs := fresh "evs" in
      let Hev := fresh "Hev" in
      assert (preserves extends m) as Hp by prog;
      destruct (Hp _ _ _ H) as [evs Hev];
      clear Hp
  end.

Lemma trace_from_refl w : trace_from w w [].
Proof. unfold trace_from. by rewrite app_nil_r. Qed.

Lemma trace_from_trans w1 w2 w3 evs1 evs2 :
  trace_from w1 w2 evs1 -> trace_from w2 w3 evs2 -> trace_from w1 w3 (evs1 ++ evs2).
Proof. unfold trace_from. intros H1 H2. by rewrite H2, H1, app_assoc. Qed.

Lemma trace_from_inj w w' evs evs' :
  trace_from w w' evs -> trace_from w w' evs' -> evs = evs'.
Proof. unfold trace_from. intros H1 H2. rewrite H1 in H2. by apply app_inv_head in H2. Qed.

(** An event between two intermediate states is among the events of the
    whole run. *)
Lemma events_within w w1 w2 w' es evs e :
  extends w w1 -> trace_from w1 w2 es -> extends w2 w' -> trace_from w w' evs ->
  e ∈ es -> e ∈ evs.
Proof.
  intros [e1 H1] H2 [e3 H3] H Hin.
  pose proof (trace_from_trans _ _ _ _ _ (trace_from_trans _ _ _ _ _ H1 H2) H3) as H'.
  rewrite (trace_from_inj _ _ _ _ H H'). set_solver.
Qed.

Lemma quiet_trace_from w w' : quiet w w' -> exists evs, trace_from w w' evs.
Proof. intros (_ & _ & _ & evs & H & _). eauto. Qed.

Section DryRun.

Context (env : Env) (args : Args) (Hdry : dry_run args = true).

Lemma check_dependencies_trace w r w' :
  check_dependencies env w = (r, w') ->
  exists rest, trace_from w w'
    ([EvWhich "wg"; EvWhich "wg-quick"; EvWhich "ip"; EvWhich "systemctl"] ++ rest).
Proof.
  intros H. unfold check_dependencies, find_missing in H. run H.
  all: unfold trace_from; simpl; rewrite <-?app_assoc; simpl; eauto.
Qed.

Lemma api_handshake_trace url api_key w r w' :
  api_handshake env url api_key 5 w = (r, w') ->
  trace_from w w' [EvHttp (handshake_request url api_key)].
Proof. intros H. unfold api_handshake in H. by run H. Qed.

(** Events of the hypotheses about parts of the run, and the log of the
    goal rewritten as the old log followed by what came after. *)
Ltac trace_goal :=
  repeat match goal with
         | H : generate_keypair _ _ = _ |- _ => events_of H; clear H
         | H : generate_peers _ _ _ = _ |- _ => events_of H; clear H
         end;
  unfold trace_from in *; simpl in *;
  repeat match goal with
         | H : trace _ = _ |- _ => rewrite H; clear H
         end;
  rewrite <-?app_assoc.

Lemma create_entity_dry_line prefix digits c i w c1 w1 :
  create_entity env args prefix digits c i w = (Ok c1, w1) ->
  exists evs added, trace_from w w1 evs /\ summary c1 = summary c ++ added /\
    created c1 = created c + length added /\
    forall name pub peers, (name, pub, peers) ∈ added ->
      EvPrint (would_create_line args name) ∈ evs.
Proof using Hdry.
  intros H. unfold create_entity in H. cbv zeta in H. rewrite Hdry in H.
  run H.
  all: trace_goal.
  1-3: eexists _, []; (split; [reflexivity|]);
    (split; [by rewrite app_nil_r|]); (split; [simpl; lia|]);
    intros ??? Hin; by apply elem_of_nil in Hin.
  eexists _, [_]. split; [reflexivity|]. split; [done|].
  split; [simpl; lia|].
  intros name pub peers [= -> -> ->]%list_elem_of_singleton.
  unfold would_create_line. set_solver.
Qed.

Lemma create_loop_dry_lines prefix digits l c w c' w' :
  for_each (create_entity env args prefix digits) c l w = (Ok c', w') ->
  exists evs added, trace_from w w' evs /\ summary c' = summary c ++ added /\
    created c' = created c + length added /\
    forall name pub peers, (name, pub, peers) ∈ added ->
      EvPrint (would_create_line args name) ∈ evs.
Proof using Hdry.
  revert c w. induction l as [|i l IH]; intros c w H; simpl in H.
  { run H. exists [], []. split; [apply trace_from_refl|]. split; [by rewrite app_nil_r|].
    split; [simpl; lia|]. intros ??? Hin. by apply elem_of_nil in Hin. }
  apply bind_Ok_inv in H as (c1 & w1 & Hone & H).
  apply IH in H as (evs2 & added2 & Hev2 & Hsum2 & Hc2 & Hlines2).
  apply create_entity_dry_line in Hone as (evs1 & added1 & Hev1 & Hsum1 & Hc1 & Hlines1).
  exists (evs1 ++ evs2), (added1 ++ added2).
  split; [by eapply trace_from_trans|]. split; [by rewrite Hsum2, Hsum1, app_assoc|].
  split; [rewrite length_app; lia|].
  intros name pub peers [Hin|Hin]%elem_of_app; apply elem_of_app; eauto.
Qed.

Lemma creation_path_dry_lines prefix api_key digits start_num end_num w c w' evs :
  creation_path env args prefix api_key digits start_num end_num w = (Ok c, w') ->
  trace_from w w' evs ->
  created c = length (summary c) /\
  forall name pub peers, (name, pub, peers) ∈ summary c ->
    EvPrint (would_create_line args name) ∈ evs.
Proof using Hdry.
  intros H Hevs. unfold creation_path in H.
  apply bind_Ok_inv in H as (? & wa & Hpre & H).
  apply bind_Ok_inv in H as (c1 & wb & Hloop & H).
  assert (extends wb w') as Hafter.
  { match type of H with ?m _ = _ => assert (preserves extends m) as Hp by prog end.
    by eapply Hp. }
  assert (c1 = c) as ->.
  { apply bind_Ok_inv in H as (? & ? & _ & H). apply bind_Ok_inv in H as (? & ? & _ & H).
    by run H. }
  events_of Hpre.
  apply create_loop_dry_lines in Hloop as (evs2 & added & Hev2 & Hsum & Hc & Hlines).
  simpl in *. subst added. split; [done|]. intros name pub peers Hin.
  eapply (events_within w wa wb w'); eauto. by eexists.
Qed.

Lemma delete_only_dry_loop names w r w' :
  for_each (fun (_ : unit) name =>
              print (YELLOW +:+ "[DRY-RUN]" +:+ NC +:+ " Würde löschen: "
                     +:+ (target_dir args +:+ "/" +:+ (name +:+ ".conf")))) tt names w
    = (r, w') ->
  trace_from w w' (map (fun name => EvPrint (would_delete_line args name)) names).
Proof.
  revert w. induction names as [|name names IH]; intros w H; simpl in H.
  { run H. apply trace_from_refl. }
  run H. apply IH in H. unfold trace_from in *. simpl in *. by rewrite <-app_assoc in H.
Qed.

Lemma delete_only_path_dry_lines prefix digits start_num end_num w r w' evs :
  delete_only_path env args prefix digits start_num end_num w = (r, w') ->
  trace_from w w' evs ->
  forall name, name ∈ names_to_delete prefix digits start_num end_num ->
    EvPrint (would_delete_line args name) ∈ evs.
Proof using Hdry.
  intros H Hevs name Hname. unfold delete_only_path in H. rewrite Hdry in H. simpl in H.
  unfold when in H.
  apply bind_inv in H as [(? & w1 & H1 & H)|[(? & H1 & _)|(? & H1 & _)]]; [|by run H1..].
  apply bind_inv in H as [(? & w2 & H2 & H)|[(? & H2 & _)|(? & H2 & _)]]; [|by run H2..].
  run H1. run H2.
  apply bind_inv in H as [(? & w3 & H3 & H)|[(? & H3 & _)|(? & H3 & _)]].
  - apply delete_only_dry_loop in H3. run H.
    eapply (events_within w _ w3 _ _ evs); [| exact H3 | | exact Hevs |].
    + eexists [_]. done.
    + eexists [_]. done.
    + apply list_elem_of_fmap. eauto.
  - apply delete_only_dry_loop in H3.
    eapply (events_within w _ w' _ _ evs); [| exact H3 | | exact Hevs |].
    + eexists [_]. done.
    + reflexivity.
    + apply list_elem_of_fmap. eauto.
  - apply delete_only_dry_loop in H3.
    eapply (events_within w _ w' _ _ evs); [| exact H3 | | exact Hevs |].
    + eexists [_]. done.
    + reflexivity.
    + apply list_elem_of_fmap. eauto.
Qed.

End DryRun.

Section Inversions.

Context (env : Env) (args : Args).

Lemma main_body_Ok_events prefix start_num_str end_num_str api_key w oc w' :
  main_body env args prefix start_num_str end_num_str api_key w = (Ok oc, w') ->
  exists wa wb wc, extends w wa /\
    trace_from wa wb [EvHttp (handshake_request (dashboard_url args) api_key)] /\
    extends wb wc /\
    run_batch env args prefix start_num_str end_num_str api_key wc = (Ok oc, w').
Proof.
  intros H. unfold main_body in H. cbv zeta in H.
  apply bind_Ok_inv in H as (? & w1 & Hv1 & H).
  apply bind_Ok_inv in H as (? & w2 & Hv2 & H).
  apply bind_Ok_inv in H as (? & w3 & Hv3 & H).
  apply bind_Ok_inv in H as (? & w4 & Hset & H).
  apply bind_Ok_inv in H as (? & w5 & Hp & H).
  apply bind_Ok_inv in H as (? & w6 & Hh & H).
  apply bind_Ok_inv in H as (? & w7 & Hr & H).
  apply bind_Ok_inv in H as (? & w8 & Hok & H).
  apply bind_Ok_inv in H as (? & w9 & Hdir & H).
  events_of Hv1. events_of Hv2. events_of Hv3. events_of Hset. events_of Hp.
  events_of Hr. events_of Hok. events_of Hdir.
  apply api_handshake_trace in Hh.
  exists w5, w6, w9. split; [|split; [done|split; [|done]]].
  - do 4 (etrans; [by eexists|]). by eexists.
  - do 2 (etrans; [by eexists|]). by eexists.
Qed.

Lemma main_Ok_events w oc w' :
  main env args w = (Ok oc, w') ->
  exists prefix start_num_str end_num_str api_key w1, extends w w1 /\
    main_body env args prefix start_num_str end_num_str api_key w1 = (Ok oc, w').
Proof.
  intros H. unfold main in H.
  apply bind_Ok_inv in H as (prefix & w1 & H1 & H).
  apply bind_Ok_inv in H as (s & w2 & H2 & H).
  apply bind_Ok_inv in H as (e & w3 & H3 & H).
  apply bind_Ok_inv in H as (key & w4 & H4 & H).
  events_of H1. events_of H2. events_of H3. events_of H4.
  exists prefix, s, e, key, w4. split; [|done].
  do 3 (etrans; [by eexists|]). by eexists.
Qed.

Lemma run_batch_dry_inv prefix start_num_str end_num_str api_key w oc w' :
  dry_run args = true ->
  run_batch env args prefix start_num_str end_num_str api_key w = (Ok oc, w') ->
  (oc = None /\
   delete_only_path env args prefix (scope_digits start_num_str end_num_str)
     (int start_num_str) (int end_num_str) w = (Ok tt, w')) \/
  (exists c, oc = Some c /\
     creation_path env args prefix api_key (scope_digits start_num_str end_num_str)
       (int start_num_str) (int end_num_str) w = (Ok c, w')).
Proof.
  intros Hdry H. unfold run_batch in H. cbv zeta in H.
  rewrite Hdry, andb_false_r in H. simpl in H.
  apply bind_Ok_inv in H as (? & w1 & Hpre & H). run Hpre.
  destruct (delete_only args).
  - apply bind_Ok_inv in H as ([] & w2 & Hd & H). run H. by left.
  - apply bind_Ok_inv in H as (c & w2 & Hc & H). run H. right. eauto.
Qed.

End Inversions.



(** The scenario of the specification: prefix [APW], range 1 to 3, one
    peer section; the dry run counts three entities and writes no file,
    the run proper writes three records, readable by the owner only. *)
Example dry_run_scenario :
  Sample.dry_run_result.1
    = Ok (Some (Sample.counters_of Sample.dry_run_result.1)) /\
  created (Sample.counters_of Sample.dry_run_result.1) = 3 /\
  fs Sample.dry_run_result.2 = ∅.
Proof.
  split; [vm_compute; reflexivity|]. split; [vm_compute; reflexivity|].
  vm_compute. reflexivity.
Qed.

Example creation_scenario :
  map (fun kv => (kv.1, f_mode kv.2)) (map_to_list (fs Sample.first_run.2))
  = [("APW3.conf", 384); ("APW1.conf", 384); ("APW2.conf", 384)].
Proof. vm_compute. reflexivity. Qed.

(** ** What the dry run counts *)

Lemma emits_later w w1 w' e : extends w w1 -> emits w1 w' e -> emits w w' e.
Proof.
  intros [evs1 H1] (evs2 & H2 & He). exists (evs1 ++ evs2).
  split; [by eapply trace_from_trans|set_solver].
Qed.

Lemma emits_earlier w w1 w' e : emits w w1 e -> extends w1 w' -> emits w w' e.
Proof.
  intros (evs1 & H1 & He) [evs2 H2]. exists (evs1 ++ evs2).
  split; [by eapply trace_from_trans|set_solver].
Qed.

Lemma emits_trace w w' e : emits w w' e -> e ∈ trace w'.
Proof. intros (evs & H & He). rewrite H. set_solver. Qed.

(** An event every round of a loop emits for an element is among the
    events of the loop. *)
Lemma for_each_event {A B} (f : B -> A -> M B) (P : A -> event -> Prop) :
  (forall b a, preserves extends (f b a)) ->
  (forall b a w b' w' e, f b a w = (Ok b', w') -> P a e -> emits w w' e) ->
  forall l b w b' w' a e,
    for_each f b l w = (Ok b', w') -> a ∈ l -> P a e -> emits w w' e.
Proof.
  intros Hext Hone l. induction l as [|x l IH]; intros b w b' w' a e H Hin HP.
  { by apply elem_of_nil in Hin. }
  simpl in H. apply bind_Ok_inv in H as (b1 & w1 & H1 & H).
  apply elem_of_cons in Hin as [->|Hin].
  - eapply emits_earlier; [by eapply Hone|].
    eapply (preserves_for_each extends); [|done]. apply Hext.
  - eapply emits_later; [by eapply Hext|]. by eapply IH.
Qed.

(** Moves the goal [emits w w' e] past the first part of the program in
    [H : bind m f w = (Ok b, w')]. *)
Ltac emits_skip H :=
  let a := fresh "a" in
  let w1 := fresh "w" in
  let H1 := fresh "Hpart" in
  apply bind_Ok_inv in H as (a & w1 & H1 & H);
  eapply (emits_later _ w1);
  [ match type of H1 with
    | ?m _ = _ =>
        let Hp := fresh in
        assert (preserves extends m) as Hp by prog; exact (Hp _ _ _ H1)
    end
  | clear H1 ].

(** Reduces the goal [emits w w' e] to the first part of the program in
    [H : bind m f w = (Ok b, w')], which becomes [H1]. *)
Tactic Notation "emits_here" ident(H) "as" ident(H1) :=
  let a := fresh "a" in
  let w1 := fresh "w" in
  let H2 := fresh "Hrest" in
  apply bind_Ok_inv in H as (a & w1 & H1 & H2);
  eapply (emits_earlier _ w1);
  [
  | match type of H2 with
    | ?m _ = _ =>
        let Hp := fresh in
        assert (preserves extends m) as Hp by prog; exact (Hp _ _ _ H2)
    end ].

Section Listing.

Context (args : Args).

Lemma print_peer_keys_lines peer w r w' e :
  print_peer_keys peer w = (r, w') -> key_line_of peer e -> emits w w' e.
Proof.
  intros H He. unfold print_peer_keys in H. run H.
  all: eexists; (split; [unfold trace_from; simpl; rewrite <-?app_assoc; reflexivity|]).
  all: destruct He as [-> | ->]; unfold public_key_line, private_key_line; set_solver.
Qed.

Lemma print_peers_lines (peers : list Peer) w u w' peer e :
  for_each (fun (_ : unit) peer => print_peer_keys peer) tt peers w = (Ok u, w') ->
  peer ∈ peers -> key_line_of peer e -> emits w w' e.
Proof.
  apply (for_each_event (fun (_ : unit) peer => print_peer_keys peer) key_line_of).
  - intros. prog.
  - intros b a w0 b' w0' e0 H He. by eapply print_peer_keys_lines.
Qed.

(** The listing at the end of the run shows the keys of every peer of
    every entity on the summary. *)
Lemma print_summary_lines c w u w' name pub peers peer e :
  print_summary args c w = (Ok u, w') ->
  (name, pub, peers) ∈ summary c -> peer ∈ peers -> key_line_of peer e ->
  emits w w' e.
Proof.
  intros H Hin Hpeer He. unfold print_summary in H.
  do 7 emits_skip H. emits_here H as Hlist.
  destruct (summary c) as [|x l] eqn:Hsum; [by apply elem_of_nil in Hin|].
  do 3 emits_skip Hlist.
  eapply (for_each_event _ (fun entry e => exists peer, peer ∈ entry.2 /\ key_line_of peer e));
    [| |exact Hlist|exact Hin|by exists peer].
  - intros b [[n p] ps]. prog.
  - intros b [[n p] ps] wx b' wx' e0 H0 (q & Hq & He0). simpl in Hq.
    do 2 emits_skip H0. emits_here H0 as Hps. by eapply print_peers_lines.
Qed.

End Listing.

(** C10: in a dry run every entity that is not skipped and whose key
    generations all succeed is counted as created and put on the
    summary, and nothing is written; so at the end of the creation path
    the created count is the length of the summary, the directory is
    what it was, and the listing has printed the keys of every peer on
    the summary. *)
Theorem dry_run_counts_created env args prefix api_key digits start_num end_num w c w' :
  dry_run args = true ->
  creation_path env args prefix api_key digits start_num end_num w = (Ok c, w') ->
  created c = length (summary c) /\
  fs w' = fs w /\
  (forall name pub peers peer e,
     (name, pub, peers) ∈ summary c -> peer ∈ peers -> key_line_of peer e ->
     e ∈ trace w') /\
  (forall c0 i w0,
     fs w0 !! record_of prefix digits i = None \/ delete_existing args = true ->
     keys_ok env (S (length (extra_peers args))) (tick w0) = true ->
     exists w1,
       create_entity env args prefix digits c0 i w0
       = (Ok (count_created
                (summary_append
                   (prefix +:+ format_number i digits, (keypair_at env (tick w0)).2,
                    peers_from env (extra_peers args) (S (S (tick w0))))
                   (count_total c0))), w1) /\
       fs w1 = fs w0).
Proof.
  intros Hdry H. split; [|split; [|split]].
  - events_of H. by eapply creation_path_dry_lines.
  - by destruct (quiet_creation_path env args Hdry _ _ _ _ _ _ _ _ H) as (? & _).
  - intros name pub peers peer e Hin Hpeer He. unfold creation_path in H.
    apply bind_Ok_inv in H as (? & wa & _ & H).
    apply bind_Ok_inv in H as (c1 & wb & _ & H).
    apply bind_Ok_inv in H as (? & wc & _ & H).
    apply bind_Ok_inv in H as (? & wd & Hsum & H). run H.
    eapply emits_trace, print_summary_lines; eauto.
  - intros c0 i w0 Hnew Hkeys.
    destruct (create_entity env args prefix digits c0 i w0) as [r w1] eqn:Hone.
    exists w1. apply create_entity_spec in Hone. cbv zeta in Hone.
    destruct Hone as (_ & _ & [(Hex & Hde & _)|(_ & [(Hk & _)|(_ &
      [(_ & -> & Hfs & _)|[(Hd & _)|(Hd & _)]])])]).
    + exfalso. destruct Hnew as [Hnew|Hnew]; [|congruence].
      unfold record_of in Hnew. rewrite Hnew in Hex. by destruct Hex.
    + congruence.
    + done.
    + congruence.
    + congruence.
Qed.

Lemma dry_run_counts_created_witness :
  created (Sample.path_counters Sample.dry_creation.1) = 3 /\
  fs Sample.dry_creation.2 = fs Sample.empty_world.
Proof.
  assert (creation_path Sample.env_fine Sample.args_dry "APW" "secret" 1 1 3
            Sample.empty_world
          = (Ok (Sample.path_counters Sample.dry_creation.1), Sample.dry_creation.2)) as H
    by (vm_compute; reflexivity).
  destruct (dry_run_counts_created Sample.env_fine Sample.args_dry "APW" "secret" 1 1 3
              Sample.empty_world _ _ eq_refl H) as (Hc & Hfs & _).
  split; [|exact Hfs]. rewrite Hc. vm_compute. reflexivity.
Defined.

(** ** The purge of the store *)

Lemma lower_char_eqb c : Ascii.eqb (lower_char c) (lower_char c) = true.
Proof. apply Ascii.eqb_refl. Qed.

(** A name followed by [%] matches every text that begins with the
    name, whatever the name contains. *)
Lemma sql_like_prefix name rest : sql_like (name +:+ "%") (name +:+ rest) = true.
Proof.
  induction name as [|c name IH].
  - change ("" +:+ "%") with "%". change ("" +:+ rest) with rest.
    induction rest as [|d rest IH]; [reflexivity|].
    cbn [sql_like Ascii.eqb Bool.eqb] in *. rewrite IH. by rewrite orb_true_r.
  - change (String c name +:+ "%") with (String c (name +:+ "%")).
    change (String c name +:+ rest) with (String c (name +:+ rest)).
    cbn [sql_like]. destruct (Ascii.eqb c "%") eqn:Hpc.
    + apply orb_true_iff. right.
      destruct (name +:+ rest) eqn:E; rewrite IH; reflexivity.
    + destruct (Ascii.eqb c "_"); [done|]. by rewrite lower_char_eqb, IH.
Qed.

Lemma select_tables_elem sel tables name :
  name ∈ select_tables sel tables <-> sel name = true /\ name ∈ map fst tables.
Proof. unfold select_tables. rewrite list_elem_of_filter. done. Qed.

Lemma purge_for_spec db_path names tables w :
  names <> [] -> db w = Some tables ->
  let sel := fun table => existsb (fun pat => sql_like pat table)
                            (map (fun n => n +:+ "%") names) in
  (purge_wgdashboard_tables_for db_path names w).1 = Ok (select_tables sel tables) /\
  db (purge_wgdashboard_tables_for db_path names w).2 = Some (clear_tables sel tables).
Proof.
  intros Hne Hdb sel. unfold purge_wgdashboard_tables_for, bind, db_path_exists.
  rewrite Hdb. rewrite bool_decide_eq_true_2 by eauto. simpl.
  destruct names as [|n names]; [done|]. simpl. unfold sql_purge. rewrite Hdb. done.
Qed.



(** ** Rendering a record and reading it back *)

Lemma split_on_nonempty sep s : split_on sep s <> [].
Proof.
  destruct s as [|c s]; [done|]. simpl.
  destruct (Ascii.eqb c sep); [done|]. by destruct (split_on sep s).
Qed.

Lemma has_newline_cons c s :
  has_newline (String c s) = Ascii.eqb (ascii_of_nat 10) c || has_newline s.
Proof. reflexivity. Qed.

Lemma split_on_line line :
  has_newline line = false -> split_on (ascii_of_nat 10) line = [line].
Proof.
  induction line as [|c line IH]; [done|].
  rewrite has_newline_cons. intros [Hc Hl]%orb_false_iff.
  cbn [split_on]. rewrite Ascii.eqb_sym, Hc, (IH Hl). done.
Qed.

Lemma split_on_first_line line rest :
  has_newline line = false ->
  split_on (ascii_of_nat 10) (line +:+ nl +:+ rest)
  = line :: split_on (ascii_of_nat 10) rest.
Proof.
  induction line as [|c line IH].
  - intros _. reflexivity.
  - rewrite has_newline_cons. intros [Hc Hl]%orb_false_iff.
    change (String c line +:+ nl +:+ rest) with (String c (line +:+ nl +:+ rest)).
    cbn [split_on]. rewrite Ascii.eqb_sym, Hc, (IH Hl). done.
Qed.

Lemma split_on_join_cons line lines :
  has_newline line = false -> lines <> [] ->
  split_on (ascii_of_nat 10) (join nl (line :: lines))
  = line :: split_on (ascii_of_nat 10) (join nl lines).
Proof.
  intros Hl Hne. destruct lines as [|l2 lines]; [done|].
  change (join nl (line :: l2 :: lines)) with (line +:+ nl +:+ join nl (l2 :: lines)).
  by apply split_on_first_line.
Qed.

(** The lines that follow the interface section either are none or
    begin with the header of a peer section. *)
Lemma peer_lines_head peers :
  concat (map peer_lines peers) = []
  \/ exists more, concat (map peer_lines peers) = "[Peer]" :: more /\ more <> [].
Proof.
  destruct peers as [|p peers]; [by left|]. right.
  cbn [map concat]. unfold peer_lines at 1. cbn [app]. eexists. split; [reflexivity|done].
Qed.

Lemma has_newline_app a b :
  has_newline (a +:+ b) = has_newline a || has_newline b.
Proof.
  induction a as [|c a IH]; [done|].
  change (String c a +:+ b) with (String c (a +:+ b)).
  rewrite !has_newline_cons, IH. by rewrite orb_assoc.
Qed.

Lemma interface_section address listen_port interface_privkey peers :
  has_newline address = false -> has_newline listen_port = false ->
  has_newline interface_privkey = false ->
  section_body (drop_to_section "[Interface]"
     (split_on (ascii_of_nat 10)
        (create_config_text address listen_port interface_privkey peers)))
  = ["Address = " +:+ address; "SaveConfig = true"; "PreUp ="; "PostUp =";
     "PreDown ="; "PostDown ="; "ListenPort = " +:+ listen_port;
     "PrivateKey = " +:+ interface_privkey; ""].
Proof.
  intros Ha Hp Hk. unfold create_config_text, config_lines. cbn [app].
  repeat (rewrite split_on_join_cons;
          [| first [reflexivity | by rewrite has_newline_app, ?Ha, ?Hp, ?Hk] | done]).
  destruct (peer_lines_head peers) as [->|(more & -> & Hmore)].
  - reflexivity.
  - rewrite split_on_join_cons by done.
    rewrite split_on_join_cons by done. reflexivity.
Qed.

(** C7: for an address, a listen port and a private key that hold no
    line break, reading the rendered record back gives these three
    values, whatever the peers are. *)
Theorem render_then_parse address listen_port interface_privkey peers :
  has_newline address = false ->
  has_newline listen_port = false ->
  has_newline interface_privkey = false ->
  parse_interface (create_config_text address listen_port interface_privkey peers)
  = Some (address, listen_port, interface_privkey).
Proof.
  intros Ha Hp Hk. unfold parse_interface.
  rewrite (interface_section _ _ _ _ Ha Hp Hk). reflexivity.
Qed.

Lemma render_then_parse_witness :
  parse_interface (create_config_text "10.0.0.1/24" "51820" "priv" [])
  = Some ("10.0.0.1/24", "51820", "priv").
Proof.
  apply (render_then_parse "10.0.0.1/24" "51820" "priv" []); reflexivity.
Defined.

(** Without the restriction no reader can exist: two different pairs
    of address and listen port are rendered to the same text. *)
Lemma render_not_injective_counterexample :
  ~ exists parse : string -> string * string * string,
      forall address listen_port interface_privkey peers,
        parse (create_config_text address listen_port interface_privkey peers)
        = (address, listen_port, interface_privkey).
Proof.
  intros [parse Hparse].
  pose (middle := nl +:+ "SaveConfig = true" +:+ nl +:+ "PreUp =" +:+ nl +:+ "PostUp ="
                  +:+ nl +:+ "PreDown =" +:+ nl +:+ "PostDown =" +:+ nl
                  +:+ "ListenPort = ").
  pose proof (Hparse "x" ("y" +:+ middle +:+ "z") "k" []) as H1.
  pose proof (Hparse ("x" +:+ middle +:+ "y") "z" "k" []) as H2.
  assert (create_config_text "x" ("y" +:+ middle +:+ "z") "k" []
          = create_config_text ("x" +:+ middle +:+ "y") "z" "k" []) as Heq
    by (vm_compute; reflexivity).
  rewrite Heq, H2 in H1. vm_compute in H1. discriminate H1.
Qed.

(** ** Key material of the peers *)

Section Templates.
Context (env : Env) (args : Args).

(** The configured [public_key] of a template takes no part in the
    generation of the peers. *)
Lemma generate_peers_forget templates :
  generate_peers env (map forget_key templates) = generate_peers env templates.
Proof.
  induction templates as [|peer rest IH]; [done|].
  cbn [map generate_peers]. rewrite IH. reflexivity.
Qed.

Lemma create_entity_forget :
  create_entity env (forget_keys args) = create_entity env args.
Proof.
  unfold create_entity. cbn [extra_peers forget_keys].
  rewrite generate_peers_forget. reflexivity.
Qed.

Lemma create_loop_forget :
  create_loop env (forget_keys args) = create_loop env args.
Proof. unfold create_loop. rewrite create_entity_forget. reflexivity. Qed.

Lemma creation_path_forget :
  creation_path env (forget_keys args) = creation_path env args.
Proof. unfold creation_path. rewrite create_loop_forget. reflexivity. Qed.

Lemma run_batch_forget :
  run_batch env (forget_keys args) = run_batch env args.
Proof. unfold run_batch. rewrite creation_path_forget. reflexivity. Qed.

Lemma main_body_forget :
  main_body env (forget_keys args) = main_body env args.
Proof. unfold main_body. rewrite run_batch_forget. reflexivity. Qed.

Lemma script_forget : script env (forget_keys args) = script env args.
Proof. unfold script, main. rewrite main_body_forget. reflexivity. Qed.

(** The keys of the peers of one entity are those of the consultations
    [t], [t + 2], ... *)
Lemma peers_from_keys templates t :
  exists ts,
    map p_private_key (peers_from env templates t) = map (fun u => (keypair_at env u).1) ts /\
    map p_public_key (peers_from env templates t) = map (fun u => (keypair_at env u).2) ts /\
    NoDup ts /\ Forall (fun u => t <= u < t + 2 * length templates) ts.
Proof.
  revert t. induction templates as [|peer rest IH]; intros t.
  { exists []. repeat split; constructor. }
  destruct (IH (S (S t))) as (ts & Hpriv & Hpub & Hnd & Hrange).
  exists (t :: ts). cbn [peers_from map peer_of_template p_private_key p_public_key].
  rewrite Hpriv, Hpub. repeat split.
  - constructor; [|done]. intros Hin.
    rewrite Forall_forall in Hrange. apply Hrange in Hin. lia.
  - constructor; [simpl; lia|].
    eapply Forall_impl; [exact Hrange|]. simpl. intros; lia.
Qed.

Lemma summary_peers_app l1 l2 :
  summary_peers (l1 ++ l2) = summary_peers l1 ++ summary_peers l2.
Proof. unfold summary_peers. by rewrite map_app, concat_app. Qed.

Lemma summary_peers_one entry : summary_peers [entry] = entry.2.
Proof. unfold summary_peers. simpl. by rewrite app_nil_r. Qed.

(** The peers a loop adds to the summary carry the key pairs of
    pairwise different consultations, all of them made by the loop. *)
Lemma create_loop_keys prefix digits l c w c' w' :
  for_each (create_entity env args prefix digits) c l w = (Ok c', w') ->
  tick w <= tick w' /\
  exists added ts,
    summary_peers (summary c') = summary_peers (summary c) ++ added /\
    map p_private_key added = map (fun u => (keypair_at env u).1) ts /\
    map p_public_key added = map (fun u => (keypair_at env u).2) ts /\
    NoDup ts /\ Forall (fun u => tick w <= u < tick w') ts.
Proof.
  revert c w. induction l as [|i l IH]; intros c w H; simpl in H.
  { run H. split; [done|]. exists [], []. rewrite app_nil_r. repeat split; constructor. }
  apply bind_Ok_inv in H as (c1 & w1 & Hone & H).
  apply IH in H as (Hle & added & ts & Hsum & Hpriv & Hpub & Hnd & Hrange).
  apply create_entity_spec in Hone. cbv zeta in Hone.
  assert (tick w <= tick w1 /\
          ((summary c1 = summary c) \/
           (summary c1 = summary c ++ [(prefix +:+ format_number i digits,
                                         (keypair_at env (tick w)).2,
                                         peers_from env (extra_peers args) (S (S (tick w))))] /\
            tick w + 2 + 2 * length (extra_peers args) <= tick w1))) as [Hle1 Hcase].
  { destruct Hone as (_ & _ & [(_ & _ & ? & _ & ?)|(_ & [(_ & ? & _ & ?)|(_ &
      [(_ & ? & _ & ?)|[(_ & ? & _ & ?)|(_ & (? & ?) & _)]])])]); simplify_eq; simpl.
    - split; [lia|]. by left.
    - split; [lia|]. by left.
    - split; [lia|]. right. split; [done|lia].
    - split; [lia|]. right. split; [done|lia]. }
  split; [lia|]. destruct Hcase as [Hs|[Hs Ht]]; rewrite Hs in Hsum.
  - exists added, ts. repeat split; try done.
    eapply Forall_impl; [exact Hrange|]. simpl. intros; lia.
  - destruct (peers_from_keys (extra_peers args) (S (S (tick w))))
      as (ts1 & Hpriv1 & Hpub1 & Hnd1 & Hrange1).
    exists (peers_from env (extra_peers args) (S (S (tick w))) ++ added), (ts1 ++ ts).
    rewrite summary_peers_app, summary_peers_one, <-app_assoc in Hsum. cbn [snd] in Hsum.
    rewrite !map_app, Hpriv, Hpub, Hpriv1, Hpub1. repeat split; try done.
    + apply NoDup_app. repeat split; try done.
      intros u Hu1 Hu2. rewrite Forall_forall in Hrange, Hrange1.
      apply Hrange in Hu2. apply Hrange1 in Hu1. lia.
    + apply Forall_app. split.
      * eapply Forall_impl; [exact Hrange1|]. simpl. intros; lia.
      * eapply Forall_impl; [exact Hrange|]. simpl. intros; lia.
Qed.

End Templates.


Lemma rstrip_zeros sp k : sp "0"%char = false -> rstrip_with sp (zeros k) = zeros k.
Proof.
  intros Hsp. induction k as [|k IH]; [done|].
  cbn [zeros rstrip_with]. rewrite IH, Hsp. by destruct (zeros k).
Qed.

Lemma strip_key_text t : strip (Sample.key_text t) = Sample.key_text t.
Proof.
  unfold strip, Sample.key_text. cbn [lstrip_with].
  change (is_space "k") with false. cbn iota. cbn [rstrip_with].
  rewrite rstrip_zeros by reflexivity. by destruct (zeros t).
Qed.

Lemma strip_bytes_key_text t : strip_bytes (Sample.key_text t) = Sample.key_text t.
Proof.
  unfold strip_bytes, Sample.key_text. cbn [lstrip_with].
  change (is_space_bytes "k") with false. cbn iota. cbn [rstrip_with].
  rewrite rstrip_zeros by reflexivity. by destruct (zeros t).
Qed.

Lemma key_text_inj t1 t2 : Sample.key_text t1 = Sample.key_text t2 -> t1 = t2.
Proof.
  intros H. apply (f_equal String.length) in H. unfold Sample.key_text in H.
  simpl in H. rewrite !length_zeros in H. lia.
Qed.

Lemma distinct_keys_sample : distinct_keys Sample.env_fine.
Proof.
  intros t1 t2 Hne. unfold keypair_at, genkey_out, pubkey_out. simpl.
  rewrite !strip_key_text, !strip_bytes_key_text.
  split; intros H%key_text_inj; lia.
Qed.


(** ** Waiting for a service *)

Section Polling.
Context (env : Env).

(** Once the deadline is within [fuel] rounds, more rounds change
    nothing: every round that goes on costs at least [interval]. *)
Lemma poll_active_enough fuel k name end_time interval w :
  (end_time <= now w + N.of_nat fuel * interval)%N ->
  poll_active env (fuel + k) name end_time interval w
  = poll_active env fuel name end_time interval w.
Proof.
  revert w. induction fuel as [|fuel IH]; intros w Hend.
  - assert ((now w <? end_time)%N = false) as Hlt by (apply N.ltb_ge; lia).
    destruct k as [|k]; [done|]. simpl. unfold bind, time_time. by rewrite Hlt.
  - cbn [Nat.add poll_active]. unfold bind, time_time.
    destruct (now w <? end_time)%N; [|done].
    unfold run_cmd. cbn [andb negb].
    destruct (_ =? 0); [done|]. unfold sleep. apply IH. simpl.
    rewrite Nat2N.inj_succ, N.mul_succ_l in Hend. lia.
Qed.

Lemma rounds_reach_deadline timeout interval :
  (0 < interval)%N ->
  (timeout <= N.of_nat (S (N.to_nat (timeout / interval))) * interval)%N.
Proof.
  intros Hi. rewrite Nat2N.inj_succ, N2Nat.id, N.mul_succ_l.
  pose proof (N.mod_lt timeout interval ltac:(lia)).
  pose proof (N.div_mod timeout interval ltac:(lia)). lia.
Qed.

(** What a poll that ends says: [True] after an answer 0 of
    [systemctl is-active] given before the deadline, [False] when the
    deadline has passed; the files and the store are as before. *)
Lemma poll_active_verdict fuel name end_time interval w r w' :
  (end_time <= now w + N.of_nat fuel * interval)%N ->
  poll_active env fuel name end_time interval w = (r, w') ->
  fs w' = fs w /\ db w' = db w /\ dir_exists w' = dir_exists w /\
  ((r = Ok true /\ exists t, tick w <= t /\ tick w' = S t /\
      (proc env t (is_active_cmd name) None).1 = 0 /\
      last (trace w') = Some (EvCmd (is_active_cmd name) None)) \/
   (r = Ok false /\ (end_time <= now w')%N)).
Proof.
  revert w. induction fuel as [|fuel IH]; intros w Hend H.
  - simpl in H. run H. do 3 (split; [done|]). right. split; [done|]. lia.
  - cbn [poll_active] in H. unfold bind, time_time in H.
    destruct (now w <? end_time)%N eqn:Hlt.
    + unfold run_cmd in H. cbn [andb negb] in H.
      destruct (_ =? 0) eqn:Hrc.
      * unfold ret in H. simplify_eq. do 3 (split; [done|]). left. split; [done|].
        exists (tick w). simpl. split; [lia|]. split; [done|].
        split; [by apply Nat.eqb_eq|]. by rewrite last_snoc.
      * unfold sleep in H. apply IH in H as (Hf & Hd & Hx & Hcase).
        -- simpl in *. do 3 (split; [done|]).
           destruct Hcase as [(-> & t & Ht & Ht' & Hp & Hl)|(-> & Hn)].
           ++ left. split; [done|]. exists t. split; [lia|done].
           ++ right. done.
        -- simpl. rewrite Nat2N.inj_succ, N.mul_succ_l in Hend. lia.
    + unfold ret in H. simplify_eq. do 3 (split; [done|]). right. split; [done|].
      by apply N.ltb_ge.
Qed.

(** The poll always returns a verdict and leaves files, store and
    target directory alone. *)
Lemma poll_active_frame fuel name end_time interval w :
  let run := poll_active env fuel name end_time interval w in
  (exists b, run.1 = Ok b) /\ fs run.2 = fs w /\ db run.2 = db w /\
  dir_exists run.2 = dir_exists w.
Proof.
  revert w. induction fuel as [|fuel IH]; intros w; cbv zeta.
  { simpl. eauto. }
  cbn [poll_active]. unfold bind, time_time.
  destruct (now w <? end_time)%N; [|simpl; eauto].
  unfold run_cmd. cbn [andb negb].
  destruct (_ =? 0); [simpl; eauto|]. unfold sleep.
  match goal with |- context [poll_active env fuel name end_time interval ?w0] =>
    destruct (IH w0) as (Hb & Hf & Hd & Hx) end.
  cbv zeta in Hb, Hf, Hd, Hx. simpl in Hf, Hd, Hx. done.
Qed.

Lemma ensure_service_active_frame name timeout interval w :
  let run := ensure_service_active env name timeout interval w in
  (exists b, run.1 = Ok b) /\ fs run.2 = fs w /\ db run.2 = db w /\
  dir_exists run.2 = dir_exists w.
Proof. unfold ensure_service_active, bind, time_time. apply poll_active_frame. Qed.

End Polling.

(** X15: [ensure_service_active]: the bound on the number of rounds of the
    loop is never what ends it.  For a positive interval, any number of
    further rounds gives the same result and the same final state. *)
Theorem ensure_service_active_rounds env name timeout interval k w :
  (0 < interval)%N ->
  poll_active env (S (N.to_nat (timeout / interval)) + k) name
    (now w + timeout)%N interval w
  = ensure_service_active env name timeout interval w.
Proof.
  intros Hi. unfold ensure_service_active, bind, time_time.
  apply poll_active_enough.
  pose proof (rounds_reach_deadline timeout interval Hi). lia.
Qed.

Lemma ensure_service_active_rounds_witness :
  poll_active Sample.env_service_down (S (N.to_nat (10000 / 1000)) + 5) "wg-dashboard"
    (now Sample.empty_world + 10000)%N 1000%N Sample.empty_world
  = ensure_service_active Sample.env_service_down "wg-dashboard" 10000%N 1000%N
      Sample.empty_world.
Proof.
  apply (ensure_service_active_rounds Sample.env_service_down "wg-dashboard"
           10000%N 1000%N 5 Sample.empty_world).
  reflexivity.
Defined.

(** X16: [ensure_service_active] always returns, with [True] right after
    [systemctl is-active] answered 0, and with [False] only when the
    whole timeout has passed on the clock; it changes neither the files
    nor the store. *)
Theorem ensure_service_active_verdict env name timeout interval w r w' :
  (0 < interval)%N ->
  ensure_service_active env name timeout interval w = (r, w') ->
  fs w' = fs w /\ db w' = db w /\
  ((r = Ok true /\ exists t, tick w <= t /\ tick w' = S t /\
      (proc env t (is_active_cmd name) None).1 = 0 /\
      last (trace w') = Some (EvCmd (is_active_cmd name) None)) \/
   (r = Ok false /\ (now w + timeout <= now w')%N)).
Proof.
  intros Hi H. unfold ensure_service_active, bind, time_time in H.
  apply poll_active_verdict in H as (Hf & Hd & _ & Hcase); [done|].
  pose proof (rounds_reach_deadline timeout interval Hi). lia.
Qed.

Lemma ensure_service_active_verdict_witness :
  let run := ensure_service_active Sample.env_service_down "wg-dashboard" 10000%N 1000%N
               Sample.empty_world in
  fs run.2 = fs Sample.empty_world /\ db run.2 = db Sample.empty_world /\
  ((run.1 = Ok true /\ exists t, tick Sample.empty_world <= t /\ tick run.2 = S t /\
      (proc Sample.env_service_down t (is_active_cmd "wg-dashboard") None).1 = 0 /\
      last (trace run.2) = Some (EvCmd (is_active_cmd "wg-dashboard") None)) \/
   (run.1 = Ok false /\ (now Sample.empty_world + 10000 <= now run.2)%N)).
Proof.
  intros run.
  apply (ensure_service_active_verdict Sample.env_service_down "wg-dashboard"
           10000%N 1000%N Sample.empty_world run.1 run.2); [reflexivity|].
  vm_compute. reflexivity.
Defined.

(** ** Interfaces, routes and key pairs *)

Section Interfaces.
Context (env : Env).

(** The route deletions of [delete_interface_and_routes]: one command
    for every field of the list that is not blank. *)
Lemma route_loop name fields w r w' :
  for_each (fun _ raw_ip =>
              let ip_cidr := strip raw_ip in
              if negb (truthy ip_cidr) then ret tt
              else run_cmd env ["ip"; "-4"; "route"; "delete"; ip_cidr; "dev"; name]
                     true false None;; ret tt)
    tt fields w = (r, w') ->
  r = Ok tt /\ fs w' = fs w /\ db w' = db w /\
  trace w' = trace w ++ map (route_delete_event name)
                          (filter (fun ip => truthy ip = true) (map strip fields)).
Proof.
  revert w. induction fields as [|raw fields IH]; intros w H.
  { simpl in H. unfold ret in H. simplify_eq. by rewrite app_nil_r. }
  cbn [for_each map] in H. unfold bind at 1 in H. cbv zeta in H.
  cbn [map]. rewrite filter_cons. destruct (truthy (strip raw)) eqn:Hraw; cbn [negb] in H.
  - unfold bind at 1, run_cmd at 1 in H. cbn [andb] in H. unfold ret at 1 in H.
    rewrite decide_True by done.
    apply IH in H as (Hr & Hf & Hd & Ht). simpl in Hf, Hd, Ht.
    split; [exact Hr|]. split; [done|]. split; [done|].
    rewrite Ht. simpl. by rewrite <-app_assoc.
  - unfold ret at 1 in H. rewrite decide_False by done. by apply IH.
Qed.

Lemma start_interface_Ok name w : exists b, (start_interface env name w).1 = Ok b.
Proof.
  unfold start_interface, interface_running, bind, run_cmd, ret. cbn [andb].
  destruct ((proc env (tick w) ["ip"; "link"; "show"; name] None).1 =? 0); simpl; eauto.
Qed.

Lemma stop_interface_Ok name w : (stop_interface env name w).1 = Ok tt.
Proof.
  unfold stop_interface, interface_running, bind, run_cmd, ret. cbn [andb].
  destruct ((proc env (tick w) ["ip"; "link"; "show"; name] None).1 =? 0); simpl; [|done].
  by destruct ((proc env (S (tick w)) ["wg-quick"; "down"; name] None).1 =? 0).
Qed.

End Interfaces.

(** X9: [start_interface] never fails.  It answers [True] without a second
    command when [ip link show] finds the interface, and otherwise runs
    [wg-quick up] once and answers by its return code. *)
Theorem start_interface_commands env name w :
  let run := start_interface env name w in
  let shown := (proc env (tick w) ["ip"; "link"; "show"; name] None).1 =? 0 in
  let up := (proc env (S (tick w)) ["wg-quick"; "up"; name] None).1 =? 0 in
  run.1 = Ok (shown || up) /\ fs run.2 = fs w /\ db run.2 = db w /\
  trace run.2 = trace w ++ EvCmd ["ip"; "link"; "show"; name] None
                  :: (if shown then [] else [EvCmd ["wg-quick"; "up"; name] None]).
Proof.
  unfold start_interface, interface_running, bind, run_cmd, ret. cbn [andb].
  destruct (_ =? 0) eqn:Hshown; simpl.
  - done.
  - destruct (_ =? 0); simpl; by rewrite <-app_assoc.
Qed.

(** X10: [stop_interface] never fails and never touches an interface that
    [ip link show] does not find; [ip link delete] is the fall-back for
    a [wg-quick down] that did not succeed. *)
Theorem stop_interface_commands env name w :
  let run := stop_interface env name w in
  let shown := (proc env (tick w) ["ip"; "link"; "show"; name] None).1 =? 0 in
  let down := (proc env (S (tick w)) ["wg-quick"; "down"; name] None).1 =? 0 in
  run.1 = Ok tt /\ fs run.2 = fs w /\ db run.2 = db w /\
  trace run.2 = trace w ++ EvCmd ["ip"; "link"; "show"; name] None
                  :: (if shown
                      then EvCmd ["wg-quick"; "down"; name] None
                             :: (if down then [] else [EvCmd ["ip"; "link"; "delete"; name] None])
                      else []).
Proof.
  unfold stop_interface, interface_running, bind, run_cmd, ret. cbn [andb].
  destruct (_ =? 0) eqn:Hshown; simpl.
  - destruct ((proc env (S (tick w)) ["wg-quick"; "down"; name] None).1 =? 0);
      simpl; by rewrite <-?app_assoc.
  - done.
Qed.

(** X11: [delete_interface_and_routes] never fails and leaves the files and
    the store alone.  After stopping the interface it deletes the link
    and then one route for every entry of the comma-separated list that
    is not blank, in the order of the list and without its surrounding
    white space. *)
Theorem delete_interface_and_routes_commands env name peer_allowed_ips w :
  let run := delete_interface_and_routes env name peer_allowed_ips w in
  run.1 = Ok tt /\ fs run.2 = fs w /\ db run.2 = db w /\
  trace run.2
  = trace (stop_interface env name w).2
      ++ EvCmd ["ip"; "link"; "delete"; name] None
      :: map (route_delete_event name)
           (filter (fun ip => truthy ip = true) (map strip (split_on "," peer_allowed_ips))).
Proof.
  intros run. subst run.
  destruct (stop_interface_commands env name w) as (Hr & Hf & Hd & _).
  destruct (delete_interface_and_routes env name peer_allowed_ips w) as [r w'] eqn:H.
  unfold delete_interface_and_routes in H. unfold bind at 1 in H.
  destruct (stop_interface env name w) as [r1 w1].
  simpl in Hr, Hf, Hd. subst r1.
  unfold bind at 1, run_cmd at 1 in H. cbn [andb] in H.
  apply route_loop in H as (-> & Hf2 & Hd2 & Ht2). simpl in Hf2, Hd2, Ht2.
  simpl. split; [done|]. split; [by rewrite Hf2|]. split; [by rewrite Hd2|].
  rewrite Ht2. by rewrite <-app_assoc.
Qed.

(** X12: [generate_keypair]: the private key goes to [wg pubkey] on its
    standard input, followed by a line break, and the two commands are
    all that is run; a non-zero return code of either of them is raised
    as [CalledProcessError], the first one before [wg pubkey] is run. *)
Theorem generate_keypair_commands env w :
  let run := generate_keypair env w in
  let gen := proc env (tick w) ["wg"; "genkey"] None in
  let priv := strip gen.2 in
  let derived := proc env (S (tick w)) ["wg"; "pubkey"] (Some (priv +:+ nl)) in
  fs run.2 = fs w /\ db run.2 = db w /\
  (if gen.1 =? 0 then
     trace run.2 = trace w ++ [EvCmd ["wg"; "genkey"] None;
                               EvCmd ["wg"; "pubkey"] (Some (priv +:+ nl))] /\
     run.1 = (if derived.1 =? 0 then Ok (priv, strip_bytes derived.2)
              else Raise (CalledProcessError ["wg"; "pubkey"] derived.1))
   else
     trace run.2 = trace w ++ [EvCmd ["wg"; "genkey"] None] /\
     run.1 = Raise (CalledProcessError ["wg"; "genkey"] gen.1)).
Proof.
  unfold generate_keypair, bind, run_cmd, ret. cbn [andb].
  destruct ((proc env (tick w) ["wg"; "genkey"] None).1 =? 0); simpl.
  - destruct ((proc env (S (tick w)) ["wg"; "pubkey"]
                 (Some (strip (proc env (tick w) ["wg"; "genkey"] None).2 +:+ nl))).1 =? 0);
      simpl; by rewrite <-app_assoc.
  - done.
Qed.

(** ** The store of the dashboard *)

Lemma clear_tables_names sel tables : map fst (clear_tables sel tables) = map fst tables.
Proof.
  unfold clear_tables. rewrite map_map. apply map_ext. intros [n rows]. simpl.
  by destruct (sel n).
Qed.

Lemma clear_tables_selected sel tables name rows :
  (name, rows) ∈ clear_tables sel tables -> sel name = true -> rows = [].
Proof.
  unfold clear_tables. intros ([n r] & Heq & _)%list_elem_of_fmap Hsel. simpl in Heq.
  destruct (sel n) eqn:Hn; simplify_eq; [done|congruence].
Qed.

Lemma clear_tables_others sel tables name rows :
  sel name = false ->
  (name, rows) ∈ clear_tables sel tables <-> (name, rows) ∈ tables.
Proof.
  intros Hsel. unfold clear_tables. rewrite list_elem_of_fmap. split.
  - intros ([n r] & Heq & Hin). simpl in Heq.
    destruct (sel n) eqn:Hn; simplify_eq; [congruence|done].
  - intros Hin. exists (name, rows). simpl. by rewrite Hsel.
Qed.

Lemma sql_purge_events sel tables w :
  db w = Some tables ->
  sql_purge sel w
  = (Ok (select_tables sel tables),
     set_db (Some (clear_tables sel tables))
       (log EvSqlCommit (foldl (fun w t => log (EvSqlDelete t) w) w (select_tables sel tables)))).
Proof. intros Hdb. unfold sql_purge. by rewrite Hdb. Qed.

Lemma foldl_log_fields (f : string -> event) l w :
  let w' := foldl (fun w t => log (f t) w) w l in
  fs w' = fs w /\ db w' = db w /\ dir_exists w' = dir_exists w /\ tick w' = tick w /\
  now w' = now w /\ trace w' = trace w ++ map f l.
Proof.
  revert w. induction l as [|t l IH]; intros w; simpl.
  { by rewrite app_nil_r. }
  destruct (IH (log (f t) w)) as (? & ? & ? & ? & ? & Ht). simpl in *.
  repeat split; try done. rewrite Ht. by rewrite <-app_assoc.
Qed.

(** X13: [purge_wgdashboard_tables] on a store that exists: the tables whose
    names match the pattern lose all their rows, every other table keeps
    its rows, no table is dropped, and the result lists the names
    cleared; each of them is deleted from once, and there is one commit
    at the end. *)
Theorem purge_wgdashboard_tables_effect db_path pattern tables w :
  db w = Some tables ->
  let run := purge_wgdashboard_tables db_path pattern w in
  exists after,
    db run.2 = Some after /\ map fst after = map fst tables /\
    run.1 = Ok (filter (fun n => sql_like pattern n = true) (map fst tables)) /\
    (forall name rows, (name, rows) ∈ after -> sql_like pattern name = true -> rows = []) /\
    (forall name rows, sql_like pattern name = false ->
       (name, rows) ∈ after <-> (name, rows) ∈ tables) /\
    fs run.2 = fs w /\
    trace run.2
    = trace w ++ map EvSqlDelete (filter (fun n => sql_like pattern n = true) (map fst tables))
        ++ [EvSqlCommit].
Proof.
  intros Hdb run. subst run. unfold purge_wgdashboard_tables, bind, db_path_exists.
  rewrite Hdb. rewrite bool_decide_eq_true_2 by eauto. cbn [negb].
  rewrite (sql_purge_events _ tables w Hdb).
  exists (clear_tables (sql_like pattern) tables). simpl.
  destruct (foldl_log_fields EvSqlDelete (select_tables (sql_like pattern) tables) w)
    as (Hf & _ & _ & _ & _ & Ht). cbv zeta in Hf, Ht.
  split; [done|]. split; [apply clear_tables_names|]. split; [done|].
  split; [apply clear_tables_selected|]. split; [apply clear_tables_others|].
  split; [done|]. rewrite Ht. by rewrite <-app_assoc.
Qed.

Lemma purge_wgdashboard_tables_effect_witness :
  let run := purge_wgdashboard_tables "/opt/wgd/db.sqlite" "APW%" Sample.busy_world in
  exists after,
    db run.2 = Some after /\
    map fst after = map fst [("APW1", ["a"]); ("APW2", ["b"]); ("APW20", ["c"; "d"]);
                             ("APW3", ["e"])] /\
    run.1 = Ok (filter (fun n => sql_like "APW%" n = true)
                  (map fst [("APW1", ["a"]); ("APW2", ["b"]); ("APW20", ["c"; "d"]);
                            ("APW3", ["e"])])) /\
    (forall name rows, (name, rows) ∈ after -> sql_like "APW%" name = true -> rows = []) /\
    (forall name rows, sql_like "APW%" name = false ->
       (name, rows) ∈ after
       <-> (name, rows) ∈ [("APW1", ["a"]); ("APW2", ["b"]); ("APW20", ["c"; "d"]);
                            ("APW3", ["e"])]) /\
    fs run.2 = fs Sample.busy_world /\
    trace run.2
    = trace Sample.busy_world
        ++ map EvSqlDelete
             (filter (fun n => sql_like "APW%" n = true)
                (map fst [("APW1", ["a"]); ("APW2", ["b"]); ("APW20", ["c"; "d"]);
                          ("APW3", ["e"])]))
        ++ [EvSqlCommit].
Proof.
  apply (purge_wgdashboard_tables_effect "/opt/wgd/db.sqlite" "APW%"
           [("APW1", ["a"]); ("APW2", ["b"]); ("APW20", ["c"; "d"]); ("APW3", ["e"])]
           Sample.busy_world).
  reflexivity.
Defined.

(** X14: Without a store file [purge_wgdashboard_tables] and
    [purge_wgdashboard_tables_for] print one warning, return the empty
    list and create nothing. *)
Theorem purge_without_store db_path pattern names w :
  db w = None ->
  (exists text, purge_wgdashboard_tables db_path pattern w = (Ok [], log (EvPrint text) w)) /\
  (exists text,
     purge_wgdashboard_tables_for db_path names w = (Ok [], log (EvPrint text) w)).
Proof.
  intros Hdb. unfold purge_wgdashboard_tables, purge_wgdashboard_tables_for, bind,
    db_path_exists.
  rewrite Hdb. rewrite bool_decide_eq_false_2 by (by intros [? ?]). cbn [negb].
  split; eexists; reflexivity.
Qed.

Lemma purge_without_store_witness :
  (exists text, purge_wgdashboard_tables "/opt/wgd/db.sqlite" "APW%" Sample.empty_world
                = (Ok [], log (EvPrint text) Sample.empty_world)) /\
  (exists text, purge_wgdashboard_tables_for "/opt/wgd/db.sqlite" ["APW1"] Sample.empty_world
                = (Ok [], log (EvPrint text) Sample.empty_world)).
Proof.
  apply (purge_without_store "/opt/wgd/db.sqlite" "APW%" ["APW1"] Sample.empty_world).
  reflexivity.
Defined.

Section Cleanup.
Context (env : Env).

Lemma restart_service_run name action w :
  restart_service env name action w
  = (Ok ((proc env (tick w) ["systemctl"; action; name] None).1 =? 0),
     step (proc_ms env (tick w)) (log (EvCmd ["systemctl"; action; name] None) w)).
Proof. reflexivity. Qed.

Lemma purge_db db_path pattern w :
  let run := purge_wgdashboard_tables db_path pattern w in
  db run.2 = clear_tables (sql_like pattern) <$> db w /\ tick run.2 = tick w /\
  fs run.2 = fs w /\ exists cleared, run.1 = Ok cleared.
Proof.
  cbv zeta. unfold purge_wgdashboard_tables, bind, db_path_exists.
  destruct (db w) as [tables|] eqn:Hdb.
  - rewrite bool_decide_eq_true_2 by eauto. cbn [negb].
    rewrite (sql_purge_events _ tables w Hdb). simpl.
    destruct (foldl_log_fields EvSqlDelete (select_tables (sql_like pattern) tables) w)
      as (Hf & _ & _ & Hk & _ & Ht). cbv zeta in Hf, Hk, Ht.
    split; [done|]. split; [done|]. split; [done|]. eauto.
  - rewrite bool_decide_eq_false_2 by (by intros [? ?]). cbn [negb]. simpl.
    rewrite Hdb. split; [done|]. split; [done|]. split; [done|]. eauto.
Qed.

End Cleanup.

(** X17: The clean-up before a creation run does not depend on the prefix of
    the batch: it clears every table whose name matches [APW%], however
    it ends, and leaves the files alone.  When [systemctl stop] did not
    succeed, that command is the only one run: the service is not
    started, nothing is polled, and the clean-up returns. *)
Theorem run_pre_creation_cleanup_store env db_path service w :
  let run := run_pre_creation_cleanup env db_path service w in
  db run.2 = clear_tables (sql_like "APW%") <$> db w /\
  fs run.2 = fs w /\
  (((proc env (tick w) ["systemctl"; "stop"; service] None).1 =? 0) = true \/
   run.1 = Ok tt /\ tick run.2 = S (tick w)).
Proof.
  intros run. subst run.
  destruct (run_pre_creation_cleanup env db_path service w) as [r w'] eqn:H.
  unfold run_pre_creation_cleanup in H.
  unfold bind at 1, print, print_end in H.
  unfold bind at 1 in H. rewrite restart_service_run in H.
  unfold bind at 1 in H.
  match type of H with context [purge_wgdashboard_tables ?d ?p ?w0] =>
    destruct (purge_db d p w0) as (Hdb & Htick & Hfs & Hr1);
    destruct (purge_wgdashboard_tables d p w0) as [r1 w1] end.
  cbv zeta in Hdb, Htick, Hfs, Hr1.
  cbn [fst snd db fs tick log step] in Hdb, Htick, Hfs, Hr1.
  destruct Hr1 as [cleared ->].
  unfold bind at 1, print, print_end in H. cbn [tick log] in H.
  destruct ((proc env (tick w) ["systemctl"; "stop"; service] None).1 =? 0) eqn:Hstop.
  - unfold bind at 1 in H. rewrite restart_service_run in H.
    unfold bind at 1 in H.
    match type of H with context [ensure_service_active env ?s ?t ?i ?w0] =>
      destruct (ensure_service_active_frame env s t i w0) as ([b Hb] & Hf2 & Hd2 & _);
      destruct (ensure_service_active env s t i w0) as [r2 w2] end.
    cbv zeta in Hb, Hf2, Hd2. simpl in Hb, Hf2, Hd2. subst r2.
    assert (db w' = db w2 /\ fs w' = fs w2) as [Hd' Hf'].
    { destruct b; simpl in H; unfold bind, print, print_end, sys_exit, ret in H;
        simplify_eq; done. }
    cbn [fst snd].
    split; [by rewrite Hd', Hd2, Hdb|]. split; [by rewrite Hf', Hf2, Hfs|]. by left.
  - unfold ret in H. simplify_eq. cbn [fst snd db fs tick log].
    split; [done|]. split; [done|]. by right.
Qed.

(** ** Start-up: dependencies, inputs, the handshake *)

Section Startup.
Context (env : Env).

Lemma find_missing_run binaries w :
  find_missing env binaries w
  = (Ok (filter (fun b => which env b = false) binaries),
     foldl (fun w b => log (EvWhich b) w) w binaries).
Proof.
  revert w. induction binaries as [|b rest IH]; intros w; [done|].
  cbn [find_missing foldl]. unfold bind at 1, shutil_which at 1.
  unfold bind at 1. rewrite IH. unfold ret. rewrite filter_cons.
  destruct (which env b); [by rewrite decide_False|by rewrite decide_True].
Qed.

Lemma check_dependencies_run w :
  let binaries := ["wg"; "wg-quick"; "ip"; "systemctl"] in
  let missing := filter (fun b => which env b = false) binaries in
  let looked := foldl (fun w b => log (EvWhich b) w) w binaries in
  check_dependencies env w
  = match missing with
    | [] => (Ok tt, looked)
    | _ => (Exit 1,
            log (EvPrint ((RED +:+ "Fehler: Fehlende Abhängigkeiten: "
                           +:+ join ", " missing +:+ NC) +:+ nl)) looked)
    end.
Proof.
  cbv zeta. unfold check_dependencies. unfold bind at 1. rewrite find_missing_run.
  by destruct (filter _ _).
Qed.

Lemma print_settings_run args prefix start_num end_num w :
  exists w1, print_settings args prefix start_num end_num w = (Ok tt, w1) /\
    fs w1 = fs w /\ db w1 = db w /\ dir_exists w1 = dir_exists w /\ tick w1 = tick w /\
    now w1 = now w.
Proof.
  unfold print_settings, bind, print, print_end, when, ret.
  destruct (delete_existing args), (dry_run args); eexists; (split; [reflexivity|done]).
Qed.

Lemma str_nonempty n : truthy (str n) = true.
Proof. pose proof (str_length_pos n). destruct (str n); [simpl in *; lia|done]. Qed.

Lemma str_Z_nonempty z : truthy (str_Z z) = true.
Proof. unfold str_Z. destruct (z <? 0)%Z; [done|apply str_nonempty]. Qed.

Lemma str_Z_negative z : (z < 0)%Z -> isdigit (str_Z z) = false.
Proof. intros Hz. unfold str_Z. apply Z.ltb_lt in Hz. by rewrite Hz. Qed.

Lemma main_given args prefix s e api_key w :
  a_prefix args = Some prefix -> truthy prefix = true ->
  a_start args = Some s -> a_end args = Some e ->
  a_api_key args = Some api_key -> truthy api_key = true ->
  main env args w = main_body env args prefix (str_Z s) (str_Z e) api_key w.
Proof.
  intros Hp Hpt Hs He Hk Hkt. unfold main, prompt_if_empty.
  rewrite Hp, Hs, He, Hk, Hpt, Hkt. cbn [fmap option_fmap option_map].
  rewrite !str_Z_nonempty. reflexivity.
Qed.

Lemma main_body_invalid args prefix start_num_str end_num_str api_key w :
  valid_inputs prefix start_num_str end_num_str api_key = false ->
  exists text,
    main_body env args prefix start_num_str end_num_str api_key w
    = (Exit 1, log (EvPrint text) w).
Proof.
  unfold valid_inputs, main_body. intros Hbad.
  unfold bind at 1. unfold when at 1.
  destruct (truthy prefix), (isdigit start_num_str), (isdigit end_num_str);
    cbn [negb orb andb] in *;
    try (unfold bind, print, print_end, sys_exit; eexists; reflexivity).
  unfold ret at 1. cbv zeta. unfold bind at 1. unfold when at 1.
  destruct (int end_num_str <? int start_num_str) eqn:Hlt.
  { unfold bind, print, print_end, sys_exit; eexists; reflexivity. }
  apply Nat.ltb_ge in Hlt. apply Nat.leb_le in Hlt. rewrite Hlt in Hbad.
  cbn [andb] in Hbad. rewrite Hbad. unfold ret at 1.
  unfold bind at 1. unfold when at 1. cbn [negb].
  unfold bind, print, print_end, sys_exit; eexists; reflexivity.
Qed.

End Startup.

(** X1: [check_dependencies] looks the four programs up in a fixed order
    and ends the run with code 1 exactly when one of them is missing,
    after one message that names the missing ones in that order;
    nothing else happens. *)
Theorem check_dependencies_verdict env w :
  let binaries := ["wg"; "wg-quick"; "ip"; "systemctl"] in
  let missing := filter (fun b => which env b = false) binaries in
  let run := check_dependencies env w in
  run.1 = (if decide (missing = []) then Ok tt else Exit 1) /\
  fs run.2 = fs w /\ db run.2 = db w /\ tick run.2 = tick w /\
  trace run.2
  = trace w ++ map EvWhich binaries
      ++ (if decide (missing = []) then []
          else [EvPrint ((RED +:+ "Fehler: Fehlende Abhängigkeiten: "
                          +:+ join ", " missing +:+ NC) +:+ nl)]).
Proof.
  intros binaries missing run. subst run. rewrite check_dependencies_run. cbv zeta.
  fold binaries. fold missing.
  destruct missing as [|m ms]; simpl; by rewrite <-!app_assoc.
Qed.

(** X2: The script runs [main] only behind [check_dependencies]: when a
    program is missing, the script ends with code 1 before anything is
    asked, requested or changed. *)
Theorem script_needs_dependencies env args binary w :
  binary ∈ ["wg"; "wg-quick"; "ip"; "systemctl"] ->
  which env binary = false ->
  (script env args w).1 = Exit 1 /\
  (script env args w).2 = (check_dependencies env w).2 /\
  fs (script env args w).2 = fs w /\ db (script env args w).2 = db w /\
  tick (script env args w).2 = tick w.
Proof.
  intros Hin Hmiss.
  assert (filter (fun b => which env b = false) ["wg"; "wg-quick"; "ip"; "systemctl"] <> [])
    as Hne.
  { intros Hnil. assert (binary ∈ filter (fun b => which env b = false)
                           ["wg"; "wg-quick"; "ip"; "systemctl"]) as Hb
      by (by apply list_elem_of_filter).
    rewrite Hnil in Hb. by apply elem_of_nil in Hb. }
  pose proof (check_dependencies_run env w) as Hrun. cbv zeta in Hrun.
  destruct (foldl_log_fields EvWhich ["wg"; "wg-quick"; "ip"; "systemctl"] w)
    as (Hf & Hd & _ & Hk & _). cbv zeta in Hf, Hd, Hk.
  destruct (filter (fun b => which env b = false) ["wg"; "wg-quick"; "ip"; "systemctl"])
    as [|m ms]; [done|].
  assert (script env args w = (Exit 1, (check_dependencies env w).2)) as ->.
  { unfold script. unfold bind at 1. by rewrite Hrun. }
  rewrite Hrun. cbn [fst snd fs db tick log]. by rewrite Hf, Hd, Hk.
Qed.

Lemma script_needs_dependencies_witness :
  let run := script (Sample.env_without "wg-quick") Sample.args_create Sample.empty_world in
  run.1 = Exit 1 /\
  run.2 = (check_dependencies (Sample.env_without "wg-quick") Sample.empty_world).2 /\
  fs run.2 = fs Sample.empty_world /\ db run.2 = db Sample.empty_world /\
  tick run.2 = tick Sample.empty_world.
Proof.
  apply (script_needs_dependencies (Sample.env_without "wg-quick") Sample.args_create
           "wg-quick" Sample.empty_world).
  - set_solver.
  - reflexivity.
Defined.

(** X3: [main] asks for nothing that the command line gave: with a
    non-empty prefix and API key and with both numbers, it goes to the
    validation at once, with the numbers in the decimal form of
    [str]. *)
Theorem main_without_prompts env args prefix s e api_key w :
  a_prefix args = Some prefix -> truthy prefix = true ->
  a_start args = Some s -> a_end args = Some e ->
  a_api_key args = Some api_key -> truthy api_key = true ->
  main env args w = main_body env args prefix (str_Z s) (str_Z e) api_key w.
Proof. apply main_given. Qed.

Lemma main_without_prompts_witness :
  main Sample.env_fine Sample.args_create Sample.empty_world
  = main_body Sample.env_fine Sample.args_create "APW" (str_Z 1) (str_Z 3) "secret"
      Sample.empty_world.
Proof.
  apply (main_without_prompts Sample.env_fine Sample.args_create "APW" 1%Z 3%Z "secret"
           Sample.empty_world); reflexivity.
Defined.



(** X5: A negative [--start] or [--end] never passes the validation: its
    decimal form begins with a minus sign. *)
Theorem main_rejects_negative env args prefix s e api_key w :
  a_prefix args = Some prefix -> truthy prefix = true ->
  a_start args = Some s -> a_end args = Some e ->
  a_api_key args = Some api_key -> truthy api_key = true ->
  (s < 0 \/ e < 0)%Z ->
  exists text, main env args w = (Exit 1, log (EvPrint text) w).
Proof.
  intros Hp Hpt Hs He Hk Hkt Hneg.
  rewrite (main_given env args prefix s e api_key w Hp Hpt Hs He Hk Hkt).
  apply main_body_invalid. unfold valid_inputs.
  destruct Hneg as [Hneg|Hneg]; rewrite (str_Z_negative _ Hneg).
  - by rewrite andb_false_r.
  - by rewrite !andb_false_r.
Qed.

Lemma main_rejects_negative_witness :
  exists text,
    main Sample.env_fine (Sample.with_range "APW" (-2) 3 Sample.args_create)
      Sample.empty_world
    = (Exit 1, log (EvPrint text) Sample.empty_world).
Proof.
  apply (main_rejects_negative Sample.env_fine
           (Sample.with_range "APW" (-2) 3 Sample.args_create) "APW" (-2)%Z 3%Z "secret"
           Sample.empty_world); try reflexivity.
  left. reflexivity.
Defined.




(** ** Registration with the dashboard *)

Section Registration.
Context (env : Env) (args : Args).

Lemma register_entity_outcome api_key counts entry w r w' :
  register_entity env args api_key counts entry w = (r, w') ->
  (exists s f, r = Ok (s, f) /\ s + f = counts.1 + counts.2 + length entry.2) \/
  r = Raise AttributeError.
Proof.
  intros H. destruct entry as [[config_name pub] peers]. unfold register_entity in H.
  destruct peers as [|peer peers].
  { run H. left. exists counts.1, counts.2. split; [by destruct counts|simpl; lia]. }
  run H.
  all: try absurd_exit.
  all: try (left; eexists _, _; split; [done|]; simpl; lia).
  all: try match goal with
       | Hl : for_each (push_peer env args _ _) _ _ _ = _ |- _ =>
           apply push_peers_outcome in Hl as [(s & f & ? & Hsf)|?]; simplify_eq
       end.
  all: try (left; eexists _, _; split; [done|]; simpl in *; lia).
  all: try by right.
  all: try match goal with
       | Hs : stop_interface env ?n ?w0 = (?r, _) |- _ =>
           pose proof (stop_interface_Ok env n w0) as X; rewrite Hs in X; by simpl in X
       end.
  all: try match goal with
       | Hs : start_interface env ?n ?w0 = (?r, _) |- _ =>
           destruct (start_interface_Ok env n w0) as [b X]; rewrite Hs in X; by simpl in X
       end.
Qed.

Lemma register_loop_outcome api_key l counts w r w' :
  for_each (register_entity env args api_key) counts l w = (r, w') ->
  (exists s f, r = Ok (s, f) /\
     s + f = counts.1 + counts.2 + length (summary_peers l)) \/
  r = Raise AttributeError.
Proof.
  revert counts w. induction l as [|entry l IH]; intros counts w H; simpl in H.
  { run H. left. exists counts.1, counts.2. split; [by destruct counts|simpl; lia]. }
  run H.
  - apply register_entity_outcome in Hrun as [(s & f & ? & Hsf)|?]; [|done].
    simplify_eq. apply IH in H as [(s' & f' & -> & Hsf')|?]; [|by right].
    left. exists s', f'. split; [done|].
    unfold summary_peers in *. simpl in *. rewrite length_app. lia.
  - absurd_exit.
  - apply register_entity_outcome in Hrun as [(s & f & ? & Hsf)|?]; [done|]. by right.
Qed.

End Registration.

(** X22: The two numbers of the line [API-Updates] add up to the number of
    peers in the summary: every peer of every created entity is counted
    once, as a success or as a failure, also when the interface of its
    entity could not be started. *)
Theorem register_counts env args api_key entries w counts w' :
  for_each (register_entity env args api_key) (0, 0) entries w = (Ok counts, w') ->
  counts.1 + counts.2 = length (summary_peers entries).
Proof.
  intros H. apply register_loop_outcome in H as [(s & f & [= ->] & Hsf)|?]; [|done].
  simpl in *. lia.
Qed.

Lemma register_counts_witness :
  let run := for_each (register_entity Sample.env_refusing Sample.args_create "secret")
               (0, 0) (summary Sample.first_loop.1) Sample.first_loop.2 in
  run.1 = Ok (0, 3) /\
  (0, 3).1 + (0, 3).2 = length (summary_peers (summary Sample.first_loop.1)).
Proof.
  intros run.
  assert (run = (Ok (0, 3), run.2)) as H by (vm_compute; reflexivity).
  split; [by rewrite H|].
  exact (register_counts Sample.env_refusing Sample.args_create "secret"
           (summary Sample.first_loop.1) Sample.first_loop.2 (0, 3) run.2 H).
Defined.

(** X23: An entity whose interface is down and cannot be brought up gets no
    request at all: after the two commands its peers are all counted
    as failures, and one line says so. *)
Theorem register_entity_interface_down env args api_key counts config_name pub peers w :
  peers <> [] ->
  ((proc env (S (tick w)) ["ip"; "link"; "show"; config_name] None).1 =? 0) = false ->
  ((proc env (S (S (tick w))) ["wg-quick"; "up"; config_name] None).1 =? 0) = false ->
  let run := register_entity env args api_key counts (config_name, pub, peers) w in
  run.1 = Ok (counts.1, counts.2 + length peers) /\
  trace run.2
  = trace w ++ [EvPrint (("  " +:+ config_name +:+ ": ") +:+ "");
                EvSleep 3000;
                EvCmd ["ip"; "link"; "show"; config_name] None;
                EvCmd ["wg-quick"; "up"; config_name] None;
                EvPrint ((RED +:+ "Interface-Start fehlgeschlagen" +:+ NC) +:+ nl)].
Proof.
  intros Hne Hshow Hup run. subst run. destruct peers as [|peer peers]; [done|].
  unfold register_entity, start_interface, interface_running.
  unfold bind, print, print_end, sleep, run_cmd, ret.
  cbn [andb tick log step fst snd]. rewrite Hshow. cbn [tick log step fst snd].
  rewrite Hup. cbn [negb fst snd trace log step]. by rewrite <-!app_assoc.
Qed.

Lemma register_entity_interface_down_witness :
  let run := register_entity Sample.env_no_interface Sample.args_create "secret" (0, 0)
               ("APW1", "pub", [peer_of_template Sample.template "priv" "pub"])
               Sample.empty_world in
  run.1 = Ok ((0, 0).1, (0, 0).2 + length [peer_of_template Sample.template "priv" "pub"]) /\
  trace run.2
  = trace Sample.empty_world
      ++ [EvPrint (("  " +:+ "APW1" +:+ ": ") +:+ "");
          EvSleep 3000;
          EvCmd ["ip"; "link"; "show"; "APW1"] None;
          EvCmd ["wg-quick"; "up"; "APW1"] None;
          EvPrint ((RED +:+ "Interface-Start fehlgeschlagen" +:+ NC) +:+ nl)].
Proof.
  apply (register_entity_interface_down Sample.env_no_interface Sample.args_create "secret"
           (0, 0) "APW1" "pub" [peer_of_template Sample.template "priv" "pub"]
           Sample.empty_world); [done|reflexivity|reflexivity].
Defined.

(** X8: [update_wgdashboard_peer] sends exactly one request, whatever the
    answer: a [POST] to [/api/updatePeerSettings/<config>] whose body
    carries the public key as [id], the private key of the peer, and
    an empty pre-shared key.  Files and store are not touched. *)
Theorem update_peer_request env url api_key config_name pub priv name dns ips eips mtu ka
    ep w :
  let rq := update_request url api_key config_name pub priv name dns ips eips mtu ka ep in
  let run := update_wgdashboard_peer env url api_key config_name pub priv name dns ips eips
               mtu ka ep w in
  trace run.2 = trace w ++ [EvHttp rq] /\ tick run.2 = S (tick w) /\
  fs run.2 = fs w /\ db run.2 = db w /\
  rq_method rq = "POST" /\
  rq_url rq = url +:+ "/api/updatePeerSettings/" +:+ config_name /\
  exists payload,
    rq_data rq = Some payload /\
    ("id", JStr pub) ∈ payload /\ ("private_key", JStr priv) ∈ payload /\
    ("preshared_key", JStr "") ∈ payload.
Proof.
  intros rq run. subst run.
  assert (trace (update_wgdashboard_peer env url api_key config_name pub priv name dns ips
                   eips mtu ka ep w).2 = trace w ++ [EvHttp rq] /\
          tick (update_wgdashboard_peer env url api_key config_name pub priv name dns ips
                  eips mtu ka ep w).2 = S (tick w) /\
          fs (update_wgdashboard_peer env url api_key config_name pub priv name dns ips
                eips mtu ka ep w).2 = fs w /\
          db (update_wgdashboard_peer env url api_key config_name pub priv name dns ips
                eips mtu ka ep w).2 = db w) as (Ht & Hk & Hf & Hd).
  { unfold update_wgdashboard_peer, bind, urlopen. cbv zeta.
    fold (update_request url api_key config_name pub priv name dns ips eips mtu ka ep).
    fold rq.
    destruct (http env (tick w) rq) as [|code|status text]; [done..|].
    destruct (negb (status =? 200)); [done|].
    destruct (json_loads env _) as [[]|]; done. }
  split; [done|]. split; [done|]. split; [done|]. split; [done|].
  split; [done|]. split; [done|]. eexists. split; [reflexivity|].
  unfold peer_payload. set_solver.
Qed.

(** ** What a run leaves in the target directory *)

#[global] Instance adds_only_preorder P : PreOrder (adds_only P).
Proof.
  split; [intros m name f H; by left|].
  intros m1 m2 m3 H1 H2 name f H. destruct (H2 name f H) as [H'|?]; [|by right].
  apply H1, H'.
Qed.

Lemma adds_only_delete P (m : gmap string file) name : adds_only P m (delete name m).
Proof. intros n f H. left. by apply lookup_delete_Some in H as [_ ?]. Qed.

Lemma adds_only_weaken (P Q : string -> file -> Prop) m m' :
  (forall name f, P name f -> Q name f) -> adds_only P m m' -> adds_only Q m m'.
Proof. intros HPQ H name f Hf. destruct (H name f Hf); [by left|right; eauto]. Qed.

Lemma length_peers_from env templates t :
  length (peers_from env templates t) = length templates.
Proof.
  revert t. induction templates as [|peer rest IH]; intros t; [done|].
  simpl. by rewrite IH.
Qed.

Section Written.
Context (env : Env) (args : Args).

(** The sweep of [--delete-existing] only deletes. *)
Lemma adds_delete_existing_configs dir allowed :
  preserves (on_fs (adds_only (fun _ _ => False))) (delete_existing_configs env dir allowed).
Proof.
  unfold delete_existing_configs. prog.
  apply fs_unlink; [apply _|]. intros m0. apply adds_only_delete.
Qed.

(** A loop that comes back has added nothing but records of the
    numbers it went through. *)
Lemma create_loop_written prefix digits l c w c' w' :
  for_each (create_entity env args prefix digits) c l w = (Ok c', w') ->
  adds_only (fun name f => exists i, i ∈ l /\ name = record_of prefix digits i /\
                                     rendered_record args f)
    (fs w) (fs w').
Proof.
  revert c w. induction l as [|i l IH]; intros c w H; simpl in H.
  { run H. intros name f Hf. by left. }
  apply bind_Ok_inv in H as (c1 & w1 & Hone & H).
  apply IH in H. apply create_entity_spec in Hone. cbv zeta in Hone.
  intros name f Hf. destruct (H name f Hf) as [Hw1|(j & Hj & -> & Hr)].
  2:{ right. exists j. split; [set_solver|done]. }
  destruct Hone as (_ & _ & [(_ & _ & _ & Hfs & _)|(_ & [(_ & _ & Hfs & _)|(_ &
    [(_ & _ & Hfs & _)|[(_ & _ & Hfs & _)|(_ & (? & ?) & _)]])])]); simplify_eq;
    try (left; by rewrite <-Hfs).
  rewrite Hfs in Hw1. apply lookup_insert_Some in Hw1 as [[<- <-]|[_ Hold]]; [|by left].
  right. exists i. split; [set_solver|]. split; [done|]. split; [done|].
  eexists _, _. split; [|reflexivity]. apply length_peers_from.
Qed.

End Written.



Section Deleted.
Context (env : Env) (args : Args).

(** The loop of the delete-only mode, when it comes back: the named
    records are gone, and no other file has changed. *)
Lemma delete_only_loop names w w' :
  dry_run args = false ->
  for_each
    (fun _ name =>
       let filename := name +:+ ".conf" in
       let filepath := target_dir args +:+ "/" +:+ filename in
       if dry_run args then
         print (YELLOW +:+ "[DRY-RUN]" +:+ NC +:+ " Würde löschen: " +:+ filepath)
       else
         delete_interface_and_routes env name (peer_allowed_ips args);;
         present ← path_exists filename;
         when present
           (unlink env (target_dir args) filename;;
            print (GREEN +:+ "Gelöscht:" +:+ NC +:+ " " +:+ filepath)))
    tt names w = (Ok tt, w') ->
  (forall name, name ∈ names -> fs w' !! (name +:+ ".conf") = None) /\
  (forall file, fs w !! file = None -> fs w' !! file = None) /\
  (forall file, (forall name, name ∈ names -> file <> name +:+ ".conf") ->
     fs w' !! file = fs w !! file).
Proof.
  intros Hdry. revert w. induction names as [|name names IH]; intros w H; simpl in H.
  { run H. split; [|done]. intros name Hn. by apply elem_of_nil in Hn. }
  apply bind_Ok_inv in H as ([] & w1 & Hone & H).
  apply IH in H as (Hgone & Hnone & Hsame). clear IH.
  rewrite Hdry in Hone. cbv zeta in Hone.
  apply bind_Ok_inv in Hone as ([] & w0 & Hstop & Hone). frame_fs Hstop.
  assert (fs w1 = fs w0 /\ fs w0 !! (name +:+ ".conf") = None \/
          fs w1 = delete (name +:+ ".conf") (fs w0)) as Hstep.
  { run Hone; simpl in *.
    - right. done.
    - left. split; [done|]. apply bool_decide_eq_false in Heqb.
      by apply eq_None_not_Some. }
  assert (fs w1 !! (name +:+ ".conf") = None) as Hthis.
  { destruct Hstep as [[-> ?]| ->]; [done|]. apply lookup_delete_eq. }
  assert (forall file, fs w !! file = None -> fs w1 !! file = None) as Hnone1.
  { intros file Hf. rewrite Hfs in Hf. destruct Hstep as [[-> ?]| ->]; [done|].
    apply lookup_delete_None. by right. }
  split; [|split].
  - intros n [->|Hn]%elem_of_cons; [by apply Hnone|by apply Hgone].
  - intros file Hf. by apply Hnone, Hnone1.
  - intros file Hf. rewrite Hsame by (intros n Hn; apply Hf; set_solver).
    rewrite Hfs. destruct Hstep as [[-> ?]| ->]; [done|].
    apply lookup_delete_ne. intros Heq. by apply (Hf name); [set_solver|].
Qed.

End Deleted.



(** ** The peer sections of the configuration file *)

Lemma join_split_on c s : join (String c "") (split_on c s) = s.
Proof.
  induction s as [|a s IH]; [done|]. cbn [split_on].
  pose proof (split_on_nonempty c s) as Hne.
  destruct (Ascii.eqb a c) eqn:Hac.
  - apply Ascii.eqb_eq in Hac as ->.
    destruct (split_on c s) as [|f fs]; [done|].
    change (join (String c "") ("" :: f :: fs))
      with (String c (join (String c "") (f :: fs))).
    by rewrite IH.
  - destruct (split_on c s) as [|f fs]; [done|].
    destruct fs as [|g fs].
    + simpl in *. by rewrite IH.
    + change (join (String c "") (String a f :: g :: fs))
        with (String a (join (String c "") (f :: g :: fs))).
      by rewrite IH.
Qed.

Lemma split_on_other c a s :
  Ascii.eqb a c = false ->
  exists f fs, split_on c (String a s) = String a f :: fs /\ split_on c s = f :: fs.
Proof.
  intros Hac. cbn [split_on]. rewrite Hac.
  pose proof (split_on_nonempty c s). destruct (split_on c s) as [|f fs]; [done|]. eauto.
Qed.

Lemma substring_all s : String.substring 0 (String.length s) s = s.
Proof. induction s as [|a s IH]; [done|]. simpl. by rewrite IH. Qed.

Lemma lower_char_dot c : lower_char c = "."%char -> c = "."%char.
Proof. destruct c as [[] [] [] [] [] [] [] []]; vm_compute; congruence. Qed.

Lemma lower_char_letter x c :
  Ascii.eqb x "."%char = false -> Ascii.eqb x (lower_char c) = true ->
  Ascii.eqb c "."%char = false.
Proof.
  intros Hx Hc. destruct (Ascii.eqb c ".") eqn:Hdot; [|done].
  apply Ascii.eqb_eq in Hdot as ->. apply Ascii.eqb_eq in Hc as ->.
  by vm_compute in Hx.
Qed.

Lemma startswith_lower_cons a p name :
  startswith (String a p) (lower name) = true ->
  exists c rest, name = String c rest /\ Ascii.eqb a (lower_char c) = true /\
                 startswith p (lower rest) = true.
Proof.
  destruct name as [|c rest]; [done|]. cbn [lower startswith].
  destruct (Ascii.eqb a (lower_char c)) eqn:E; [|done].
  intros H. exists c, rest. done.
Qed.

(** A section name that begins with [peer.], in whatever case, has its
    first dot in the fifth place: the name of the peer is the section
    name without its first five characters. *)
Lemma after_first_dot_peer name :
  startswith "peer." (lower name) = true ->
  after_first_dot name = String.substring 5 (String.length name - 5) name.
Proof.
  intros H.
  apply startswith_lower_cons in H as (c1 & n1 & -> & H1 & H).
  apply startswith_lower_cons in H as (c2 & n2 & -> & H2 & H).
  apply startswith_lower_cons in H as (c3 & n3 & -> & H3 & H).
  apply startswith_lower_cons in H as (c4 & n4 & -> & H4 & H).
  apply startswith_lower_cons in H as (c5 & rest & -> & H5 & _).
  apply lower_char_letter in H1, H2, H3, H4; try reflexivity.
  apply Ascii.eqb_eq in H5. symmetry in H5. apply lower_char_dot in H5 as ->.
  unfold after_first_dot.
  destruct (split_on_other "." c1 (String c2 (String c3 (String c4 (String "." rest)))) H1)
    as (f1 & fs1 & -> & E1).
  destruct (split_on_other "." c2 (String c3 (String c4 (String "." rest))) H2)
    as (f2 & fs2 & E2' & E2). rewrite E2' in E1. clear E2'.
  destruct (split_on_other "." c3 (String c4 (String "." rest)) H3)
    as (f3 & fs3 & E3' & E3). rewrite E3' in E2. clear E3'.
  destruct (split_on_other "." c4 (String "." rest) H4)
    as (f4 & fs4 & E4' & E4). rewrite E4' in E3. clear E4'.
  cbn [split_on] in E4. rewrite Ascii.eqb_refl in E4.
  simplify_eq.
  pose proof (split_on_nonempty "." rest) as Hne.
  pose proof (join_split_on "." rest) as Hj.
  destruct (split_on "." rest) as [|g gs]; [done|].
  rewrite Hj. cbn [String.length Nat.sub]. cbn [String.substring].
  by rewrite Nat.sub_0_r, substring_all.
Qed.


(** ** The sweep of existing records *)

Section Sweep.
Context (env : Env).

(** The loop of [delete_existing_configs] always comes back: a deletion
    that fails is reported and the loop goes on.  The count goes up by
    one for every record that has gone. *)
Lemma sweep_loop target_dir (allowed_names : option (gset string)) names count w :
  exists count' w',
    for_each
      (fun count name =>
         let conf_file := target_dir +:+ "/" +:+ name in
         if startswith "_" name then
           print ("  " +:+ CYAN +:+ "Überspringe: " +:+ conf_file
                  +:+ " (beginnt mit _) " +:+ NC);;
           ret count
         else
           let conf_name := stem name in
           let outside := match allowed_names with
                          | Some allowed => bool_decide (conf_name ∉ allowed)
                          | None => false
                          end in
           if outside then ret count
           else
             try_oserror
               (unlink env target_dir name;;
                print ("  " +:+ GREEN +:+ "Gelöscht:" +:+ NC +:+ " " +:+ conf_file);;
                ret (S count))
               (fun exc =>
                  print ("  " +:+ RED +:+ "Fehler beim Löschen " +:+ conf_file +:+ ": "
                         +:+ exc +:+ NC);;
                  ret count))
      count names w = (Ok count', w') /\
    db w' = db w /\
    count' + size (dom (fs w')) = count + size (dom (fs w)).
Proof.
  revert count w. induction names as [|name names IH]; intros count w.
  { exists count, w. done. }
  cbn [for_each]. unfold bind at 1. cbv zeta.
  match goal with |- context [(if ?b then ?m1 else ?m2) w] =>
    assert (exists c1 w1, (if b then m1 else m2) w = (Ok c1, w1) /\ db w1 = db w /\
              c1 + size (dom (fs w1)) = count + size (dom (fs w))) as (c1 & w1 & -> & Hd & Hc)
  end.
  { destruct (startswith "_" name).
    { eexists _, _. split; [reflexivity|]. done. }
    destruct (match allowed_names with Some _ => _ | None => _ end).
    { eexists _, _. split; [reflexivity|]. done. }
    unfold try_oserror, bind at 1, unlink.
    destruct (fs w !! name) as [f|] eqn:Hname.
    - unfold os_call. destruct (os_error env (tick w)) as [msg|].
      + eexists _, _. split; [reflexivity|]. done.
      + eexists _, _. split; [reflexivity|]. split; [done|].
        cbn [fs set_fs step log]. rewrite dom_delete_L.
        assert (name ∈ dom (fs w)) as Hin by (apply elem_of_dom; eauto).
        pose proof (size_difference (dom (fs w)) {[name]}) as Hs.
        rewrite size_singleton in Hs.
        assert (size (dom (fs w)) <> 0).
        { intros H0. apply size_empty_inv in H0. set_solver. }
        rewrite Hs by set_solver. lia.
    - eexists _, _. split; [reflexivity|]. done. }
  destruct (IH c1 w1) as (c2 & w2 & Hrest & Hd2 & Hc2).
  exists c2, w2. split; [exact Hrest|]. split; [congruence|lia].
Qed.

End Sweep.

(** X18: [delete_existing_configs] always comes back, whatever the operating
    system answers to a deletion; it leaves the store alone, and the
    number in its last line is the number of records that have gone
    from the target directory. *)
Theorem delete_existing_configs_returns env target_dir allowed_names w :
  let run := delete_existing_configs env target_dir allowed_names w in
  run.1 = Ok tt /\ db run.2 = db w /\
  last (trace run.2)
  = Some (EvPrint (("  " +:+ str (size (dom (fs w)) - size (dom (fs run.2)))
                    +:+ " Konfiguration(en) verarbeitet." +:+ nl) +:+ nl)).
Proof.
  intros run. subst run.
  destruct (delete_existing_configs env target_dir allowed_names w) as [r w'] eqn:H.
  unfold delete_existing_configs in H.
  unfold bind at 1, print at 1, print_end at 1 in H. unfold bind at 1, glob_conf at 1 in H.
  unfold bind at 1 in H.
  match type of H with context [for_each ?f 0 ?l ?w0] =>
    destruct (sweep_loop env target_dir allowed_names l 0 w0) as (c & w1 & Hloop & Hd & Hc)
  end.
  cbv zeta in Hloop. rewrite Hloop in H. cbn [fs db log] in Hd, Hc.
  unfold print, print_end in H. simplify_eq. cbn [fst snd db fs trace log].
  split; [done|]. split; [done|]. rewrite last_snoc.
  replace (size (dom (fs w)) - size (dom (fs w1))) with c by lia. done.
Qed.
